(** * Streamlit tutorial scripts: BMI calculator and session-state demo

    A shallow embedding of the two scripts of the repository that compute
    something of their own:

    - [examples/04_interactive_app.py]: the BMI calculator (unit conversion,
      [calculate_bmi], [get_bmi_category], [get_recommendations] and the
      health-metrics panel);
    - [examples/05_advanced_features.py]: the session-state tab (counter,
      history and shopping cart kept in [st.session_state]).

    Python floats are IEEE-754 binary64 values.  They are modelled bit-exactly
    by [spec_float] with the operations of [SpecFloat] at precision 53 and
    maximal exponent 1024.  The arithmetic of the scripts is written once,
    over an interface [PyFloat], and instantiated twice: at binary64 (what
    the interpreter runs) and at exact rationals (what the formulas mean when
    nothing is rounded). *)

From Stdlib Require Import ZArith QArith Lia Lqa Bool.
From Corelib Require Import SpecFloat.
From stdpp Require Import gmap strings list.

Local Open Scope Z_scope.

(** ** Numbers *)

(** The operations the scripts apply to floats.  [/] and [** 2] can raise
    ([ZeroDivisionError], [OverflowError]), hence [option]. *)
Class PyFloat (F : Type) := {
  f_of_int : Z -> F;            (* int operand converted in mixed arithmetic *)
  f_lit : Z -> Z -> F;          (* decimal literal  n / d,  d a power of ten *)
  f_mul : F -> F -> F;
  f_sub : F -> F -> F;
  f_div : F -> F -> option F;
  f_pow2 : F -> option F;       (* x ** 2 *)
  f_ltb : F -> F -> bool;
  f_leb : F -> F -> bool
}.

Declare Scope py_scope.
Delimit Scope py_scope with py.
Infix "⊗" := f_mul (at level 40, left associativity) : py_scope.
Infix "⊖" := f_sub (at level 50, left associativity) : py_scope.
Infix "⊘" := f_div (at level 40, left associativity) : py_scope.
Infix "≺" := f_ltb (at level 70, no associativity) : py_scope.
Infix "≼" := f_leb (at level 70, no associativity) : py_scope.

(** *** binary64 *)

Definition float64 := spec_float.

Definition b64_mul : float64 -> float64 -> float64 := SFmul 53 1024.
Definition b64_sub : float64 -> float64 -> float64 := SFsub 53 1024.
Definition b64_ltb : float64 -> float64 -> bool := SFltb.
Definition b64_leb : float64 -> float64 -> bool := SFleb.

(** [float(n)]: round to nearest, ties to even (exact below 2^53). *)
Definition b64_of_int (n : Z) : float64 := binary_normalize 53 1024 n 0 false.

(** A decimal literal denotes the double nearest to the rational it spells;
    numerator and denominator are exact doubles, so one correctly rounded
    division yields it. *)
Definition b64_lit (n d : Z) : float64 :=
  SFdiv 53 1024 (b64_of_int n) (b64_of_int d).

(** [float.__truediv__]: a zero divisor of either sign raises. *)
Definition b64_div (x y : float64) : option float64 :=
  match y with
  | S754_zero _ => None
  | _ => Some (SFdiv 53 1024 x y)
  end.

(** [float.__pow__] at exponent 2: NaN, infinities and zeros are answered
    before the C library is called; otherwise [pow(|x|, 2.0)] is the rounded
    square, and a finite argument whose square overflows raises
    [OverflowError] (underflow is silent). *)
Definition b64_pow2 (x : float64) : option float64 :=
  match x with
  | S754_nan => Some S754_nan
  | S754_infinity _ => Some (S754_infinity false)
  | S754_zero _ => Some (S754_zero false)
  | S754_finite _ m e =>
      match SFmul 53 1024 (S754_finite false m e) (S754_finite false m e) with
      | S754_infinity _ => None
      | r => Some r
      end
  end.

#[export] Instance b64_float : PyFloat float64 := {|
  f_of_int := b64_of_int;
  f_lit := b64_lit;
  f_mul := b64_mul;
  f_sub := b64_sub;
  f_div := b64_div;
  f_pow2 := b64_pow2;
  f_ltb := b64_ltb;
  f_leb := b64_leb
|}.

(** *** exact rationals *)

Definition q_ltb (x y : Q) : bool := negb (Qle_bool y x).

Definition q_div (x y : Q) : option Q :=
  if Qeq_bool y 0 then None else Some (x / y)%Q.

#[export] Instance q_float : PyFloat Q := {|
  f_of_int := inject_Z;
  f_lit := fun n d => (inject_Z n / inject_Z d)%Q;
  f_mul := Qmult;
  f_sub := Qminus;
  f_div := q_div;
  f_pow2 := fun x => Some (x * x)%Q;
  f_ltb := q_ltb;
  f_leb := Qle_bool
|}.

(** ** The BMI calculator, [examples/04_interactive_app.py] *)

Section BMI.
Context {F : Type} `{PyFloat F}.
Local Open Scope py_scope.

(** Values of the sidebar widgets (lines 50-64).  The weight and metric
    height inputs are float [number_input]s, feet and inches are int ones. *)
Inductive unit_system :=
| Metric (weight height : F)
| Imperial (weight_lbs : F) (height_feet height_inches : Z).

(** Lines 53-68: [(weight_kg, height_m)]. *)
Definition standard_units (u : unit_system) : option (F * F) :=
  match u with
  | Metric weight height =>
      height_m ← height ⊘ f_of_int 100;
      Some (weight, height_m)
  | Imperial weight_lbs height_feet height_inches =>
      Some (weight_lbs ⊗ f_lit 453592 1000000,
            f_of_int (height_feet * 12 + height_inches) ⊗ f_lit 254 10000)
  end.

(** Lines 81-83. *)
Definition calculate_bmi (weight_kg height_m : F) : option F :=
  h2 ← f_pow2 height_m;
  weight_kg ⊘ h2.

(** Lines 85-94: category name, emoji and colour. *)
Definition get_bmi_category (bmi : F) : string * string * string :=
  if bmi ≺ f_lit 185 10 then
    ("Underweight", "🔵", "#3498db")
  else if (f_lit 185 10 ≼ bmi) && (bmi ≺ f_of_int 25) then
    ("Normal weight", "🟢", "#2ecc71")
  else if (f_of_int 25 ≼ bmi) && (bmi ≺ f_of_int 30) then
    ("Overweight", "🟡", "#f39c12")
  else
    ("Obese", "🔴", "#e74c3c").

(** Lines 98-124: the dict literal. *)
Definition recommendations : gmap string (list string) :=
  list_to_map [
    ("Underweight", [
      "Increase caloric intake with nutrient-dense foods";
      "Focus on strength training exercises";
      "Consult with a nutritionist for a meal plan";
      "Eat more frequent, smaller meals throughout the day" ]);
    ("Normal weight", [
      "Maintain current healthy habits";
      "Continue regular physical activity";
      "Eat a balanced diet with variety";
      "Stay hydrated and get adequate sleep" ]);
    ("Overweight", [
      "Gradually reduce caloric intake";
      "Increase physical activity to 150+ minutes per week";
      "Focus on whole foods and reduce processed foods";
      "Consider consulting a healthcare professional" ]);
    ("Obese", [
      "Consult with a healthcare professional";
      "Create a structured weight loss plan";
      "Start with low-impact exercises like walking";
      "Consider working with a registered dietitian";
      "Set realistic, achievable goals" ]) ].

(** Lines 96-125: [recommendations.get(category, [])]. *)
Definition get_recommendations (bmi : F) (category : string) : list string :=
  default [] (recommendations !! category).

(** Lines 219-227: what the panel shows below the ideal range. *)
Inductive weight_advice :=
| ToGain (weight_diff : F)      (* "To Reach Normal BMI", +diff *)
| ToLose (weight_diff : F)      (* "To Reach Normal BMI", -diff *)
| HealthyRange.                 (* "You're in the healthy range!" *)

(** Lines 209-217: the two weight metrics, in the unit of the input. *)
Record weight_metrics := {
  current_weight : F;
  ideal_low : F;
  ideal_high : F
}.

Record health_panel := {
  ideal_weight_min : F;
  ideal_weight_max : F;
  metrics : weight_metrics;
  advice : weight_advice
}.

Definition is_metric (u : unit_system) : bool :=
  match u with Metric _ _ => true | Imperial _ _ _ => false end.

(** Lines 204-227. *)
Definition health_metrics (u : unit_system) (weight_kg height_m : F)
  : option health_panel :=
  let ideal_bmi_min := f_lit 185 10 in
  let ideal_bmi_max := f_of_int 25 in
  h2 ← f_pow2 height_m;
  let ideal_weight_min := ideal_bmi_min ⊗ h2 in
  h2' ← f_pow2 height_m;
  let ideal_weight_max := ideal_bmi_max ⊗ h2' in
  shown ←
    (if is_metric u then
       Some {| current_weight := weight_kg;
               ideal_low := ideal_weight_min;
               ideal_high := ideal_weight_max |}
     else
       current_lbs ← weight_kg ⊘ f_lit 453592 1000000;
       ideal_min_lbs ← ideal_weight_min ⊘ f_lit 453592 1000000;
       ideal_max_lbs ← ideal_weight_max ⊘ f_lit 453592 1000000;
       Some {| current_weight := current_lbs;
               ideal_low := ideal_min_lbs;
               ideal_high := ideal_max_lbs |});
  let advice :=
    if weight_kg ≺ ideal_weight_min then
      ToGain (ideal_weight_min ⊖ weight_kg)
    else if ideal_weight_max ≺ weight_kg then
      ToLose (weight_kg ⊖ ideal_weight_max)
    else HealthyRange in
  Some {| ideal_weight_min := ideal_weight_min;
          ideal_weight_max := ideal_weight_max;
          metrics := shown;
          advice := advice |}.

(** What one run of the script puts on the page. *)
Record page := {
  weight_kg : F;
  height_m : F;
  bmi : F;
  category : string * string * string;
  panel : health_panel;
  action_items : list string
}.

(** The script, top to bottom (lines 50-234). *)
Definition bmi_app (u : unit_system) : option page :=
  '(weight_kg, height_m) ← standard_units u;
  bmi ← calculate_bmi weight_kg height_m;
  let category := get_bmi_category bmi in
  panel ← health_metrics u weight_kg height_m;
  let recs := get_recommendations bmi (category.1.1) in
  Some {| weight_kg := weight_kg; height_m := height_m; bmi := bmi;
          category := category; panel := panel; action_items := recs |}.

End BMI.

Arguments unit_system : clear implicits.
Arguments weight_advice : clear implicits.
Arguments weight_metrics : clear implicits.
Arguments health_panel : clear implicits.
Arguments page : clear implicits.

(** The name component of [get_bmi_category]. *)
Definition category_name {F} `{PyFloat F} (bmi : F) : string :=
  (get_bmi_category bmi).1.1.

(** How many of the given tests hold. *)
Definition count_true (bs : list bool) : nat :=
  length (filter (fun b => b = true) bs).

(** *** The widget contract *)

Section Widgets.
Context {F : Type} `{PyFloat F}.
Local Open Scope py_scope.

(** [number_input(min_value=lo, max_value=hi)] returns a value between its
    bounds. *)
Definition within (lo hi x : F) : bool := (lo ≼ x) && (x ≼ hi).

(** Lines 54-55 and 62-64. *)
Definition widget_bounds (u : unit_system F) : bool :=
  match u with
  | Metric weight height =>
      within (f_lit 10 10) (f_lit 3000 10) weight &&
      within (f_lit 500 10) (f_lit 2500 10) height
  | Imperial weight_lbs height_feet height_inches =>
      within (f_lit 10 10) (f_lit 7000 10) weight_lbs &&
      (1 <=? height_feet) && (height_feet <=? 8) &&
      (0 <=? height_inches) && (height_inches <=? 11)
  end.

(** [0 < x] *)
Definition positive (x : F) : bool := f_of_int 0 ≺ x.

(** [18.5 <= bmi <= 25] *)
Definition bmi_in_ideal_range (bmi : F) : bool :=
  (f_lit 185 10 ≼ bmi) && (bmi ≼ f_of_int 25).

Definition shows_healthy_range (p : page F) : bool :=
  match advice (panel p) with HealthyRange => true | _ => false end.

(** [ideal_weight_min <= weight_kg <= ideal_weight_max] *)
Definition weight_in_ideal_range (p : page F) : bool :=
  (ideal_weight_min (panel p) ≼ weight_kg p) &&
  (weight_kg p ≼ ideal_weight_max (panel p)).
End Widgets.

(** Every Python float is a canonical binary64 datum. *)
Definition binary64_values (u : unit_system float64) : bool :=
  match u with
  | Metric weight height =>
      valid_binary 53 1024 weight && valid_binary 53 1024 height
  | Imperial weight_lbs _ _ => valid_binary 53 1024 weight_lbs
  end.

(** A positive normal double whose exponent (of the 53-bit integer
    significand) lies between [lo] and [hi]. *)
Definition pos_normal (lo hi : Z) (x : float64) : bool :=
  match x with
  | S754_finite false m e =>
      (digits2_pos m =? 53)%positive && (lo <=? e) && (e <=? hi)
  | _ => false
  end.

(** ** The session-state tab, [examples/05_advanced_features.py] *)

(** *** Python values held in [st.session_state] *)

(** The value of [datetime.now()], as microseconds since the epoch. *)
Definition datetime := Z.

#[warnings="-register-all"]
Inductive pyval :=
| PInt (n : Z)
| PFloat (x : float64)
| PStr (s : string)
| PDatetime (t : datetime)
| PTuple (items : list pyval)
| PList (items : list pyval)
| PDict (items : gmap string pyval).

(** [st.session_state]: a store from attribute names to values. *)
Abbreviation session_state := (gmap string pyval).

(** How a run of the script ends: it reaches the bottom, an uncaught
    exception stops it (which one makes no difference to the store), or
    [st.rerun()] stops it and asks for a fresh run.  The store keeps whatever
    was written before the stop. *)
Inductive outcome (A : Type) :=
| Done (a : A)
| Raised
| RerunRequested.
Arguments Done {A} a.
Arguments Raised {A}.
Arguments RerunRequested {A}.

Definition script (A : Type) : Type := session_state -> outcome A * session_state.

#[export] Instance script_ret : MRet script := fun A a s => (Done a, s).

#[export] Instance script_bind : MBind script := fun A B f m s =>
  match m s with
  | (Done a, s') => f a s'
  | (Raised, s') => (Raised, s')
  | (RerunRequested, s') => (RerunRequested, s')
  end.

Definition raise {A} : script A := fun s => (Raised, s).
Definition rerun : script unit := fun s => (RerunRequested, s).

(** [key in st.session_state] *)
Definition contains (key : string) : script bool :=
  fun s => (Done (bool_decide (is_Some (s !! key))), s).

(** [st.session_state.key] *)
Definition getattr (key : string) : script pyval :=
  fun s => match s !! key with
           | Some v => (Done v, s)
           | None => (Raised, s)
           end.

(** [st.session_state.key = v] *)
Definition setattr (key : string) (v : pyval) : script unit :=
  fun s => (Done tt, <[key := v]> s).

Definition when (b : bool) (body : script unit) : script unit :=
  if b then body else mret tt.

(** [v + n] and [v - n] for an int literal [n]. *)
Definition py_add_int (v : pyval) (n : Z) : script pyval :=
  match v with
  | PInt m => mret (PInt (m + n))
  | PFloat x => mret (PFloat (SFadd 53 1024 x (b64_of_int n)))
  | _ => raise
  end.

Definition py_sub_int (v : pyval) (n : Z) : script pyval :=
  match v with
  | PInt m => mret (PInt (m - n))
  | PFloat x => mret (PFloat (SFsub 53 1024 x (b64_of_int n)))
  | _ => raise
  end.

(** [st.session_state.key.append(x)]: only a list has [append]; the list
    object stored under [key] is extended in place. *)
Definition append_to (key : string) (x : pyval) : script unit :=
  v ← getattr key;
  match v with
  | PList items => setattr key (PList (items ++ [x]))
  | _ => raise
  end.

(** [bool(v)] *)
Definition truthy (v : pyval) : bool :=
  match v with
  | PInt n => negb (n =? 0)
  | PFloat (S754_zero _) => false
  | PFloat _ => true
  | PStr s => negb (String.eqb s "")
  | PDatetime _ => true
  | PTuple items | PList items => negb (bool_decide (items = []))
  | PDict items => negb (bool_decide (items = ∅))
  end.

(** The elements a [for] loop draws from [v]. *)
Definition py_iter (v : pyval) : script (list pyval) :=
  match v with
  | PTuple items | PList items => mret items
  | PStr s => mret ((fun c => PStr (String c EmptyString)) <$> String.list_ascii_of_string s)
  | PDict items => mret (PStr <$> (map_to_list items).*1)
  | _ => raise
  end.

(** [v[-10:]] *)
Definition last_ten (v : pyval) : script pyval :=
  match v with
  | PList items => mret (PList (drop (length items - 10)%nat items))
  | PTuple items => mret (PTuple (drop (length items - 10)%nat items))
  | PStr s =>
      let cs := String.list_ascii_of_string s in
      mret (PStr (String.string_of_list_ascii (drop (length cs - 10)%nat cs)))
  | _ => raise
  end.

Fixpoint for_each {A} (body : A -> script unit) (xs : list A) : script unit :=
  match xs with
  | [] => mret tt
  | x :: xs' => body x;; for_each body xs'
  end.

(** *** The script *)

Inductive button := Increment | Decrement | Reset | AddToCart | ClearCart.

#[export] Instance button_eq_dec : EqDecision button.
Proof. solve_decision. Defined.

(** What one run of the script reads from outside the store: the button
    whose click caused the run (none on a plain load or rerun), the clock,
    and the values of the cart widgets. *)
Record run_input := {
  pressed : option button;
  now : datetime;
  selected_product : string;
  quantity : Z
}.

Definition is_pressed (i : run_input) (b : button) : bool :=
  bool_decide (pressed i = Some b).

(** Lines 191-197. *)
Definition products_items : list (string * float64) :=
  [ ("Apple", b64_lit 150 100);
    ("Banana", b64_lit 75 100);
    ("Orange", b64_lit 125 100);
    ("Milk", b64_lit 350 100);
    ("Bread", b64_lit 200 100) ].

Definition products : gmap string float64 := list_to_map products_items.

(** [products[name]] *)
Definition products_getitem (name : string) : script float64 :=
  match products !! name with
  | Some price => mret price
  | None => raise
  end.

(** Lines 177-180: the history expander.  Each of the last ten entries is
    unpacked into [action, timestamp] and [timestamp.strftime] is called. *)
Definition render_history : script unit :=
  h ← getattr "history";
  when (truthy h) (
    recent ← last_ten h;
    entries ← py_iter recent;
    for_each (fun entry =>
      pair ← py_iter entry;
      match pair with
      | [action; PDatetime _] => mret tt
      | [_; _] => raise
      | _ => raise
      end) entries).

(** [item[key]] for a string key. *)
Definition py_getitem (item : pyval) (key : string) : script pyval :=
  match item with
  | PDict d => match d !! key with
               | Some v => mret v
               | None => raise
               end
  | _ => raise
  end.

(** The double an int operand becomes in mixed arithmetic and under a
    [.2f] format; an int beyond the range of doubles raises
    [OverflowError]. *)
Definition py_float (v : pyval) : script float64 :=
  match v with
  | PInt n =>
      match b64_of_int n with
      | S754_infinity _ => raise
      | x => mret x
      end
  | PFloat x => mret x
  | _ => raise
  end.

(** [a * b] and [a + b] as the cart loop uses them.  Only numbers get
    through: an int times a str, list or tuple is again a sequence, which the
    [total += subtotal] of the next line rejects, and every other mix is a
    [TypeError] on the spot. *)
Definition py_mul (a b : pyval) : script pyval :=
  match a, b with
  | PInt m, PInt n => mret (PInt (m * n))
  | _, _ =>
      x ← py_float a;
      y ← py_float b;
      mret (PFloat (SFmul 53 1024 x y))
  end.

Definition py_add (a b : pyval) : script pyval :=
  match a, b with
  | PInt m, PInt n => mret (PInt (m + n))
  | _, _ =>
      x ← py_float a;
      y ← py_float b;
      mret (PFloat (SFadd 53 1024 x y))
  end.

(** [f"{v:.2f}"] *)
Definition py_format_2f (v : pyval) : script unit :=
  _ ← py_float v; mret tt.

(** Lines 217-220: the loop over the cart, threading [total]. *)
Fixpoint render_cart_items (total : pyval) (items : list pyval) : script pyval :=
  match items with
  | [] => mret total
  | item :: rest =>
      q ← py_getitem item "quantity";
      p ← py_getitem item "price";
      subtotal ← py_mul q p;
      total' ← py_add total subtotal;
      _ ← py_getitem item "quantity";
      _ ← py_getitem item "product";
      py_format_2f subtotal;;
      render_cart_items total' rest
  end.

(** Lines 216-222. *)
Definition render_cart (cart : pyval) : script unit :=
  items ← py_iter cart;
  total ← render_cart_items (PInt 0) items;
  py_format_2f total.

(** Lines 151-228, top to bottom.  Nothing else in the script reads or
    writes [st.session_state]: the other tabs only render, and the further
    mentions of it are inside strings passed to [st.code]. *)
Definition session_tab (i : run_input) : script unit :=
  (* 151-155 *)
  has_counter ← contains "counter";
  when (negb has_counter) (setattr "counter" (PInt 0));;
  has_history ← contains "history";
  when (negb has_history) (setattr "history" (PList []));;
  (* 160-162 *)
  when (is_pressed i Increment) (
    c ← getattr "counter";
    c' ← py_add_int c 1;
    setattr "counter" c';;
    append_to "history" (PTuple [PStr "increment"; PDatetime (now i)]));;
  (* 165-167 *)
  when (is_pressed i Decrement) (
    c ← getattr "counter";
    c' ← py_sub_int c 1;
    setattr "counter" c';;
    append_to "history" (PTuple [PStr "decrement"; PDatetime (now i)]));;
  (* 170-172 *)
  when (is_pressed i Reset) (
    setattr "counter" (PInt 0);;
    setattr "history" (PList []));;
  (* 174-180 *)
  _ ← getattr "counter";
  render_history;;
  (* 187-188 *)
  has_cart ← contains "cart";
  when (negb has_cart) (setattr "cart" (PList []));;
  (* 205-211 *)
  when (is_pressed i AddToCart) (
    price ← products_getitem (selected_product i);
    append_to "cart" (PDict (list_to_map [
      ("product", PStr (selected_product i));
      ("quantity", PInt (quantity i));
      ("price", PFloat price) ])));;
  (* 215-228 *)
  cart ← getattr "cart";
  when (truthy cart) (
    render_cart cart;;
    when (is_pressed i ClearCart) (
      setattr "cart" (PList []);;
      rerun)).

(** A click (or the first load) runs the script; [st.rerun()] makes the
    framework run it once more with no button pressed and the widgets as
    they were. *)
Definition interact (i : run_input) (s : session_state)
  : outcome unit * session_state :=
  match session_tab i s with
  | (RerunRequested, s') =>
      session_tab {| pressed := None; now := now i;
                     selected_product := selected_product i;
                     quantity := quantity i |} s'
  | r => r
  end.

(** *** Type consistency of the three session variables *)

(** An entry of [history]: the pair [(action, datetime.now())]. *)
Definition history_entry (action : string) (t : datetime) : pyval :=
  PTuple [PStr action; PDatetime t].

(** An entry of [cart]: the dict built at lines 206-210. *)
Definition cart_record (product : string) (qty : Z) (price : float64) : pyval :=
  PDict (list_to_map [
    ("product", PStr product);
    ("quantity", PInt qty);
    ("price", PFloat price) ]).

Definition is_history_entry (v : pyval) : Prop :=
  exists action t, v = history_entry action t.

Definition is_cart_item (v : pyval) : Prop :=
  exists product qty price,
    v = cart_record product qty price /\
    products !! product = Some price /\
    1 <= qty <= 10.

Record well_typed (s : session_state) : Prop := {
  wt_counter : exists n, s !! "counter" = Some (PInt n);
  wt_history : exists h, s !! "history" = Some (PList h) /\ Forall is_history_entry h;
  wt_cart : exists c, s !! "cart" = Some (PList c) /\ Forall is_cart_item c
}.

(** The widget contract of the cart inputs: [selectbox] returns one of
    [list(products.keys())], [number_input(min_value=1, max_value=10)] an int
    between its bounds. *)
Definition admitted_input (i : run_input) : Prop :=
  selected_product i ∈ products_items.*1 /\ 1 <= quantity i <= 10.

(** The action recorded by a history entry, and how many entries record a
    given action. *)
Definition entry_action (v : pyval) : option string :=
  match v with
  | PTuple [PStr action; _] => Some action
  | _ => None
  end.

Definition count_action (action : string) (h : list pyval) : Z :=
  Z.of_nat (length (filter (fun v => entry_action v = Some action) h)).

Definition counter_matches_history (s : session_state) : Prop :=
  exists n h,
    s !! "counter" = Some (PInt n) /\
    s !! "history" = Some (PList h) /\
    n = count_action "increment" h - count_action "decrement" h.

(** The stores a browser session can be in: the first load runs the script
    on the empty store, every click runs it on the store left by the
    previous run. *)
Inductive reachable : session_state -> Prop :=
| reach_load i :
    pressed i = None -> admitted_input i ->
    reachable (interact i ∅).2
| reach_click i s :
    reachable s -> admitted_input i ->
    reachable (interact i s).2.

(** What a run does to the three variables, read off the button handlers. *)
Definition next_counter (i : run_input) (n : Z) : Z :=
  match pressed i with
  | Some Increment => n + 1
  | Some Decrement => n - 1
  | Some Reset => 0
  | _ => n
  end.

Definition next_history (i : run_input) (h : list pyval) : list pyval :=
  match pressed i with
  | Some Increment => h ++ [history_entry "increment" (now i)]
  | Some Decrement => h ++ [history_entry "decrement" (now i)]
  | Some Reset => []
  | _ => h
  end.

Definition next_cart (i : run_input) (c : list pyval) : list pyval :=
  match pressed i with
  | Some AddToCart =>
      match products !! selected_product i with
      | Some price => c ++ [cart_record (selected_product i) (quantity i) price]
      | None => c
      end
  | Some ClearCart => []
  | _ => c
  end.

(** The store after the first load. *)
Definition fresh_store : session_state :=
  <["cart" := PList []]> (<["history" := PList []]> (<["counter" := PInt 0]> ∅)).

(** Scripts that never overwrite or delete a session variable. *)
Definition grows {A} (m : script A) : Prop := forall s, s ⊆ (m s).2.

(** A store in the middle of a session, and the inputs of three runs. *)
Definition sample_store : session_state :=
  <["cart" := PList [cart_record "Milk" 3 (b64_lit 350 100)]]>
  (<["history" := PList [history_entry "increment" 10;
                         history_entry "increment" 20]]>
  (<["counter" := PInt 2]> ∅)).

Definition click (b : option button) : run_input :=
  {| pressed := b; now := 30; selected_product := "Apple"; quantity := 1 |}.

From Stdlib Require Qpower Qabs.

(** ** The chart of the BMI page (04_interactive_app.py, lines 155-196) *)

Section Chart.
Context {F : Type} `{PyFloat F}.
Local Open Scope py_scope.

(** Lines 158-166: the bars of the BMI scale, their labels and colours. *)
Definition scale_bars : list (string * string) :=
  [ ("Underweight", "#3498db"); ("Normal", "#2ecc71");
    ("Overweight", "#f39c12"); ("Obese", "#e74c3c") ].

(** Lines 169-176: the bar the marker is drawn on. *)
Definition x_pos (bmi : F) : nat :=
  if bmi ≺ f_lit 185 10 then 0%nat
  else if bmi ≺ f_of_int 25 then 1%nat
  else if bmi ≺ f_of_int 30 then 2%nat
  else 3%nat.

(** Line 180: the height of the marker, [bmi if bmi < 35 else 35]. *)
Definition marker_y (bmi : F) : F :=
  if bmi ≺ f_of_int 35 then bmi else f_of_int 35.

(** Line 192: [yaxis=dict(range=[0, 40])]. *)
Definition yaxis_range : Z * Z := (0, 40).

(** The marker is strictly inside the plotted range of the y axis. *)
Definition inside_yaxis (y : F) : bool :=
  (f_of_int yaxis_range.1 ≺ y) && (y ≺ f_of_int yaxis_range.2).

End Chart.

(** ** Reruns *)

(** Scripts that never call [st.rerun()]. *)
Definition no_rerun {A} (m : script A) : Prop :=
  forall s, (m s).1 <> RerunRequested.

(** An input the select box cannot produce: a product missing from the
    price table. *)
Definition click_unknown_product : run_input :=
  {| pressed := Some AddToCart; now := 30;
     selected_product := "Pear"; quantity := 1 |}.

(** ** What the doubles of the BMI page stand for *)

(** The rational number a finite double stands for ([0] for the others). *)
Definition b64_value (x : float64) : Q :=
  match x with
  | S754_finite s m e =>
      ((if s then inject_Z (Z.neg m) else inject_Z (Z.pos m)) * 2 ^ e)%Q
  | _ => 0%Q
  end.

(** The same widget values, read as rationals. *)
Definition exact_input (u : unit_system float64) : unit_system Q :=
  match u with
  | Metric weight height => Metric (b64_value weight) (b64_value height)
  | Imperial weight_lbs feet inches => Imperial (b64_value weight_lbs) feet inches
  end.

(** One unit in the last place of a 53-bit significand, relative to it:
    2^-52. *)
Definition ulp_ratio : Q := 1 # 4503599627370496.

(** [r] is within one unit in the last place of [v]. *)
Definition rounds_to (v r : Q) : Prop :=
  (r * (1 - ulp_ratio) <= v <= r * (1 + ulp_ratio))%Q.

(** [v / exact] lies between [lo] and [hi]. *)
Definition within_factor (lo hi exact v : Q) : Prop :=
  (lo * exact <= v <= hi * exact)%Q.

(** [v] is [exact] up to a relative error of [k] units in the last place. *)
Definition within_ulps (k : Z) (exact v : Q) : Prop :=
  within_factor (1 - inject_Z k * ulp_ratio) (1 + inject_Z k * ulp_ratio) exact v.

(** [v] is [exact] up to the relative error [eps]. *)
Definition relative_error_within (eps exact v : Q) : Prop :=
  (Qabs.Qabs (v - exact) <= exact * eps)%Q.

(** The relative width of the band around a threshold inside which
    rounding may decide a comparison either way: 2^-48. *)
Definition rounding_band : Q := 1 # 281474976710656.

(** [x] is not within the band around the threshold [t]. *)
Definition outside_band (t x : Q) : Prop :=
  (x <= t * (1 - rounding_band) \/ t * (1 + rounding_band) <= x)%Q.

(** Widget values for the examples: 70 kg and 170 cm; 154 lbs, 5 ft 7 in. *)
Definition metric_sample : unit_system float64 :=
  Metric (b64_lit 700 10) (b64_lit 1700 10).

Definition imperial_sample : unit_system float64 :=
  Imperial (b64_lit 1540 10) 5 7.


(** ** What the cart costs *)

(** [x] is the positive normal double of [n] quarters, [n / 4]. *)
Definition is_quarters (n : Z) (x : float64) : bool :=
  match x with
  | S754_finite false m e =>
      (digits2_pos m =? 53)%positive && (e <=? -2) && (Z.pos m =? n * 2 ^ (-2 - e))
  | _ => false
  end.

(** The number of quarters in a price. *)
Definition quarters_of (x : float64) : Z :=
  match x with
  | S754_finite false m e => Z.pos m / 2 ^ (-2 - e)
  | _ => 0
  end.

(** What an item of the cart costs, and the whole cart, in exact
    arithmetic. *)
Definition exact_subtotal (item : pyval) : Q :=
  match item with
  | PDict d =>
      match d !! "quantity", d !! "price" with
      | Some (PInt q), Some (PFloat p) => (inject_Z q * b64_value p)%Q
      | _, _ => 0%Q
      end
  | _ => 0%Q
  end.

Definition exact_total (cart : list pyval) : Q :=
  foldr (fun item rest => (exact_subtotal item + rest)%Q) 0%Q cart.

(** The loop variable [total] stands for the exact sum [acc]: it is the
    int 0 the loop starts from, or the double of a whole number of
    quarters. *)
Definition running_total (acc : Q) (total : pyval) : Prop :=
  (total = PInt 0 /\ acc == 0)%Q \/
  exists t n, total = PFloat t /\ is_quarters n t = true /\ (b64_value t == acc)%Q.

(** Three bottles of milk and an apple. *)
Definition sample_cart : list pyval :=
  [ cart_record "Milk" 3 (b64_lit 350 100);
    cart_record "Apple" 1 (b64_lit 150 100) ].

(** ** The chart selector, [examples/03_data_visualization.py] *)

(** Lines 61-65: the options of the select box. *)
Definition chart_types : list string :=
  [ "Line Chart"; "Bar Chart"; "Area Chart"; "Scatter Plot";
    "Histogram"; "Heatmap"; "3D Surface"; "All Charts" ].

(** [x in [a, b]] on strings. *)
Definition py_in (x : string) (l : list string) : bool := bool_decide (x ∈ l).

(** One guarded section of the page: [if chart_type in [name, "All Charts"]],
    identified by the text of its [st.header]. *)
Definition section_if (chart_type name header : string) : list string :=
  if py_in chart_type [name; "All Charts"] then [header] else [].

(** Lines 70-258: the headers of the sections a run renders, top to
    bottom. *)
Definition sections (chart_type : string) : list string :=
  section_if chart_type "Line Chart" "1. Line Chart" ++
  section_if chart_type "Bar Chart" "2. Bar Chart" ++
  section_if chart_type "Area Chart" "3. Area Chart" ++
  section_if chart_type "Scatter Plot" "4. Scatter Plot" ++
  section_if chart_type "Histogram" "5. Histogram" ++
  section_if chart_type "Heatmap" "6. Heatmap" ++
  section_if chart_type "3D Surface" "7. 3D Surface Plot".


(** * binary64 arithmetic in the normal range *)

(** ** Bit lengths and right shifts *)

Lemma pow2_step d : 0 < d -> 2 ^ d = 2 * 2 ^ (d - 1).
Proof.
  intros Hd. replace d with (Z.succ (d - 1)) at 1 by lia.
  apply Z.pow_succ_r. lia.
Qed.

Lemma digits2_pos_bounds m :
  2 ^ (Z.pos (digits2_pos m) - 1) <= Z.pos m < 2 ^ Z.pos (digits2_pos m).
Proof.
  induction m as [m IH|m IH|]; cbn [digits2_pos].
  - rewrite Pos2Z.inj_succ.
    replace (Z.succ (Z.pos (digits2_pos m)) - 1) with (Z.pos (digits2_pos m)) by lia.
    rewrite (pow2_step (Z.succ _)) by lia.
    replace (Z.succ (Z.pos (digits2_pos m)) - 1) with (Z.pos (digits2_pos m)) by lia.
    rewrite (pow2_step (Z.pos (digits2_pos m))) in * by lia. lia.
  - rewrite Pos2Z.inj_succ.
    replace (Z.succ (Z.pos (digits2_pos m)) - 1) with (Z.pos (digits2_pos m)) by lia.
    rewrite (pow2_step (Z.succ _)) by lia.
    replace (Z.succ (Z.pos (digits2_pos m)) - 1) with (Z.pos (digits2_pos m)) by lia.
    rewrite (pow2_step (Z.pos (digits2_pos m))) in * by lia. lia.
  - cbn. lia.
Qed.

Lemma Zdigits2_bounds z :
  0 < z -> 2 ^ (Zdigits2 z - 1) <= z < 2 ^ Zdigits2 z.
Proof. destruct z as [|m|m]; try lia. intros _. apply digits2_pos_bounds. Qed.

Lemma Zdigits2_unique z d :
  0 < z -> 2 ^ (d - 1) <= z < 2 ^ d -> Zdigits2 z = d.
Proof.
  intros Hz [Hlo Hhi]. pose proof (Zdigits2_bounds z Hz) as [Hlo' Hhi'].
  assert (0 < Zdigits2 z) by (destruct z; cbn; lia).
  assert (0 < d).
  { destruct (Z.lt_trichotomy d 0) as [Hneg|[->|Hpos]]; [| |assumption].
    - rewrite (Z.pow_neg_r 2 d) in Hhi by lia. lia.
    - cbn in Hhi. lia. }
  destruct (Z.lt_trichotomy (Zdigits2 z) d) as [Hlt|[Heq|Hgt]]; [|assumption|].
  - assert (2 ^ Zdigits2 z <= 2 ^ (d - 1)) by (apply Z.pow_le_mono_r; lia). lia.
  - assert (2 ^ d <= 2 ^ (Zdigits2 z - 1)) by (apply Z.pow_le_mono_r; lia). lia.
Qed.

Lemma shr_1_m r : 0 <= shr_m r -> shr_m (shr_1 r) = shr_m r / 2.
Proof.
  destruct r as [m b c]. cbn [shr_m]. intros Hm.
  destruct m as [|[p|p|]|p]; cbn [shr_1 shr_m]; try lia.
  - reflexivity.
  - rewrite Pos2Z.inj_xI. apply Z.div_unique with 1; lia.
  - rewrite Pos2Z.inj_xO. apply Z.div_unique with 0; lia.
  - reflexivity.
Qed.

Lemma iter_pos_shr_m n : forall r,
  0 <= shr_m r -> shr_m (SpecFloat.iter_pos shr_1 n r) = shr_m r / 2 ^ Z.pos n.
Proof.
  induction n as [n IH|n IH|]; intros r Hr; cbn [SpecFloat.iter_pos].
  - assert (H1 : 0 <= shr_m (shr_1 r)).
    { rewrite shr_1_m by assumption. apply Z.div_pos; lia. }
    assert (H2 : 0 <= shr_m (SpecFloat.iter_pos shr_1 n (shr_1 r))).
    { rewrite IH by assumption. apply Z.div_pos; [assumption|lia]. }
    rewrite IH, IH, shr_1_m by assumption.
    rewrite !Z.div_div by lia.
    f_equal. rewrite Pos2Z.inj_xI, Z.pow_add_r, <- Z.pow_twice_r by lia. lia.
  - assert (H2 : 0 <= shr_m (SpecFloat.iter_pos shr_1 n r)).
    { rewrite IH by assumption. apply Z.div_pos; [assumption|lia]. }
    rewrite IH, IH by assumption.
    rewrite !Z.div_div by lia.
    f_equal. rewrite Pos2Z.inj_xO, <- Z.pow_twice_r. lia.
  - rewrite shr_1_m by assumption. reflexivity.
Qed.

Lemma shr_m_of_loc m l : shr_m (shr_record_of_loc m l) = m.
Proof. destruct l as [|[]]; reflexivity. Qed.

Lemma shr_fexp_normal m e l :
  0 < m -> 53 <= Zdigits2 m -> -1074 <= e + Zdigits2 m - 53 ->
  exists r,
    shr_fexp 53 1024 m e l = (r, e + Zdigits2 m - 53) /\
    shr_m r = m / 2 ^ (Zdigits2 m - 53).
Proof.
  intros Hm Hd He. unfold shr_fexp, fexp, emin.
  rewrite Z.max_l by lia.
  replace (Zdigits2 m + e - 53 - e) with (Zdigits2 m - 53) by lia.
  unfold shr. destruct (Zdigits2 m - 53) as [|p|p] eqn:E; try lia.
  - eexists; split; [f_equal; lia|].
    rewrite shr_m_of_loc. cbn. now rewrite Z.div_1_r.
  - eexists; split; [f_equal; lia|].
    rewrite iter_pos_shr_m; rewrite shr_m_of_loc; [reflexivity|lia].
Qed.

Lemma round_nearest_even_bounds m l :
  m <= round_nearest_even m l <= m + 1.
Proof.
  unfold round_nearest_even. destruct l as [|[]]; try lia.
  destruct (Z.even m); lia.
Qed.

Lemma binary_round_aux_normal sx mx ex lx :
  0 < mx -> 53 <= Zdigits2 mx ->
  -1074 <= ex + Zdigits2 mx - 53 -> ex + Zdigits2 mx - 52 <= 971 ->
  exists m e,
    binary_round_aux 53 1024 sx mx ex lx = S754_finite sx m e /\
    digits2_pos m = 53%positive /\
    ex + Zdigits2 mx - 53 <= e <= ex + Zdigits2 mx - 52.
Proof.
  intros Hmx Hd Hlo Hhi.
  pose proof (Zdigits2_bounds mx Hmx) as [Hb1 Hb2].
  unfold binary_round_aux.
  destruct (shr_fexp_normal mx ex lx Hmx Hd Hlo) as (r1 & -> & Hr1).
  remember (Zdigits2 mx) as d eqn:Ed.
  remember (round_nearest_even (shr_m r1) (loc_of_shr_record r1)) as m2 eqn:Em.
  assert (Hm1 : 2 ^ 52 <= shr_m r1 < 2 ^ 53).
  { rewrite Hr1.
    assert (Hp : 0 < 2 ^ (d - 53)) by (apply Z.pow_pos_nonneg; lia).
    assert (E1 : 2 ^ (d - 1) = 2 ^ 52 * 2 ^ (d - 53)).
    { rewrite <- Z.pow_add_r by lia. f_equal. lia. }
    assert (E2 : 2 ^ d = 2 ^ 53 * 2 ^ (d - 53)).
    { rewrite <- Z.pow_add_r by lia. f_equal. lia. }
    split.
    - apply Z.div_le_lower_bound; [assumption|]. lia.
    - apply Z.div_lt_upper_bound; [assumption|]. lia. }
  pose proof (round_nearest_even_bounds (shr_m r1) (loc_of_shr_record r1)) as Hm2.
  rewrite <- Em in Hm2.
  assert (Hm2pos : 0 < m2) by lia.
  destruct (Z.lt_ge_cases m2 (2 ^ 53)) as [Hlt|Hge].
  - assert (Hd2 : Zdigits2 m2 = 53) by (apply Zdigits2_unique; lia).
    destruct (shr_fexp_normal m2 (ex + d - 53) loc_Exact) as (r2 & -> & Hr2);
      rewrite ?Hd2; try lia.
    rewrite Hd2 in Hr2. change (2 ^ (53 - 53)) with 1 in Hr2.
    rewrite Z.div_1_r in Hr2. rewrite Hr2.
    destruct m2 as [|p|p] eqn:Ep; try lia.
    replace (ex + d - 53 + 53 - 53 <=? 1024 - 53) with true
      by (symmetry; apply Z.leb_le; lia).
    exists p, (ex + d - 53 + 53 - 53). split; [reflexivity|].
    split; [|lia]. cbn [Zdigits2] in Hd2. congruence.
  - assert (Em2 : m2 = 2 ^ 53) by lia.
    assert (Hd2 : Zdigits2 m2 = 54) by (rewrite Em2; reflexivity).
    destruct (shr_fexp_normal m2 (ex + d - 53) loc_Exact) as (r2 & -> & Hr2);
      rewrite ?Hd2; try lia.
    rewrite Hd2, Em2 in Hr2. change (2 ^ 53 / 2 ^ (54 - 53)) with (Z.pos (2 ^ 52)) in Hr2.
    rewrite Hr2.
    replace (ex + d - 53 + 54 - 53 <=? 1024 - 53) with true
      by (symmetry; apply Z.leb_le; lia).
    exists (2 ^ 52)%positive, (ex + d - 53 + 54 - 53). split; [reflexivity|].
    split; [reflexivity|lia].
Qed.

Lemma pos_normal_inv lo hi x :
  pos_normal lo hi x = true ->
  exists m e, x = S754_finite false m e /\
    2 ^ 52 <= Z.pos m < 2 ^ 53 /\ lo <= e <= hi.
Proof.
  destruct x as [| | |[] m e]; try discriminate. cbn [pos_normal].
  rewrite !andb_true_iff, Pos.eqb_eq, !Z.leb_le. intros [[Hd ?] ?].
  exists m, e. split; [reflexivity|]. split; [|lia].
  pose proof (digits2_pos_bounds m) as Hb. rewrite Hd in Hb. exact Hb.
Qed.

Lemma pos_normal_intro lo hi m e :
  digits2_pos m = 53%positive -> lo <= e <= hi ->
  pos_normal lo hi (S754_finite false m e) = true.
Proof.
  intros Hd He. cbn [pos_normal].
  rewrite !andb_true_iff, Pos.eqb_eq, !Z.leb_le. repeat split; [assumption|lia..].
Qed.

Lemma pos_normal_weaken lo hi lo' hi' x :
  pos_normal lo hi x = true -> lo' <= lo -> hi <= hi' ->
  pos_normal lo' hi' x = true.
Proof.
  destruct x as [| | |[] m e]; try discriminate. cbn [pos_normal].
  rewrite !andb_true_iff, !Z.leb_le. intuition lia.
Qed.

Lemma SFmul_pos_normal a b c d x y :
  pos_normal a b x = true -> pos_normal c d y = true ->
  -1074 <= a + c + 52 -> b + d + 54 <= 971 ->
  pos_normal (a + c + 52) (b + d + 54) (SFmul 53 1024 x y) = true.
Proof.
  intros Hx Hy Hlo Hhi.
  apply pos_normal_inv in Hx as (mx & ex & -> & Hmx & Hex).
  apply pos_normal_inv in Hy as (my & ey & -> & Hmy & Hey).
  cbn [SFmul xorb].
  assert (Hprod : 2 ^ 104 <= Z.pos (mx * my) < 2 ^ 106).
  { rewrite Pos2Z.inj_mul.
    change (2 ^ 104) with (2 ^ 52 * 2 ^ 52). change (2 ^ 106) with (2 ^ 53 * 2 ^ 53).
    nia. }
  assert (Hdig : Zdigits2 (Z.pos (mx * my)) = 105 \/ Zdigits2 (Z.pos (mx * my)) = 106).
  { destruct (Z.lt_ge_cases (Z.pos (mx * my)) (2 ^ 105)).
    - left. apply Zdigits2_unique; [lia|]. split; [apply Hprod|assumption].
    - right. apply Zdigits2_unique; [lia|]. split; [assumption|apply Hprod]. }
  destruct (binary_round_aux_normal false (Z.pos (mx * my)) (ex + ey) loc_Exact)
    as (m & e & -> & Hm & He); try lia.
  apply pos_normal_intro; [assumption|lia].
Qed.

Lemma SFdiv_pos_normal a b c d x y :
  pos_normal a b x = true -> pos_normal c d y = true ->
  -1074 <= a - d - 53 -> b - c - 51 <= 971 ->
  pos_normal (a - d - 53) (b - c - 51) (SFdiv 53 1024 x y) = true.
Proof.
  intros Hx Hy Hlo Hhi.
  apply pos_normal_inv in Hx as (mx & ex & -> & Hmx & Hex).
  apply pos_normal_inv in Hy as (my & ey & -> & Hmy & Hey).
  cbn [SFdiv xorb]. unfold SFdiv_core_binary.
  assert (Hdx : Zdigits2 (Z.pos mx) = 53) by (apply Zdigits2_unique; lia).
  assert (Hdy : Zdigits2 (Z.pos my) = 53) by (apply Zdigits2_unique; lia).
  rewrite Hdx, Hdy. unfold fexp, emin.
  replace (Z.min (Z.max (53 + ex - (53 + ey) - 53) (3 - 1024 - 53)) (ex - ey))
    with (ex - ey - 53) by lia.
  replace (ex - ey - (ex - ey - 53)) with 53 by lia.
  cbv iota. rewrite Z.shiftl_mul_pow2 by lia.
  pose proof (Z.div_eucl_eq (Z.pos mx * 2 ^ 53) (Z.pos my)) as Hq.
  pose proof (Z.mod_pos_bound (Z.pos mx * 2 ^ 53) (Z.pos my)) as Hr.
  unfold Z.modulo in Hr.
  destruct (Z.div_eucl (Z.pos mx * 2 ^ 53) (Z.pos my)) as [q r].
  specialize (Hq ltac:(lia)). specialize (Hr ltac:(lia)).
  assert (Hqb : 2 ^ 52 <= q < 2 ^ 54).
  { change (2 ^ 54) with (4 * 2 ^ 52). change (2 ^ 53) with (2 * 2 ^ 52) in Hq, Hmx, Hmy.
    nia. }
  assert (Hdig : Zdigits2 q = 53 \/ Zdigits2 q = 54).
  { destruct (Z.lt_ge_cases q (2 ^ 53)).
    - left. apply Zdigits2_unique; [lia|]. split; [apply Hqb|assumption].
    - right. apply Zdigits2_unique; [lia|]. split; [assumption|apply Hqb]. }
  destruct (binary_round_aux_normal false q (ex - ey - 53) (new_location (Z.pos my) r))
    as (m & e & -> & Hm & He); try lia.
  apply pos_normal_intro; [assumption|lia].
Qed.

(** ** Comparing significands *)

Lemma compare_cont_Eq_spec a b :
  CompareSpec (a = b) (a < b)%positive (b < a)%positive (Pos.compare_cont Eq a b).
Proof. exact (Pos.compare_spec a b). Qed.

Lemma compare_cont_Eq_antisym a b :
  Pos.compare_cont Eq b a = CompOpp (Pos.compare_cont Eq a b).
Proof. exact (Pos.compare_antisym a b). Qed.

Lemma compare_cont_lt a b : (a < b)%positive -> Pos.compare_cont Eq a b = Lt.
Proof. intros H. exact H. Qed.

(** ** From widget bounds to exponent ranges *)

Lemma within_pos_normal lo hi x ml el mh eh :
  lo = S754_finite false ml el -> hi = S754_finite false mh eh ->
  -1074 < el ->
  valid_binary 53 1024 x = true -> within lo hi x = true ->
  pos_normal el eh x = true.
Proof.
  intros -> -> Hel Hv. unfold within. cbn [f_leb b64_float b64_leb].
  rewrite andb_true_iff. intros [Hlo Hhi].
  unfold b64_leb, SFleb, SFcompare in Hlo, Hhi.
  destruct x as [[]|[]| |[] m e]; try discriminate.
  assert (el <= e).
  { destruct (Z.compare_spec el e); [lia|lia|discriminate Hlo]. }
  assert (e <= eh).
  { destruct (Z.compare_spec e eh); [lia|lia|discriminate Hhi]. }
  all: cbn [valid_binary] in Hv; unfold bounded, canonical_mantissa, fexp, emin in Hv.
  all: apply andb_true_iff in Hv as [Hc _]; apply Z.eqb_eq in Hc.
  all: apply pos_normal_intro; [|lia].
  all: assert (Z.pos (digits2_pos m) = 53) by lia; congruence.
Qed.

Lemma positive_pos_normal lo hi x :
  pos_normal lo hi x = true -> positive x = true.
Proof.
  intros Hx. apply pos_normal_inv in Hx as (m & e & -> & _). reflexivity.
Qed.

Lemma b64_div_pos_normal lo hi x y :
  pos_normal lo hi y = true -> b64_div x y = Some (SFdiv 53 1024 x y).
Proof. intros Hy. apply pos_normal_inv in Hy as (m & e & -> & _). reflexivity. Qed.

Lemma b64_pow2_pos_normal a b x :
  pos_normal a b x = true ->
  -1074 <= a + a + 52 -> b + b + 54 <= 971 ->
  exists x2, b64_pow2 x = Some x2 /\ pos_normal (a + a + 52) (b + b + 54) x2 = true.
Proof.
  intros Hx Hlo Hhi.
  pose proof (SFmul_pos_normal a b a b x x Hx Hx Hlo Hhi) as H2.
  apply pos_normal_inv in Hx as (m & e & -> & _).
  unfold b64_pow2.
  destruct (SFmul 53 1024 (S754_finite false m e) (S754_finite false m e))
    as [| | |[] m2 e2] eqn:E; try discriminate.
  eauto.
Qed.

Lemma b64_of_int_feet_inches n :
  12 <= n <= 107 -> pos_normal (-49) (-46) (b64_of_int n) = true.
Proof.
  intros Hn.
  assert (Hall : forallb (fun k => pos_normal (-49) (-46) (b64_of_int k)) (seqZ 12 96) = true)
    by (vm_compute; reflexivity).
  rewrite forallb_forall in Hall. apply Hall.
  apply list_elem_of_In, elem_of_seqZ. lia.
Qed.

Ltac by_computation := vm_compute; reflexivity.

Lemma standard_units_normal u :
  binary64_values u = true -> widget_bounds u = true ->
  exists w h,
    standard_units u = Some (w, h) /\
    pos_normal (-54) (-43) w = true /\ pos_normal (-55) (-50) h = true.
Proof.
  destruct u as [weight height|weight_lbs height_feet height_inches];
    cbn [binary64_values widget_bounds standard_units].
  - rewrite !andb_true_iff. intros [Hvw Hvh] [Hw Hh].
    eapply (within_pos_normal _ _ _ _ (-52) _ (-44)) in Hw;
      [|by_computation|by_computation|lia|assumption].
    eapply (within_pos_normal _ _ _ _ (-47) _ (-45)) in Hh;
      [|by_computation|by_computation|lia|assumption].
    assert (H100 : pos_normal (-46) (-46) (b64_of_int 100) = true) by by_computation.
    cbn [f_div f_of_int b64_float].
    rewrite (b64_div_pos_normal _ _ height _ H100). cbn [mbind option_bind].
    do 2 eexists. split; [reflexivity|]. split.
    + eapply pos_normal_weaken; [exact Hw|lia..].
    + eapply pos_normal_weaken;
        [exact (SFdiv_pos_normal _ _ _ _ _ _ Hh H100 ltac:(lia) ltac:(lia))|lia..].
  - rewrite !andb_true_iff, !Z.leb_le. intros Hv [[[[Hw ?] ?] ?] ?].
    eapply (within_pos_normal _ _ _ _ (-52) _ (-43)) in Hw;
      [|by_computation|by_computation|lia|assumption].
    assert (Hlb : pos_normal (-54) (-54) (b64_lit 453592 1000000) = true) by by_computation.
    assert (Hin : pos_normal (-58) (-58) (b64_lit 254 10000) = true) by by_computation.
    assert (Hn : pos_normal (-49) (-46) (b64_of_int (height_feet * 12 + height_inches)) = true)
      by (apply b64_of_int_feet_inches; lia).
    do 2 eexists. split; [reflexivity|]. split.
    + eapply pos_normal_weaken;
        [exact (SFmul_pos_normal _ _ _ _ _ _ Hw Hlb ltac:(lia) ltac:(lia))|lia..].
    + eapply pos_normal_weaken;
        [exact (SFmul_pos_normal _ _ _ _ _ _ Hn Hin ltac:(lia) ltac:(lia))|lia..].
Qed.

Lemma calculate_bmi_normal w h :
  pos_normal (-54) (-43) w = true -> pos_normal (-55) (-50) h = true ->
  exists h2 b,
    f_pow2 h = Some h2 /\ pos_normal (-58) (-46) h2 = true /\
    calculate_bmi w h = Some b /\ b = SFdiv 53 1024 w h2 /\
    pos_normal (-61) (-36) b = true.
Proof.
  intros Hw Hh.
  destruct (b64_pow2_pos_normal _ _ h Hh) as (h2 & E2 & Hh2); [lia..|].
  exists h2, (SFdiv 53 1024 w h2). unfold calculate_bmi.
  cbn [f_pow2 f_div b64_float]. rewrite E2. cbn [mbind option_bind].
  rewrite (b64_div_pos_normal _ _ w _ Hh2).
  split; [reflexivity|]. split; [exact Hh2|].
  split; [reflexivity|]. split; [reflexivity|].
  exact (SFdiv_pos_normal _ _ _ _ _ _ Hw Hh2 ltac:(lia) ltac:(lia)).
Qed.

Lemma SFltb_negb_leb a b c d x y :
  pos_normal a b x = true -> pos_normal c d y = true ->
  SFltb x y = negb (SFleb y x).
Proof.
  intros Hx Hy.
  apply pos_normal_inv in Hx as (mx & ex & -> & _).
  apply pos_normal_inv in Hy as (my & ey & -> & _).
  unfold SFltb, SFleb, SFcompare.
  rewrite (Z.compare_antisym ex ey).
  change (Pos.compare_cont Eq ?p ?q) with (Pos.compare p q).
  rewrite (Pos.compare_antisym mx my).
  destruct (ex ?= ey); cbn [CompOpp]; try reflexivity.
  destruct (mx ?= my)%positive; reflexivity.
Qed.

Lemma bmi_app_binary64 (u : unit_system float64) :
  binary64_values u = true -> widget_bounds u = true ->
  exists w h h2 p,
    standard_units u = Some (w, h) /\
    pos_normal (-54) (-43) w = true /\ pos_normal (-58) (-46) h2 = true /\
    bmi_app u = Some p /\
    weight_kg p = w /\
    bmi p = SFdiv 53 1024 w h2 /\
    category p = get_bmi_category (bmi p) /\
    ideal_weight_min (panel p) = SFmul 53 1024 (b64_lit 185 10) h2 /\
    ideal_weight_max (panel p) = SFmul 53 1024 (b64_of_int 25) h2 /\
    advice (panel p) =
      (if SFltb w (ideal_weight_min (panel p)) then
         ToGain (b64_sub (ideal_weight_min (panel p)) w)
       else if SFltb (ideal_weight_max (panel p)) w then
         ToLose (b64_sub w (ideal_weight_max (panel p)))
       else HealthyRange).
Proof.
  intros Hv Hb.
  destruct (standard_units_normal u Hv Hb) as (w & h & Hu & Hw & Hh).
  destruct (calculate_bmi_normal w h Hw Hh) as (h2 & b & E2 & Hh2 & Hbmi & -> & _).
  assert (Hlb : pos_normal (-54) (-54) (b64_lit 453592 1000000) = true) by by_computation.
  exists w, h, h2. unfold bmi_app, health_metrics.
  rewrite Hu. cbn [mbind option_bind]. rewrite Hbmi, E2. cbn [mbind option_bind].
  cbn [f_div f_mul f_lit f_ltb f_sub f_of_int b64_float].
  rewrite !(b64_div_pos_normal _ _ _ _ Hlb). cbn [mbind option_bind].
  destruct (is_metric u); eexists; repeat split; assumption.
Qed.

Lemma healthy_range_binary64 (u : unit_system float64) :
  binary64_values u = true -> widget_bounds u = true ->
  exists p,
    bmi_app u = Some p /\ positive (bmi p) = true /\
    (shows_healthy_range p = true <-> weight_in_ideal_range p = true).
Proof.
  intros Hv Hb.
  destruct (bmi_app_binary64 u Hv Hb)
    as (w & h & h2 & p & _ & Hw & Hh2 & Hp & Ewk & Ebmi & _ & Emin & Emax & Eadv).
  assert (H185 : pos_normal (-48) (-48) (b64_lit 185 10) = true) by by_computation.
  assert (H25 : pos_normal (-48) (-48) (b64_of_int 25) = true) by by_computation.
  pose proof (SFmul_pos_normal _ _ _ _ _ _ H185 Hh2 ltac:(lia) ltac:(lia)) as Hmin.
  pose proof (SFmul_pos_normal _ _ _ _ _ _ H25 Hh2 ltac:(lia) ltac:(lia)) as Hmax.
  rewrite <- Emin in Hmin. rewrite <- Emax in Hmax.
  exists p. split; [assumption|]. split.
  { rewrite Ebmi. eapply positive_pos_normal.
    exact (SFdiv_pos_normal _ _ _ _ _ _ Hw Hh2 ltac:(lia) ltac:(lia)). }
  unfold shows_healthy_range, weight_in_ideal_range. rewrite Eadv, Ewk.
  cbn [f_leb b64_float]. unfold b64_leb.
  rewrite (SFltb_negb_leb _ _ _ _ _ _ Hw Hmin), (SFltb_negb_leb _ _ _ _ _ _ Hmax Hw).
  destruct (SFleb (ideal_weight_min (panel p)) w);
    destruct (SFleb w (ideal_weight_max (panel p))); cbn; intuition congruence.
Qed.

(** The BMI the script computes from admitted widget values is a number. *)
Lemma computed_bmi_is_a_number (u : unit_system float64) p :
  binary64_values u = true -> widget_bounds u = true ->
  bmi_app u = Some p -> bmi p <> S754_nan.
Proof.
  intros Hv Hb Hp.
  destruct (healthy_range_binary64 u Hv Hb) as (p' & Hp' & Hpos & _).
  assert (p' = p) as -> by congruence.
  intros E. rewrite E in Hpos. discriminate.
Qed.

(** ** Exact arithmetic *)

Lemma q_div_nonzero (x y : Q) : ~ (y == 0)%Q -> q_div x y = Some (x / y)%Q.
Proof.
  intros Hy. unfold q_div.
  destruct (Qeq_bool y 0) eqn:E; [|reflexivity].
  apply Qeq_bool_iff in E. contradiction.
Qed.

Lemma q_within (lo hi x : Q) : within lo hi x = true <-> (lo <= x <= hi)%Q.
Proof.
  unfold within. cbn [f_leb q_float].
  now rewrite andb_true_iff, !Qle_bool_iff.
Qed.

Lemma standard_units_exact (v : unit_system Q) :
  widget_bounds v = true ->
  exists w h,
    standard_units v = Some (w, h) /\ (0 < w)%Q /\ (0 < h)%Q /\
    (forall weight_lbs feet inches,
       v = Imperial weight_lbs feet inches ->
       w = (weight_lbs * f_lit 453592 1000000)%Q).
Proof.
  destruct v as [weight height|weight_lbs feet inches];
    cbn [widget_bounds standard_units].
  - rewrite andb_true_iff, !q_within. intros [[Hw _] [Hh _]].
    cbn [f_lit f_div f_of_int q_float] in *.
    rewrite q_div_nonzero by discriminate. cbn [mbind option_bind].
    do 2 eexists. split; [reflexivity|]. repeat split; try discriminate.
    + eapply Qlt_le_trans; [|exact Hw]. reflexivity.
    + apply Qlt_shift_div_l; [reflexivity|].
      eapply Qlt_le_trans; [|exact Hh]. reflexivity.
  - rewrite !andb_true_iff, q_within, !Z.leb_le. intros [[[[[Hw _] ?] ?] ?] ?].
    cbn [f_lit f_mul f_of_int q_float] in *.
    do 2 eexists. split; [reflexivity|]. repeat split.
    + apply Qmult_lt_0_compat; [|reflexivity].
      eapply Qlt_le_trans; [|exact Hw]. reflexivity.
    + apply Qmult_lt_0_compat; [|reflexivity].
      unfold Qlt. cbn. lia.
    + intros ? ? ? [= <- _ _]. reflexivity.
Qed.

Lemma bmi_app_exact (v : unit_system Q) :
  widget_bounds v = true ->
  exists w h p,
    standard_units v = Some (w, h) /\ (0 < w)%Q /\ (0 < h * h)%Q /\
    bmi_app v = Some p /\
    weight_kg p = w /\
    bmi p = (w / (h * h))%Q /\
    category p = get_bmi_category (bmi p) /\
    ideal_weight_min (panel p) = (f_lit 185 10 * (h * h))%Q /\
    ideal_weight_max (panel p) = (f_of_int 25 * (h * h))%Q /\
    advice (panel p) =
      (if q_ltb w (ideal_weight_min (panel p)) then
         ToGain (ideal_weight_min (panel p) - w)%Q
       else if q_ltb (ideal_weight_max (panel p)) w then
         ToLose (w - ideal_weight_max (panel p))%Q
       else HealthyRange) /\
    (is_metric v = false ->
       current_weight (metrics (panel p)) = (w / f_lit 453592 1000000)%Q).
Proof.
  intros Hb.
  destruct (standard_units_exact v Hb) as (w & h & Hu & Hw & Hh & _).
  assert (Hh2 : (0 < h * h)%Q) by now apply Qmult_lt_0_compat.
  assert (Hne : ~ (h * h == 0)%Q).
  { intros E. rewrite E in Hh2. discriminate. }
  exists w, h. unfold bmi_app, calculate_bmi, health_metrics.
  rewrite Hu. cbn [mbind option_bind f_pow2 f_div f_mul f_ltb f_sub q_float].
  rewrite (q_div_nonzero w _ Hne). cbn [mbind option_bind].
  destruct (is_metric v) eqn:Em.
  - eexists. repeat split; try eassumption; try discriminate.
  - rewrite !q_div_nonzero by discriminate. cbn [mbind option_bind].
    eexists. repeat split; try eassumption; try discriminate.
Qed.

Lemma healthy_range_exact (v : unit_system Q) :
  widget_bounds v = true ->
  exists p,
    bmi_app v = Some p /\
    (shows_healthy_range p = true <-> weight_in_ideal_range p = true) /\
    (weight_in_ideal_range p = true <-> bmi_in_ideal_range (bmi p) = true) /\
    ((bmi p == 25)%Q ->
       shows_healthy_range p = true /\ category_name (bmi p) = "Overweight").
Proof.
  intros Hb.
  destruct (bmi_app_exact v Hb)
    as (w & h & p & _ & Hw & Hh2 & Hp & Ewk & Ebmi & _ & Emin & Emax & Eadv & _).
  exists p. split; [assumption|].
  assert (Hshow : shows_healthy_range p = true <-> weight_in_ideal_range p = true).
  { unfold shows_healthy_range, weight_in_ideal_range. rewrite Eadv, Ewk.
    cbn [f_leb q_float]. unfold q_ltb.
    destruct (Qle_bool (ideal_weight_min (panel p)) w);
      destruct (Qle_bool w (ideal_weight_max (panel p))); cbn; intuition congruence. }
  assert (Hbmi : weight_in_ideal_range p = true <-> bmi_in_ideal_range (bmi p) = true).
  { unfold weight_in_ideal_range, bmi_in_ideal_range.
    rewrite Emin, Emax, Ewk, Ebmi. cbn [f_leb f_lit f_of_int q_float].
    rewrite !andb_true_iff, !Qle_bool_iff.
    assert (E : (w == w / (h * h) * (h * h))%Q).
    { field. intros E0. rewrite E0 in Hh2. discriminate. }
    split; intros [H1 H2]; split.
    - apply Qle_shift_div_l; assumption.
    - apply Qle_shift_div_r; assumption.
    - rewrite E at 1. apply Qmult_le_compat_r; [assumption|now apply Qlt_le_weak].
    - rewrite E at 1. apply Qmult_le_compat_r; [assumption|now apply Qlt_le_weak]. }
  split; [assumption|]. split; [assumption|].
  intros E25. split.
  - apply Hshow, Hbmi. unfold bmi_in_ideal_range. cbn [f_leb f_lit f_of_int q_float].
    rewrite andb_true_iff, !Qle_bool_iff, E25. split; discriminate.
  - unfold category_name, get_bmi_category.
    cbn [f_ltb f_leb f_lit f_of_int q_float]. unfold q_ltb.
    assert (Qle_bool (inject_Z 185 / inject_Z 10) (bmi p) = true) as ->
      by (apply Qle_bool_iff; rewrite E25; discriminate).
    assert (Qle_bool (inject_Z 25) (bmi p) = true) as ->
      by (apply Qle_bool_iff; rewrite E25; discriminate).
    assert (Qle_bool (inject_Z 30) (bmi p) = false) as ->.
    { apply not_true_iff_false. rewrite Qle_bool_iff, E25. intros H; now apply H. }
    reflexivity.
Qed.


(** * The BMI calculator: claims *)

(** C1. With the widgets at 70 kg and 170 cm the script calls
    [calculate_bmi(70.0, 1.7)]; the call returns the double
    24.221453287197235, which lies between 24.15 and 24.25 (it prints as
    24.2), and [get_bmi_category] maps it to "Normal weight".  In exact
    arithmetic the quotient 70 / 1.7² is 7000/289. *)
Theorem bmi_of_70kg_170cm :
  exists bmi,
    standard_units (Metric (b64_lit 700 10) (b64_lit 1700 10))
      = Some (b64_of_int 70, b64_lit 17 10) /\
    calculate_bmi (b64_of_int 70) (b64_lit 17 10) = Some bmi /\
    bmi = S754_finite false 6817732999912084 (-48) /\
    within (b64_lit 2415 100) (b64_lit 2425 100) bmi = true /\
    get_bmi_category bmi = ("Normal weight", "🟢", "#2ecc71") /\
    (calculate_bmi (70 : Q) (17 # 10) = Some (7000 # 289))%Q.
Proof.
  eexists. split; [by vm_compute|]. split; [by vm_compute|].
  split; [by vm_compute|]. split; [by vm_compute|]. split; by vm_compute.
Qed.

Ltac settle_ranges :=
  vm_compute; repeat split; intros; first [reflexivity | discriminate].

(** C2. [get_bmi_category] is a total four-way classification of numbers:
    for every double other than NaN (infinities, zeros and subnormals
    included) the name it returns is "Underweight" exactly when
    [bmi < 18.5], "Normal weight" exactly when [18.5 <= bmi < 25],
    "Overweight" exactly when [25 <= bmi < 30] and "Obese" exactly when
    [30 <= bmi]; exactly one of the four tests holds.  The BMI the script
    passes in is always such a number ([computed_bmi_is_a_number]). *)
Theorem bmi_category_ranges (bmi : float64) :
  bmi <> S754_nan ->
  let underweight := (bmi ≺ f_lit 185 10)%py in
  let normal := ((f_lit 185 10 ≼ bmi) && (bmi ≺ f_of_int 25))%py in
  let overweight := ((f_of_int 25 ≼ bmi) && (bmi ≺ f_of_int 30))%py in
  let obese := (f_of_int 30 ≼ bmi)%py in
  (category_name bmi = "Underweight" <-> underweight = true) /\
  (category_name bmi = "Normal weight" <-> normal = true) /\
  (category_name bmi = "Overweight" <-> overweight = true) /\
  (category_name bmi = "Obese" <-> obese = true) /\
  count_true [underweight; normal; overweight; obese] = 1%nat.
Proof.
  intros Hnan.
  destruct bmi as [[]|[]| |[] m e]; try contradiction.
  1-5: settle_ranges.
  unfold category_name, get_bmi_category.
  cbn [f_ltb f_leb f_lit f_of_int b64_float].
  change (b64_lit 185 10) with (S754_finite false 5207287069147136 (-48)).
  change (b64_of_int 25) with (S754_finite false 7036874417766400 (-48)).
  change (b64_of_int 30) with (S754_finite false 8444249301319680 (-48)).
  unfold b64_ltb, b64_leb, SFltb, SFleb, SFcompare.
  rewrite (Z.compare_antisym e (-48)).
  rewrite (compare_cont_Eq_antisym m 5207287069147136).
  rewrite (compare_cont_Eq_antisym m 7036874417766400).
  rewrite (compare_cont_Eq_antisym m 8444249301319680).
  destruct (Z.compare_spec e (-48)); cbn [CompOpp]; [|settle_ranges..].
  destruct (compare_cont_Eq_spec m 5207287069147136) as [->|H1|H1].
  { settle_ranges. }
  { rewrite (compare_cont_lt m 7036874417766400), (compare_cont_lt m 8444249301319680)
      by (eapply Pos.lt_trans; [exact H1|reflexivity]).
    settle_ranges. }
  destruct (compare_cont_Eq_spec m 7036874417766400) as [->|H2|H2].
  { settle_ranges. }
  { rewrite (compare_cont_lt m 8444249301319680)
      by (eapply Pos.lt_trans; [exact H2|reflexivity]).
    settle_ranges. }
  destruct (compare_cont_Eq_spec m 8444249301319680) as [->|H3|H3];
    settle_ranges.
Qed.

Lemma bmi_category_ranges_witness :
  b64_of_int 22 <> S754_nan /\
  category_name (b64_of_int 22) = "Normal weight".
Proof.
  assert (Hnan : b64_of_int 22 <> S754_nan) by (vm_compute; discriminate).
  split; [exact Hnan|].
  destruct (bmi_category_ranges (b64_of_int 22) Hnan) as (_ & Hnormal & _).
  apply Hnormal. vm_compute. reflexivity.
Defined.

(** NaN is the one float outside the four ranges; every comparison with it
    is false, so the last branch answers. *)
Remark bmi_category_of_nan :
  category_name S754_nan = "Obese" /\ (f_of_int 30 ≼ S754_nan)%py = false.
Proof. split; reflexivity. Qed.

(** C3. For every input the widgets admit (metric: weight in [1.0, 300.0]
    and height in [50.0, 250.0]; imperial: weight in [1.0, 700.0], feet in
    [1, 8], inches in [0, 11]) the unit conversion succeeds with
    [weight_kg > 0] and [height_m > 0], the square [height_m ** 2] is a
    positive double, and [calculate_bmi] returns (no [ZeroDivisionError], no
    [OverflowError]) a BMI that is strictly positive.  All of it in
    binary64. *)
Theorem widget_bounds_make_bmi_positive (u : unit_system float64) :
  binary64_values u = true -> widget_bounds u = true ->
  exists weight_kg height_m h2 bmi,
    standard_units u = Some (weight_kg, height_m) /\
    positive weight_kg = true /\ positive height_m = true /\
    f_pow2 height_m = Some h2 /\ positive h2 = true /\
    calculate_bmi weight_kg height_m = Some bmi /\
    positive bmi = true.
Proof.
  intros Hv Hb.
  destruct (standard_units_normal u Hv Hb) as (w & h & Hu & Hw & Hh).
  destruct (calculate_bmi_normal w h Hw Hh) as (h2 & b & E2 & Hh2 & Hbmi & _ & Hpos).
  exists w, h, h2, b.
  split; [exact Hu|].
  split; [exact (positive_pos_normal _ _ _ Hw)|].
  split; [exact (positive_pos_normal _ _ _ Hh)|].
  split; [exact E2|].
  split; [exact (positive_pos_normal _ _ _ Hh2)|].
  split; [exact Hbmi|exact (positive_pos_normal _ _ _ Hpos)].
Qed.

Lemma widget_bounds_make_bmi_positive_witness :
  binary64_values (Metric (b64_lit 700 10) (b64_lit 1700 10)) = true /\
  widget_bounds (Metric (b64_lit 700 10) (b64_lit 1700 10)) = true /\
  exists weight_kg height_m h2 bmi,
    standard_units (Metric (b64_lit 700 10) (b64_lit 1700 10))
      = Some (weight_kg, height_m) /\
    positive weight_kg = true /\ positive height_m = true /\
    f_pow2 height_m = Some h2 /\ positive h2 = true /\
    calculate_bmi weight_kg height_m = Some bmi /\
    positive bmi = true.
Proof.
  assert (Hv : binary64_values (Metric (b64_lit 700 10) (b64_lit 1700 10)) = true)
    by (vm_compute; reflexivity).
  assert (Hb : widget_bounds (Metric (b64_lit 700 10) (b64_lit 1700 10)) = true)
    by (vm_compute; reflexivity).
  split; [exact Hv|]. split; [exact Hb|].
  exact (widget_bounds_make_bmi_positive _ Hv Hb).
Defined.

(** C7. [get_recommendations] is a lookup in a fixed table: whatever number
    (of whatever number type) is passed as [bmi], each of the four category
    names yields its own non-empty list, and any other string yields the
    empty list. *)
Theorem get_recommendations_static {F : Type} `{PyFloat F} (bmi : F) (category : string) :
  get_recommendations bmi category =
    if decide (category = "Underweight") then
      [ "Increase caloric intake with nutrient-dense foods";
        "Focus on strength training exercises";
        "Consult with a nutritionist for a meal plan";
        "Eat more frequent, smaller meals throughout the day" ]
    else if decide (category = "Normal weight") then
      [ "Maintain current healthy habits";
        "Continue regular physical activity";
        "Eat a balanced diet with variety";
        "Stay hydrated and get adequate sleep" ]
    else if decide (category = "Overweight") then
      [ "Gradually reduce caloric intake";
        "Increase physical activity to 150+ minutes per week";
        "Focus on whole foods and reduce processed foods";
        "Consider consulting a healthcare professional" ]
    else if decide (category = "Obese") then
      [ "Consult with a healthcare professional";
        "Create a structured weight loss plan";
        "Start with low-impact exercises like walking";
        "Consider working with a registered dietitian";
        "Set realistic, achievable goals" ]
    else [].
Proof.
  unfold get_recommendations, recommendations. cbn [list_to_map foldr uncurry].
  repeat case_decide; subst; simplify_map_eq; reflexivity.
Qed.

(** C9 as stated fails in binary64, where the weight test and the BMI are
    rounded separately.

    - 104.04 kg, 204 cm: [height_m = 2.04], [height_m ** 2 = 4.1616],
      [ideal_weight_max = 104.03999999999999], [bmi = 25.0].  The BMI is
      exactly 25, inside [18.5, 25], but [weight_kg > ideal_weight_max] and
      the panel shows "To Reach Normal BMI" with a difference of 2^-46 kg
      instead of the success message.
    - 67.24 kg, 164 cm: [height_m ** 2 = 2.6895999999999995],
      [ideal_weight_max = 67.24], [bmi = 25.000000000000004].  The success
      message is shown although the BMI is above 25. *)
Lemma healthy_range_counterexample :
  (exists p,
     binary64_values (Metric (b64_lit 10404 100) (b64_lit 2040 10)) = true /\
     widget_bounds (Metric (b64_lit 10404 100) (b64_lit 2040 10)) = true /\
     bmi_app (Metric (b64_lit 10404 100) (b64_lit 2040 10)) = Some p /\
     height_m p = b64_lit 204 100 /\
     bmi p = b64_of_int 25 /\
     bmi_in_ideal_range (bmi p) = true /\
     (ideal_weight_max (panel p) ≺ weight_kg p)%py = true /\
     advice (panel p) = ToLose (S754_finite false 4503599627370496 (-98)) /\
     shows_healthy_range p = false) /\
  (exists p,
     binary64_values (Metric (b64_lit 6724 100) (b64_lit 1640 10)) = true /\
     widget_bounds (Metric (b64_lit 6724 100) (b64_lit 1640 10)) = true /\
     bmi_app (Metric (b64_lit 6724 100) (b64_lit 1640 10)) = Some p /\
     ideal_weight_max (panel p) = b64_lit 6724 100 /\
     (f_of_int 25 ≺ bmi p)%py = true /\
     bmi_in_ideal_range (bmi p) = false /\
     shows_healthy_range p = true).
Proof.
  split; eexists; (split; [by vm_compute|]); (split; [by vm_compute|]);
    (split; [by vm_compute|]); repeat split; by vm_compute.
Qed.

(** C9, amended.  For every admitted input the script runs to the end and
    shows "You're in the healthy range!" if and only if
    [ideal_weight_min <= weight_kg <= ideal_weight_max], with the bounds as
    computed in binary64.  In exact rational arithmetic that test is
    equivalent to [18.5 <= BMI <= 25], and a BMI of exactly 25 shows the
    message while [get_bmi_category] answers "Overweight"; in binary64 this
    is what happens at 100 kg and 200 cm. *)
Theorem healthy_range_iff_weight_in_ideal_range
    (u : unit_system float64) (v : unit_system Q) :
  binary64_values u = true -> widget_bounds u = true ->
  widget_bounds v = true ->
  (exists p,
     bmi_app u = Some p /\
     (shows_healthy_range p = true <-> weight_in_ideal_range p = true)) /\
  (exists q,
     bmi_app v = Some q /\
     (shows_healthy_range q = true <-> weight_in_ideal_range q = true) /\
     (weight_in_ideal_range q = true <-> bmi_in_ideal_range (bmi q) = true) /\
     ((bmi q == 25)%Q ->
        shows_healthy_range q = true /\ category_name (bmi q) = "Overweight")) /\
  (exists p,
     bmi_app (Metric (b64_of_int 100) (b64_of_int 200)) = Some p /\
     bmi p = b64_of_int 25 /\
     shows_healthy_range p = true /\
     category_name (bmi p) = "Overweight").
Proof.
  intros Hv Hb Hq. split; [|split].
  - destruct (healthy_range_binary64 u Hv Hb) as (p & Hp & _ & Hiff). eauto.
  - apply healthy_range_exact, Hq.
  - eexists. split; [by vm_compute|]. repeat split; by vm_compute.
Qed.

Lemma healthy_range_iff_weight_in_ideal_range_witness :
  binary64_values (Metric (b64_lit 700 10) (b64_lit 1700 10)) = true /\
  widget_bounds (Metric (b64_lit 700 10) (b64_lit 1700 10)) = true /\
  widget_bounds (Metric (70 : Q) (170 : Q)) = true /\
  (exists p,
     bmi_app (Metric (b64_lit 700 10) (b64_lit 1700 10)) = Some p /\
     (shows_healthy_range p = true <-> weight_in_ideal_range p = true)) /\
  (exists q,
     bmi_app (Metric (70 : Q) (170 : Q)) = Some q /\
     (shows_healthy_range q = true <-> weight_in_ideal_range q = true) /\
     (weight_in_ideal_range q = true <-> bmi_in_ideal_range (bmi q) = true) /\
     ((bmi q == 25)%Q ->
        shows_healthy_range q = true /\ category_name (bmi q) = "Overweight")).
Proof.
  assert (Hv : binary64_values (Metric (b64_lit 700 10) (b64_lit 1700 10)) = true)
    by (vm_compute; reflexivity).
  assert (Hb : widget_bounds (Metric (b64_lit 700 10) (b64_lit 1700 10)) = true)
    by (vm_compute; reflexivity).
  assert (Hq : widget_bounds (Metric (70 : Q) (170 : Q)) = true)
    by (vm_compute; reflexivity).
  split; [exact Hv|]. split; [exact Hb|]. split; [exact Hq|].
  destruct (healthy_range_iff_weight_in_ideal_range _ _ Hv Hb Hq) as (H1 & H2 & _).
  split; [exact H1|exact H2].
Defined.

(** C10. In imperial mode, over exact rational arithmetic, the weight shown
    as "Current Weight" is the weight entered: the script computes
    [weight_kg = weight_lbs * 0.453592] and displays
    [weight_kg / 0.453592], which equals [weight_lbs] for every admitted
    input. *)
Theorem imperial_weight_round_trip
    (weight_lbs : Q) (height_feet height_inches : Z) :
  widget_bounds (Imperial weight_lbs height_feet height_inches) = true ->
  exists p,
    bmi_app (Imperial weight_lbs height_feet height_inches) = Some p /\
    (weight_kg p == weight_lbs * (453592 # 1000000))%Q /\
    (current_weight (metrics (panel p)) == weight_lbs)%Q.
Proof.
  intros Hb.
  destruct (bmi_app_exact _ Hb)
    as (w & h & p & Hu & _ & _ & Hp & Ewk & _ & _ & _ & _ & _ & Ecur).
  destruct (standard_units_exact _ Hb) as (w' & h' & Hu' & _ & _ & Ew).
  assert (w = weight_lbs * f_lit 453592 1000000)%Q as Hw.
  { rewrite <- (Ew _ _ _ eq_refl). congruence. }
  exists p. split; [assumption|]. split.
  - rewrite Ewk, Hw. reflexivity.
  - rewrite (Ecur eq_refl), Hw. cbn [f_lit q_float]. field.
Qed.

Lemma imperial_weight_round_trip_witness :
  widget_bounds (Imperial (154 : Q) 5 7) = true /\
  exists p,
    bmi_app (Imperial (154 : Q) 5 7) = Some p /\
    (weight_kg p == 154 * (453592 # 1000000))%Q /\
    (current_weight (metrics (panel p)) == 154)%Q.
Proof.
  assert (Hb : widget_bounds (Imperial (154 : Q) 5 7) = true)
    by (vm_compute; reflexivity).
  split; [exact Hb|].
  exact (imperial_weight_round_trip 154 5 7 Hb).
Defined.

(** Without the proviso of exact arithmetic the identity fails: in binary64,
    4.5 lbs comes back as 4.500000000000001. *)
Remark imperial_round_trip_rounds_in_binary64 :
  exists p,
    widget_bounds (Imperial (b64_lit 45 10) 5 7) = true /\
    bmi_app (Imperial (b64_lit 45 10) 5 7) = Some p /\
    current_weight (metrics (panel p)) <> b64_lit 45 10.
Proof.
  eexists. split; [by vm_compute|]. split; [by vm_compute|].
  vm_compute. discriminate.
Qed.

(** * Further properties of the BMI page *)


(** The marker sits on the bar whose colour is the colour of the category
    box, and only the label of the second bar differs from the category
    name. *)
Theorem marker_on_bar_of_category (bmi : float64) :
  exists label,
    scale_bars !! x_pos bmi = Some (label, (get_bmi_category bmi).2) /\
    (label = category_name bmi \/
     label = "Normal" /\ category_name bmi = "Normal weight").
Proof.
  unfold x_pos, category_name, get_bmi_category.
  cbn [f_ltb f_leb f_lit f_of_int b64_float]. unfold b64_ltb, b64_leb.
  change (b64_lit 185 10) with (S754_finite false 5207287069147136 (-48)).
  change (b64_of_int 25) with (S754_finite false 7036874417766400 (-48)).
  change (b64_of_int 30) with (S754_finite false 8444249301319680 (-48)).
  set (c185 := S754_finite false 5207287069147136 (-48)).
  set (c25 := S754_finite false 7036874417766400 (-48)).
  set (c30 := S754_finite false 8444249301319680 (-48)).
  assert (H2 : SFltb bmi c185 = false -> SFltb bmi c25 = true ->
               SFleb c185 bmi = true).
  { unfold c185, c25, SFltb, SFleb, SFcompare.
    destruct bmi as [[]|[]| |[] m e]; try discriminate; try reflexivity.
    rewrite (Z.compare_antisym e (-48)).
    rewrite (compare_cont_Eq_antisym m 5207287069147136).
    destruct (Z.compare_spec e (-48)); cbn [CompOpp]; try discriminate; try reflexivity.
    destruct (compare_cont_Eq_spec m 5207287069147136); cbn [CompOpp];
      try discriminate; reflexivity. }
  assert (H3 : SFltb bmi c25 = false -> SFltb bmi c30 = true ->
               SFleb c25 bmi = true).
  { unfold c25, c30, SFltb, SFleb, SFcompare.
    destruct bmi as [[]|[]| |[] m e]; try discriminate; try reflexivity.
    rewrite (Z.compare_antisym e (-48)).
    rewrite (compare_cont_Eq_antisym m 7036874417766400).
    destruct (Z.compare_spec e (-48)); cbn [CompOpp]; try discriminate; try reflexivity.
    destruct (compare_cont_Eq_spec m 7036874417766400); cbn [CompOpp];
      try discriminate; reflexivity. }
  destruct (SFltb bmi c185) eqn:E1.
  { eexists. split; [reflexivity|]. now left. }
  destruct (SFltb bmi c25) eqn:E2.
  { rewrite (H2 eq_refl eq_refl). eexists. split; [reflexivity|]. right. now split. }
  rewrite andb_false_r.
  destruct (SFltb bmi c30) eqn:E3.
  { rewrite (H3 eq_refl eq_refl). eexists. split; [reflexivity|]. now left. }
  rewrite andb_false_r. eexists. split; [reflexivity|]. now left.
Qed.

(** For every admitted input the marker lies strictly inside the plotted
    range of the y axis, [0, 40], and never above 35. *)
Theorem marker_inside_axis (u : unit_system float64) :
  binary64_values u = true -> widget_bounds u = true ->
  exists p,
    bmi_app u = Some p /\
    inside_yaxis (marker_y (bmi p)) = true /\
    (marker_y (bmi p) ≼ f_of_int 35)%py = true.
Proof.
  intros Hv Hb.
  destruct (healthy_range_binary64 u Hv Hb) as (p & Hp & Hpos & _).
  exists p. split; [exact Hp|].
  unfold inside_yaxis, marker_y, positive in *.
  cbn [f_ltb f_leb f_of_int b64_float yaxis_range fst snd] in *.
  unfold b64_ltb, b64_leb in *.
  change (b64_of_int 35) with (S754_finite false 4925812092436480 (-47)).
  change (b64_of_int 40) with (S754_finite false 5629499534213120 (-47)).
  destruct (SFltb (bmi p) (S754_finite false 4925812092436480 (-47))) eqn:E.
  - rewrite Hpos, andb_true_l. split.
    + revert E. unfold SFltb, SFcompare.
      destruct (bmi p) as [[]|[]| |[] m e]; try discriminate; try reflexivity.
      destruct (Z.compare_spec e (-47)); try discriminate; try reflexivity.
      destruct (compare_cont_Eq_spec m 4925812092436480) as [->|Hlt|Hlt];
        try discriminate. intros _.
      rewrite (compare_cont_lt m 5629499534213120); [reflexivity|].
      eapply Pos.lt_trans; [exact Hlt|reflexivity].
    + unfold SFltb in E. unfold SFleb.
      destruct (SFcompare (bmi p) _) as [[]|]; try discriminate; reflexivity.
  - split; reflexivity.
Qed.

Lemma marker_inside_axis_witness :
  binary64_values (Metric (b64_lit 700 10) (b64_lit 1700 10)) = true /\
  widget_bounds (Metric (b64_lit 700 10) (b64_lit 1700 10)) = true /\
  exists p,
    bmi_app (Metric (b64_lit 700 10) (b64_lit 1700 10)) = Some p /\
    inside_yaxis (marker_y (bmi p)) = true /\
    (marker_y (bmi p) ≼ f_of_int 35)%py = true.
Proof.
  assert (Hv : binary64_values (Metric (b64_lit 700 10) (b64_lit 1700 10)) = true)
    by (vm_compute; reflexivity).
  assert (Hb : widget_bounds (Metric (b64_lit 700 10) (b64_lit 1700 10)) = true)
    by (vm_compute; reflexivity).
  split; [exact Hv|]. split; [exact Hb|].
  exact (marker_inside_axis _ Hv Hb).
Defined.

(** Whatever the BMI, the script finds the recommendations of its category
    in the dict: the empty default of [recommendations.get] is never used,
    and the page lists four or five action items. *)
Theorem action_items_never_empty {F : Type} `{PyFloat F} (u : unit_system F) (p : page F) :
  bmi_app u = Some p ->
  recommendations !! category_name (bmi p) = Some (action_items p) /\
  (4 <= length (action_items p) <= 5)%nat.
Proof.
  unfold bmi_app. intros Hp.
  destruct (standard_units u) as [[w h]|]; [|discriminate].
  cbn [mbind option_bind] in Hp.
  destruct (calculate_bmi w h) as [b|]; [|discriminate].
  cbn [mbind option_bind] in Hp.
  destruct (health_metrics u w h) as [hp|]; [|discriminate].
  cbn [mbind option_bind] in Hp. injection Hp as <-.
  cbn [action_items bmi]. unfold category_name, get_bmi_category.
  destruct (f_ltb b (f_lit 185 10)); [split; [reflexivity|vm_compute; lia]|].
  destruct (f_leb (f_lit 185 10) b && f_ltb b (f_of_int 25));
    [split; [reflexivity|vm_compute; lia]|].
  destruct (f_leb (f_of_int 25) b && f_ltb b (f_of_int 30));
    split; try reflexivity; vm_compute; lia.
Qed.

Lemma action_items_never_empty_witness :
  exists p,
    bmi_app (Metric (b64_lit 700 10) (b64_lit 1700 10)) = Some p /\
    recommendations !! category_name (bmi p) = Some (action_items p) /\
    (4 <= length (action_items p) <= 5)%nat.
Proof.
  eexists. split; [vm_compute; reflexivity|].
  apply (action_items_never_empty (Metric (b64_lit 700 10) (b64_lit 1700 10))).
  vm_compute. reflexivity.
Defined.

(** * The binary64 run against exact arithmetic *)

(** ** Rounding to 53 bits, with the error it makes *)


Lemma binary_round_aux_bracket sx mx ex lx :
  0 < mx -> 53 <= Zdigits2 mx ->
  -1074 <= ex + Zdigits2 mx - 53 -> ex + Zdigits2 mx - 52 <= 971 ->
  exists m e,
    binary_round_aux 53 1024 sx mx ex lx = S754_finite sx m e /\
    digits2_pos m = 53%positive /\
    ex + Zdigits2 mx - 53 <= e <= ex + Zdigits2 mx - 52 /\
    (Z.pos m - 1) * 2 ^ (e - ex) <= mx /\
    mx + 1 <= (Z.pos m + 1) * 2 ^ (e - ex).
Proof.
  intros Hmx Hd Hlo Hhi.
  pose proof (Zdigits2_bounds mx Hmx) as [Hb1 Hb2].
  unfold binary_round_aux.
  destruct (shr_fexp_normal mx ex lx Hmx Hd Hlo) as (r1 & -> & Hr1).
  remember (Zdigits2 mx) as d eqn:Ed.
  remember (round_nearest_even (shr_m r1) (loc_of_shr_record r1)) as m2 eqn:Em.
  assert (Hp : 0 < 2 ^ (d - 53)) by (apply Z.pow_pos_nonneg; lia).
  assert (E1 : 2 ^ (d - 1) = 2 ^ 52 * 2 ^ (d - 53)).
  { rewrite <- Z.pow_add_r by lia. f_equal. lia. }
  assert (E2 : 2 ^ d = 2 ^ 53 * 2 ^ (d - 53)).
  { rewrite <- Z.pow_add_r by lia. f_equal. lia. }
  assert (E3 : 2 ^ (d - 52) = 2 * 2 ^ (d - 53)).
  { replace (d - 52) with (Z.succ (d - 53)) by lia. apply Z.pow_succ_r. lia. }
  assert (Hm1 : 2 ^ 52 <= shr_m r1 < 2 ^ 53).
  { rewrite Hr1. split.
    - apply Z.div_le_lower_bound; [assumption|]. lia.
    - apply Z.div_lt_upper_bound; [assumption|]. lia. }
  assert (Hq : shr_m r1 * 2 ^ (d - 53) <= mx < (shr_m r1 + 1) * 2 ^ (d - 53)).
  { rewrite Hr1. split.
    - rewrite Z.mul_comm. apply Z.mul_div_le. assumption.
    - rewrite Z.mul_comm. apply Z.mul_succ_div_gt. assumption. }
  pose proof (round_nearest_even_bounds (shr_m r1) (loc_of_shr_record r1)) as Hm2.
  rewrite <- Em in Hm2.
  assert (Hm2pos : 0 < m2) by lia.
  destruct (Z.lt_ge_cases m2 (2 ^ 53)) as [Hlt|Hge].
  - assert (Hd2 : Zdigits2 m2 = 53) by (apply Zdigits2_unique; lia).
    destruct (shr_fexp_normal m2 (ex + d - 53) loc_Exact) as (r2 & -> & Hr2);
      rewrite ?Hd2; try lia.
    rewrite Hd2 in Hr2. change (2 ^ (53 - 53)) with 1 in Hr2.
    rewrite Z.div_1_r in Hr2. rewrite Hr2.
    destruct m2 as [|p|p] eqn:Ep; try lia.
    replace (ex + d - 53 + 53 - 53 <=? 1024 - 53) with true
      by (symmetry; apply Z.leb_le; lia).
    exists p, (ex + d - 53 + 53 - 53). split; [reflexivity|].
    split; [cbn [Zdigits2] in Hd2; congruence|].
    split; [lia|].
    replace (ex + d - 53 + 53 - 53 - ex) with (d - 53) by lia.
    split; nia.
  - assert (Em2 : m2 = 2 ^ 53) by lia.
    assert (Hd2 : Zdigits2 m2 = 54) by (rewrite Em2; reflexivity).
    destruct (shr_fexp_normal m2 (ex + d - 53) loc_Exact) as (r2 & -> & Hr2);
      rewrite ?Hd2; try lia.
    rewrite Hd2, Em2 in Hr2. change (2 ^ 53 / 2 ^ (54 - 53)) with (Z.pos (2 ^ 52)) in Hr2.
    rewrite Hr2.
    replace (ex + d - 53 + 54 - 53 <=? 1024 - 53) with true
      by (symmetry; apply Z.leb_le; lia).
    exists (2 ^ 52)%positive, (ex + d - 53 + 54 - 53). split; [reflexivity|].
    split; [reflexivity|]. split; [lia|].
    replace (ex + d - 53 + 54 - 53 - ex) with (d - 52) by lia.
    rewrite E3.
    change (Z.pos (2 ^ 52)) with (2 ^ 52).
    assert (Hs : shr_m r1 = 2 ^ 53 - 1) by lia.
    rewrite Hs in Hq.
    change (2 ^ 53 - 1 + 1) with (2 ^ 53) in Hq.
    split; nia.
Qed.



Local Open Scope Q_scope.

Lemma pow2_Q_pos e : 0 < 2 ^ e.
Proof. apply Qpower.Qpower_0_lt. reflexivity. Qed.

Lemma pow2_Q_add a b : 2 ^ (a + b) == 2 ^ a * 2 ^ b.
Proof. apply Qpower.Qpower_plus. discriminate. Qed.

Lemma pow2_Q_of_Z n : (0 <= n)%Z -> 2 ^ n == inject_Z (2 ^ n).
Proof. intros Hn. symmetry. exact (Qpower.Zpower_Qpower 2 n Hn). Qed.

Lemma ulp_ratio_significand m :
  (2 ^ 52 <= Z.pos m)%Z -> 1 <= inject_Z (Z.pos m) * ulp_ratio.
Proof.
  intros Hm. unfold ulp_ratio, Qle, Qmult, inject_Z. cbn [Qnum Qden].
  change (2 ^ 52)%Z with 4503599627370496%Z in Hm. lia.
Qed.

Lemma bracket_rounds_to m e mx ex v :
  (2 ^ 52 <= Z.pos m)%Z -> (ex <= e)%Z ->
  ((Z.pos m - 1) * 2 ^ (e - ex) <= mx)%Z ->
  (mx + 1 <= (Z.pos m + 1) * 2 ^ (e - ex))%Z ->
  inject_Z mx * 2 ^ ex <= v <= inject_Z (mx + 1) * 2 ^ ex ->
  rounds_to v (inject_Z (Z.pos m) * 2 ^ e).
Proof.
  intros Hm He Hlo Hhi [Hv1 Hv2].
  pose proof (ulp_ratio_significand m Hm) as Hu.
  pose proof (pow2_Q_pos ex) as HP.
  assert (HK : 0 < inject_Z (2 ^ (e - ex))).
  { rewrite <- pow2_Q_of_Z by lia. apply pow2_Q_pos. }
  assert (E : 2 ^ e == inject_Z (2 ^ (e - ex)) * 2 ^ ex).
  { rewrite <- pow2_Q_of_Z, <- pow2_Q_add by lia. now replace (e - ex + ex)%Z with e by lia. }
  change (Z.pos m - 1)%Z with (Z.pos m + -1)%Z in Hlo.
  rewrite Zle_Qle in Hlo, Hhi.
  rewrite !inject_Z_mult, !inject_Z_plus in Hhi.
  rewrite inject_Z_mult, inject_Z_plus in Hlo.
  rewrite inject_Z_plus in Hv2.
  unfold rounds_to. rewrite E.
  set (M := inject_Z (Z.pos m)) in *. set (K := inject_Z (2 ^ (e - ex))) in *.
  set (P := 2 ^ ex) in *. set (X := inject_Z mx) in *.
  change (inject_Z 1) with 1 in *. change (inject_Z (-1)) with (-1 # 1) in *.
  assert (HKP : 0 < K * P) by now apply Qmult_lt_0_compat.
  assert (H1 : K * P <= M * ulp_ratio * (K * P)).
  { rewrite <- (Qmult_1_l (K * P)) at 1. apply Qmult_le_compat_r; [exact Hu|lra]. }
  assert (H2 : (M + (-1 # 1)) * K * P <= X * P).
  { apply Qmult_le_compat_r; [exact Hlo|lra]. }
  assert (H3 : (X + 1) * P <= (M + 1) * K * P).
  { apply Qmult_le_compat_r; [exact Hhi|lra]. }
  split; nra.
Qed.


Lemma pos_normal_value lo hi x :
  pos_normal lo hi x = true ->
  exists m e, x = S754_finite false m e /\
    (2 ^ 52 <= Z.pos m < 2 ^ 53)%Z /\ (lo <= e <= hi)%Z /\
    b64_value x = inject_Z (Z.pos m) * 2 ^ e /\ 0 < b64_value x.
Proof.
  intros Hx. apply pos_normal_inv in Hx as (m & e & -> & Hm & He).
  exists m, e. repeat split; try lia.
  cbn [b64_value]. apply Qmult_lt_0_compat; [reflexivity|apply pow2_Q_pos].
Qed.

Lemma SFmul_rounds a b c d x y :
  pos_normal a b x = true -> pos_normal c d y = true ->
  (-1074 <= a + c + 52)%Z -> (b + d + 54 <= 971)%Z ->
  rounds_to (b64_value x * b64_value y) (b64_value (SFmul 53 1024 x y)).
Proof.
  intros Hx Hy Hlo Hhi.
  apply pos_normal_value in Hx as (mx & ex & -> & Hmx & Hex & -> & _).
  apply pos_normal_value in Hy as (my & ey & -> & Hmy & Hey & -> & _).
  cbn [SFmul xorb].
  assert (Hprod : (2 ^ 104 <= Z.pos (mx * my) < 2 ^ 106)%Z).
  { rewrite Pos2Z.inj_mul.
    change (2 ^ 104)%Z with (2 ^ 52 * 2 ^ 52)%Z.
    change (2 ^ 106)%Z with (2 ^ 53 * 2 ^ 53)%Z.
    nia. }
  assert (Hdig : Zdigits2 (Z.pos (mx * my)) = 105%Z \/ Zdigits2 (Z.pos (mx * my)) = 106%Z).
  { destruct (Z.lt_ge_cases (Z.pos (mx * my)) (2 ^ 105)).
    - left. apply Zdigits2_unique; [lia|]. split; [apply Hprod|assumption].
    - right. apply Zdigits2_unique; [lia|]. split; [assumption|apply Hprod]. }
  destruct (binary_round_aux_bracket false (Z.pos (mx * my)) (ex + ey) loc_Exact)
    as (m & e & -> & Hm & He & Hb1 & Hb2); try lia.
  cbn [b64_value].
  pose proof (digits2_pos_bounds m) as Hmb. rewrite Hm in Hmb.
  apply (bracket_rounds_to m e (Z.pos (mx * my)) (ex + ey)); try lia.
  assert (E : inject_Z (Z.pos mx) * 2 ^ ex * (inject_Z (Z.pos my) * 2 ^ ey)
              == inject_Z (Z.pos (mx * my)) * 2 ^ (ex + ey)).
  { rewrite Pos2Z.inj_mul, inject_Z_mult, pow2_Q_add. ring. }
  rewrite E. split; [apply Qle_refl|].
  apply Qmult_le_compat_r; [|apply Qlt_le_weak, pow2_Q_pos].
  rewrite <- Zle_Qle. lia.
Qed.

Lemma SFdiv_rounds a b c d x y :
  pos_normal a b x = true -> pos_normal c d y = true ->
  (-1074 <= a - d - 53)%Z -> (b - c - 51 <= 971)%Z ->
  rounds_to (b64_value x / b64_value y) (b64_value (SFdiv 53 1024 x y)).
Proof.
  intros Hx Hy Hlo Hhi.
  apply pos_normal_value in Hx as (mx & ex & -> & Hmx & Hex & -> & _).
  apply pos_normal_value in Hy as (my & ey & -> & Hmy & Hey & -> & Hypos).
  cbn [SFdiv xorb]. unfold SFdiv_core_binary.
  assert (Hdx : Zdigits2 (Z.pos mx) = 53%Z) by (apply Zdigits2_unique; lia).
  assert (Hdy : Zdigits2 (Z.pos my) = 53%Z) by (apply Zdigits2_unique; lia).
  rewrite Hdx, Hdy. unfold fexp, emin.
  replace (Z.min (Z.max (53 + ex - (53 + ey) - 53) (3 - 1024 - 53)) (ex - ey))
    with (ex - ey - 53)%Z by lia.
  replace (ex - ey - (ex - ey - 53))%Z with 53%Z by lia.
  cbv iota. rewrite Z.shiftl_mul_pow2 by lia.
  pose proof (Z.div_eucl_eq (Z.pos mx * 2 ^ 53) (Z.pos my)) as Hq.
  pose proof (Z.mod_pos_bound (Z.pos mx * 2 ^ 53) (Z.pos my)) as Hr.
  unfold Z.modulo in Hr.
  destruct (Z.div_eucl (Z.pos mx * 2 ^ 53) (Z.pos my)) as [q r].
  specialize (Hq ltac:(lia)). specialize (Hr ltac:(lia)).
  assert (Hqb : (2 ^ 52 <= q < 2 ^ 54)%Z).
  { change (2 ^ 54)%Z with (4 * 2 ^ 52)%Z.
    change (2 ^ 53)%Z with (2 * 2 ^ 52)%Z in Hq, Hmx, Hmy.
    nia. }
  assert (Hdig : Zdigits2 q = 53%Z \/ Zdigits2 q = 54%Z).
  { destruct (Z.lt_ge_cases q (2 ^ 53)).
    - left. apply Zdigits2_unique; [lia|]. split; [apply Hqb|assumption].
    - right. apply Zdigits2_unique; [lia|]. split; [assumption|apply Hqb]. }
  destruct (binary_round_aux_bracket false q (ex - ey - 53) (new_location (Z.pos my) r))
    as (m & e & -> & Hm & He & Hb1 & Hb2); try lia.
  cbn [b64_value].
  pose proof (digits2_pos_bounds m) as Hmb. rewrite Hm in Hmb.
  apply (bracket_rounds_to m e q (ex - ey - 53)); try lia.
  pose proof (pow2_Q_pos ey) as Hpy. pose proof (pow2_Q_pos (ex - ey - 53)) as Hpd.
  assert (HMY : 0 < inject_Z (Z.pos my)) by reflexivity.
  assert (E : inject_Z (Z.pos mx) * 2 ^ ex / (inject_Z (Z.pos my) * 2 ^ ey)
              == inject_Z (Z.pos mx * 2 ^ 53) / inject_Z (Z.pos my) * 2 ^ (ex - ey - 53)).
  { replace ex with ((ex - ey - 53) + 53 + ey)%Z at 1 by lia.
    rewrite !pow2_Q_add, inject_Z_mult, (pow2_Q_of_Z 53) by lia.
    field. split; lra. }
  rewrite E. split.
  - apply Qmult_le_compat_r; [|lra].
    apply Qle_shift_div_l; [exact HMY|].
    rewrite <- inject_Z_mult, <- Zle_Qle. lia.
  - apply Qmult_le_compat_r; [|lra].
    apply Qle_shift_div_r; [exact HMY|].
    rewrite <- inject_Z_mult, <- Zle_Qle. lia.
Qed.


(** ** The order of doubles is the order of their values *)

Lemma value_lt_exponent m1 e1 m2 e2 :
  (Z.pos m1 < 2 ^ 53)%Z -> (2 ^ 52 <= Z.pos m2)%Z -> (e1 < e2)%Z ->
  inject_Z (Z.pos m1) * 2 ^ e1 < inject_Z (Z.pos m2) * 2 ^ e2.
Proof.
  intros H1 H2 He.
  pose proof (pow2_Q_pos e1) as Hp1.
  assert (E : 2 ^ e2 == inject_Z (2 ^ (e2 - e1)) * 2 ^ e1).
  { rewrite <- pow2_Q_of_Z, <- pow2_Q_add by lia.
    now replace (e2 - e1 + e1)%Z with e2 by lia. }
  rewrite E, Qmult_assoc, <- inject_Z_mult.
  apply Qmult_lt_compat_r; [exact Hp1|].
  rewrite <- Zlt_Qlt.
  assert (2 ^ 1 <= 2 ^ (e2 - e1))%Z by (apply Z.pow_le_mono_r; lia).
  change (2 ^ 1)%Z with 2%Z in *.
  change (2 ^ 53)%Z with (2 * 2 ^ 52)%Z in H1. nia.
Qed.

Lemma value_compare a b c d x y :
  pos_normal a b x = true -> pos_normal c d y = true ->
  match SFcompare x y with
  | Some Lt => b64_value x < b64_value y
  | Some Eq => b64_value x == b64_value y
  | Some Gt => b64_value y < b64_value x
  | None => False
  end.
Proof.
  intros Hx Hy.
  apply pos_normal_value in Hx as (mx & ex & -> & Hmx & Hex & -> & _).
  apply pos_normal_value in Hy as (my & ey & -> & Hmy & Hey & -> & _).
  cbn [SFcompare].
  destruct (Z.compare_spec ex ey) as [->|Hlt|Hgt].
  - pose proof (pow2_Q_pos ey) as Hp.
    destruct (compare_cont_Eq_spec mx my) as [->|Hlt|Hgt].
    + reflexivity.
    + apply Qmult_lt_compat_r; [exact Hp|]. rewrite <- Zlt_Qlt. lia.
    + apply Qmult_lt_compat_r; [exact Hp|]. rewrite <- Zlt_Qlt. lia.
  - apply value_lt_exponent; lia.
  - apply value_lt_exponent; lia.
Qed.

Lemma SFltb_value a b c d x y :
  pos_normal a b x = true -> pos_normal c d y = true ->
  SFltb x y = true <-> b64_value x < b64_value y.
Proof.
  intros Hx Hy. pose proof (value_compare a b c d x y Hx Hy) as H.
  unfold SFltb. destruct (SFcompare x y) as [[]|]; try contradiction.
  - split; [discriminate|]. intros Hlt. rewrite H in Hlt. now apply Qlt_irrefl in Hlt.
  - split; [now intros _|reflexivity].
  - split; [discriminate|]. intros Hlt. exfalso.
    apply (Qlt_irrefl (b64_value x)). now apply Qlt_trans with (b64_value y).
Qed.

Lemma SFleb_value a b c d x y :
  pos_normal a b x = true -> pos_normal c d y = true ->
  SFleb x y = true <-> b64_value x <= b64_value y.
Proof.
  intros Hx Hy. pose proof (value_compare a b c d x y Hx Hy) as H.
  unfold SFleb. destruct (SFcompare x y) as [[]|]; try contradiction.
  - split; [intros _|reflexivity]. rewrite H. apply Qle_refl.
  - split; [intros _|reflexivity]. now apply Qlt_le_weak.
  - split; [discriminate|]. intros Hle. exfalso.
    apply (Qlt_irrefl (b64_value x)). now apply Qle_lt_trans with (b64_value y).
Qed.


(** ** Error propagation *)


Lemma within_factor_exact x : within_factor 1 1 x x.
Proof. unfold within_factor. split; lra. Qed.

Lemma within_factor_eq lo hi x x' v v' :
  x == x' -> v == v' -> within_factor lo hi x v -> within_factor lo hi x' v'.
Proof. unfold within_factor. intros -> ->. auto. Qed.

Lemma within_factor_pos lo hi x v :
  0 < lo -> 0 < x -> within_factor lo hi x v -> 0 < v.
Proof.
  unfold within_factor. intros Hlo Hx [H _].
  eapply Qlt_le_trans; [|exact H]. now apply Qmult_lt_0_compat.
Qed.

Lemma within_factor_mul l1 h1 x1 v1 l2 h2 x2 v2 :
  0 < l1 -> 0 < l2 -> 0 < x1 -> 0 < x2 ->
  within_factor l1 h1 x1 v1 -> within_factor l2 h2 x2 v2 ->
  within_factor (l1 * l2) (h1 * h2) (x1 * x2) (v1 * v2).
Proof.
  unfold within_factor. intros Hl1 Hl2 Hx1 Hx2 [A1 B1] [A2 B2].
  assert (0 < l1 * x1) by now apply Qmult_lt_0_compat.
  assert (0 < l2 * x2) by now apply Qmult_lt_0_compat.
  split.
  - setoid_replace (l1 * l2 * (x1 * x2)) with ((l1 * x1) * (l2 * x2)) using relation Qeq by ring.
    apply Qle_trans with (l1 * x1 * v2).
    + apply Qmult_le_l; [assumption|assumption].
    + apply Qmult_le_compat_r; [assumption|lra].
  - setoid_replace (h1 * h2 * (x1 * x2)) with ((h1 * x1) * (h2 * x2)) using relation Qeq by ring.
    apply Qle_trans with (v1 * (h2 * x2)).
    + apply Qmult_le_l; [lra|assumption].
    + apply Qmult_le_compat_r; [assumption|lra].
Qed.

Lemma within_factor_div l1 h1 x1 v1 l2 h2 x2 v2 :
  0 < l1 -> 0 < l2 -> 0 < x1 -> 0 < x2 ->
  within_factor l1 h1 x1 v1 -> within_factor l2 h2 x2 v2 ->
  within_factor (l1 / h2) (h1 / l2) (x1 / x2) (v1 / v2).
Proof.
  unfold within_factor. intros Hl1 Hl2 Hx1 Hx2 [A1 B1] [A2 B2].
  assert (Hlx1 : 0 < l1 * x1) by now apply Qmult_lt_0_compat.
  assert (Hlx2 : 0 < l2 * x2) by now apply Qmult_lt_0_compat.
  assert (Hv2 : 0 < v2) by lra.
  assert (Hhx2 : 0 < h2 * x2) by lra.
  assert (Hh2 : 0 < h2).
  { destruct (Qlt_le_dec 0 h2) as [|Hneg]; [assumption|exfalso].
    assert (h2 * x2 <= 0 * x2) by (apply Qmult_le_compat_r; lra). lra. }
  split.
  - setoid_replace (l1 / h2 * (x1 / x2)) with ((l1 * x1) / (h2 * x2))
      using relation Qeq by (field; split; lra).
    apply Qle_shift_div_r; [assumption|].
    setoid_replace (v1 / v2 * (h2 * x2)) with (v1 * ((h2 * x2) / v2))
      using relation Qeq by (field; lra).
    apply Qle_trans with (v1 * 1); [lra|].
    apply Qmult_le_l; [lra|].
    apply Qle_shift_div_l; [assumption|lra].
  - setoid_replace (h1 / l2 * (x1 / x2)) with ((h1 * x1) / (l2 * x2))
      using relation Qeq by (field; split; lra).
    apply Qle_shift_div_l; [assumption|].
    setoid_replace (v1 / v2 * (l2 * x2)) with (v1 * ((l2 * x2) / v2))
      using relation Qeq by (field; lra).
    apply Qle_trans with (v1 * 1); [|lra].
    apply Qmult_le_l; [lra|].
    apply Qle_shift_div_r; [assumption|lra].
Qed.

Lemma within_factor_round lo hi x v r :
  0 < lo -> 0 < x -> within_factor lo hi x v -> rounds_to v r ->
  within_factor (lo / (1 + ulp_ratio)) (hi / (1 - ulp_ratio)) x r.
Proof.
  unfold within_factor, rounds_to. intros Hlo Hx [A B] [C D].
  assert (Hc : 0 < 1 + ulp_ratio) by reflexivity.
  assert (Ha : 0 < 1 - ulp_ratio) by reflexivity.
  split.
  - setoid_replace (lo / (1 + ulp_ratio) * x) with (lo * x / (1 + ulp_ratio))
      using relation Qeq by (field; lra).
    apply Qle_shift_div_r; [assumption|lra].
  - setoid_replace (hi / (1 - ulp_ratio) * x) with (hi * x / (1 - ulp_ratio))
      using relation Qeq by (field; lra).
    apply Qle_shift_div_l; [assumption|lra].
Qed.

Lemma within_factor_weaken lo hi lo' hi' x v :
  0 < x -> lo' <= lo -> hi <= hi' ->
  within_factor lo hi x v -> within_factor lo' hi' x v.
Proof.
  unfold within_factor. intros Hx Hlo Hhi [A B]. split.
  - apply Qle_trans with (lo * x); [|assumption].
    apply Qmult_le_compat_r; lra.
  - apply Qle_trans with (hi * x); [assumption|].
    apply Qmult_le_compat_r; lra.
Qed.


(** ** Both runs on the same widget values *)



Ltac closed_Qle := apply Qle_bool_imp_le; vm_compute; reflexivity.
Ltac closed_Qlt := vm_compute; reflexivity.

Lemma b64_of_int_feet_inches_value n :
  (12 <= n <= 107)%Z -> b64_value (b64_of_int n) == inject_Z n.
Proof.
  intros Hn.
  assert (Hall : forallb (fun k => Qeq_bool (b64_value (b64_of_int k)) (inject_Z k))
                   (seqZ 12 96) = true) by (vm_compute; reflexivity).
  rewrite forallb_forall in Hall. apply Qeq_bool_eq, Hall.
  apply list_elem_of_In, elem_of_seqZ. lia.
Qed.

Lemma within_ulps_round k lo hi x v r :
  0 < lo -> 0 < x ->
  1 - inject_Z k * ulp_ratio <= lo / (1 + ulp_ratio) ->
  hi / (1 - ulp_ratio) <= 1 + inject_Z k * ulp_ratio ->
  within_factor lo hi x v -> rounds_to v r -> within_ulps k x r.
Proof.
  intros Hlo Hx H1 H2 Hv Hr. unfold within_ulps.
  eapply within_factor_weaken; [exact Hx|exact H1|exact H2|].
  now apply within_factor_round with v.
Qed.

Lemma within_ulps_pos k x v :
  (0 <= k <= 1000)%Z -> 0 < x -> within_ulps k x v -> 0 < v.
Proof.
  intros Hk Hx. apply within_factor_pos; [|exact Hx].
  unfold ulp_ratio.
  assert (inject_Z k <= 1000).
  { change 1000 with (inject_Z 1000). rewrite <- Zle_Qle. lia. }
  assert (inject_Z k * (1 # 4503599627370496) <= 1000 * (1 # 4503599627370496))
    by (apply Qmult_le_compat_r; [assumption|discriminate]).
  assert (1000 * (1 # 4503599627370496) < 1) by reflexivity.
  lra.
Qed.

Lemma standard_units_tracks u :
  binary64_values u = true -> widget_bounds u = true ->
  exists w h W H,
    standard_units u = Some (w, h) /\
    pos_normal (-54) (-43) w = true /\ pos_normal (-55) (-50) h = true /\
    standard_units (exact_input u) = Some (W, H) /\
    0 < W /\ 0 < H /\
    within_ulps 3 W (b64_value w) /\ within_ulps 3 H (b64_value h).
Proof.
  destruct u as [weight height|weight_lbs height_feet height_inches];
    cbn [binary64_values widget_bounds standard_units exact_input].
  - rewrite !andb_true_iff. intros [Hvw Hvh] [Hw Hh].
    eapply (within_pos_normal _ _ _ _ (-52) _ (-44)) in Hw;
      [|by_computation|by_computation|lia|assumption].
    eapply (within_pos_normal _ _ _ _ (-47) _ (-45)) in Hh;
      [|by_computation|by_computation|lia|assumption].
    assert (H100 : pos_normal (-46) (-46) (b64_of_int 100) = true) by by_computation.
    cbn [f_div f_of_int b64_float q_float].
    rewrite (b64_div_pos_normal _ _ height _ H100).
    rewrite q_div_nonzero by discriminate. cbn [mbind option_bind].
    pose proof (SFdiv_rounds _ _ _ _ _ _ Hh H100 ltac:(lia) ltac:(lia)) as Hr.
    destruct (pos_normal_value _ _ _ Hw) as (_ & _ & _ & _ & _ & _ & HW).
    destruct (pos_normal_value _ _ _ Hh) as (_ & _ & _ & _ & _ & _ & HH).
    assert (HH' : 0 < b64_value height / inject_Z 100).
    { apply Qlt_shift_div_l; [reflexivity|]. lra. }
    do 4 eexists. split; [reflexivity|]. split.
    { eapply pos_normal_weaken; [exact Hw|lia..]. }
    split.
    { eapply pos_normal_weaken;
        [exact (SFdiv_pos_normal _ _ _ _ _ _ Hh H100 ltac:(lia) ltac:(lia))|lia..]. }
    split; [reflexivity|]. split; [exact HW|]. split; [exact HH'|]. split.
    + eapply within_factor_weaken; [exact HW| | |apply within_factor_exact];
        closed_Qle.
    + eapply (within_ulps_round 3 1 1); [reflexivity|exact HH'|closed_Qle|closed_Qle| |exact Hr].
      eapply within_factor_eq; [reflexivity| |apply within_factor_exact].
      assert (E : b64_value (b64_of_int 100) == inject_Z 100) by (vm_compute; reflexivity).
      now rewrite E.
  - rewrite !andb_true_iff, !Z.leb_le. intros Hv [[[[Hw ?] ?] ?] ?].
    eapply (within_pos_normal _ _ _ _ (-52) _ (-43)) in Hw;
      [|by_computation|by_computation|lia|assumption].
    assert (Hlb : pos_normal (-54) (-54) (b64_lit 453592 1000000) = true) by by_computation.
    assert (Hin : pos_normal (-58) (-58) (b64_lit 254 10000) = true) by by_computation.
    assert (Hn : pos_normal (-49) (-46) (b64_of_int (height_feet * 12 + height_inches)) = true)
      by (apply b64_of_int_feet_inches; lia).
    pose proof (b64_of_int_feet_inches_value (height_feet * 12 + height_inches)
                  ltac:(lia)) as En.
    pose proof (SFmul_rounds _ _ _ _ _ _ Hw Hlb ltac:(lia) ltac:(lia)) as Hrw.
    pose proof (SFmul_rounds _ _ _ _ _ _ Hn Hin ltac:(lia) ltac:(lia)) as Hrh.
    destruct (pos_normal_value _ _ _ Hw) as (_ & _ & _ & _ & _ & _ & HW).
    cbn [f_mul f_lit f_of_int b64_float q_float].
    assert (Hlbv : within_factor (1 / (1 + ulp_ratio)) (1 / (1 - ulp_ratio))
                     (inject_Z 453592 / inject_Z 1000000)
                     (b64_value (b64_lit 453592 1000000))).
    { unfold within_factor. split; closed_Qle. }
    assert (Hinv : within_factor (1 / (1 + ulp_ratio)) (1 / (1 - ulp_ratio))
                     (inject_Z 254 / inject_Z 10000)
                     (b64_value (b64_lit 254 10000))).
    { unfold within_factor. split; closed_Qle. }
    assert (HN : 0 < inject_Z (height_feet * 12 + height_inches)).
    { change 0 with (inject_Z 0). rewrite <- Zlt_Qlt. lia. }
    assert (HWk : 0 < b64_value weight_lbs * (inject_Z 453592 / inject_Z 1000000)).
    { apply Qmult_lt_0_compat; [exact HW|reflexivity]. }
    assert (HHm : 0 < inject_Z (height_feet * 12 + height_inches)
                      * (inject_Z 254 / inject_Z 10000)).
    { apply Qmult_lt_0_compat; [exact HN|reflexivity]. }
    do 4 eexists. split; [reflexivity|]. split.
    { eapply pos_normal_weaken;
        [exact (SFmul_pos_normal _ _ _ _ _ _ Hw Hlb ltac:(lia) ltac:(lia))|lia..]. }
    split.
    { eapply pos_normal_weaken;
        [exact (SFmul_pos_normal _ _ _ _ _ _ Hn Hin ltac:(lia) ltac:(lia))|lia..]. }
    split; [reflexivity|]. split; [exact HWk|]. split; [exact HHm|]. split.
    + eapply (within_ulps_round 3); [| | | | |exact Hrw].
      5: { apply within_factor_mul; [| | | |apply within_factor_exact|exact Hlbv];
           try reflexivity. exact HW. }
      all: try closed_Qle. reflexivity. exact HWk.
    + eapply (within_ulps_round 3); [| | | | |exact Hrh].
      5: { apply within_factor_mul; [| | | | |exact Hinv].
           5: { eapply within_factor_eq; [reflexivity|symmetry; exact En|].
                apply within_factor_exact. }
           all: try reflexivity. exact HN. }
      all: try closed_Qle. reflexivity. exact HHm.
Qed.


Lemma within_exact lo hi x (qlo qhi : Q) el eh :
  pos_normal el el lo = true -> pos_normal eh eh hi = true ->
  b64_value lo == qlo -> b64_value hi == qhi -> (-1074 < el)%Z ->
  valid_binary 53 1024 x = true -> within lo hi x = true ->
  within qlo qhi (b64_value x) = true.
Proof.
  intros Hlo Hhi Elo Ehi Hel Hv Hw.
  assert (Hx : pos_normal el eh x = true).
  { destruct (pos_normal_inv _ _ _ Hlo) as (ml & el' & -> & _ & ?).
    destruct (pos_normal_inv _ _ _ Hhi) as (mh & eh' & -> & _ & ?).
    assert (el' = el) as -> by lia. assert (eh' = eh) as -> by lia.
    eapply within_pos_normal; eauto. }
  revert Hw. unfold within. cbn [f_leb b64_float q_float]. unfold b64_leb.
  rewrite !andb_true_iff, !Qle_bool_iff.
  rewrite (SFleb_value _ _ _ _ _ _ Hlo Hx), (SFleb_value _ _ _ _ _ _ Hx Hhi).
  now rewrite Elo, Ehi.
Qed.

Lemma widget_bounds_exact_input u :
  binary64_values u = true -> widget_bounds u = true ->
  widget_bounds (exact_input u) = true.
Proof.
  destruct u as [weight height|weight_lbs height_feet height_inches];
    cbn [binary64_values widget_bounds exact_input].
  - rewrite !andb_true_iff. intros [Hvw Hvh] [Hw Hh]. split.
    + eapply (within_exact _ _ _ _ _ (-52) (-44)); [| | | | |exact Hvw|exact Hw];
        try by_computation; lia.
    + eapply (within_exact _ _ _ _ _ (-47) (-45)); [| | | | |exact Hvh|exact Hh];
        try by_computation; lia.
  - rewrite !andb_true_iff. intros Hv [[[[Hw ?] ?] ?] ?].
    repeat split; try assumption.
    eapply (within_exact _ _ _ _ _ (-52) (-43)); [| | | | |exact Hv|exact Hw];
      try by_computation; lia.
Qed.

Lemma b64_pow2_square a b x :
  pos_normal a b x = true ->
  (-1074 <= a + a + 52)%Z -> (b + b + 54 <= 971)%Z ->
  b64_pow2 x = Some (SFmul 53 1024 x x).
Proof.
  intros Hx Hlo Hhi.
  pose proof (SFmul_pos_normal a b a b x x Hx Hx Hlo Hhi) as H2.
  apply pos_normal_inv in Hx as (m & e & -> & _).
  unfold b64_pow2.
  destruct (SFmul 53 1024 (S754_finite false m e) (S754_finite false m e))
    as [| | |[] m2 e2] eqn:E; try discriminate.
  reflexivity.
Qed.

(** Both runs on the same widget values, side by side. *)
Lemma bmi_app_tracks u :
  binary64_values u = true -> widget_bounds u = true ->
  exists w h2 p W H2 q,
    bmi_app u = Some p /\ bmi_app (exact_input u) = Some q /\
    pos_normal (-54) (-43) w = true /\ pos_normal (-58) (-46) h2 = true /\
    0 < W /\ 0 < H2 /\
    within_ulps 3 W (b64_value w) /\ within_ulps 8 H2 (b64_value h2) /\
    weight_kg p = w /\ weight_kg q = W /\
    bmi p = SFdiv 53 1024 w h2 /\ bmi q = W / H2 /\
    category p = get_bmi_category (bmi p) /\
    category q = get_bmi_category (bmi q) /\
    ideal_weight_min (panel p) = SFmul 53 1024 (b64_lit 185 10) h2 /\
    ideal_weight_min (panel q) = (inject_Z 185 / inject_Z 10) * H2 /\
    ideal_weight_max (panel p) = SFmul 53 1024 (b64_of_int 25) h2 /\
    ideal_weight_max (panel q) = inject_Z 25 * H2 /\
    metrics (panel p) =
      (if is_metric u then
         {| current_weight := w;
            ideal_low := ideal_weight_min (panel p);
            ideal_high := ideal_weight_max (panel p) |}
       else
         {| current_weight := SFdiv 53 1024 w (b64_lit 453592 1000000);
            ideal_low :=
              SFdiv 53 1024 (ideal_weight_min (panel p)) (b64_lit 453592 1000000);
            ideal_high :=
              SFdiv 53 1024 (ideal_weight_max (panel p)) (b64_lit 453592 1000000) |}) /\
    advice (panel p) =
      (if SFltb w (ideal_weight_min (panel p)) then
         ToGain (b64_sub (ideal_weight_min (panel p)) w)
       else if SFltb (ideal_weight_max (panel p)) w then
         ToLose (b64_sub w (ideal_weight_max (panel p)))
       else HealthyRange) /\
    advice (panel q) =
      (if q_ltb W (ideal_weight_min (panel q)) then
         ToGain (ideal_weight_min (panel q) - W)
       else if q_ltb (ideal_weight_max (panel q)) W then
         ToLose (W - ideal_weight_max (panel q))
       else HealthyRange).
Proof.
  intros Hv Hb.
  destruct (standard_units_tracks u Hv Hb)
    as (w & h & W & H & Hu & Hw & Hh & HU & HW & HH & Tw & Th).
  pose proof (b64_pow2_square _ _ h Hh ltac:(lia) ltac:(lia)) as E2.
  pose proof (SFmul_pos_normal _ _ _ _ _ _ Hh Hh ltac:(lia) ltac:(lia)) as Hh2.
  pose proof (SFmul_rounds _ _ _ _ _ _ Hh Hh ltac:(lia) ltac:(lia)) as Hr2.
  assert (Hlb : pos_normal (-54) (-54) (b64_lit 453592 1000000) = true) by by_computation.
  assert (HH2 : 0 < H * H) by now apply Qmult_lt_0_compat.
  assert (Hne : ~ (H * H == 0)) by lra.
  assert (T2 : within_ulps 8 (H * H) (b64_value (SFmul 53 1024 h h))).
  { eapply (within_ulps_round 8); [| | | | |exact Hr2].
    5: { apply within_factor_mul; [| | | |exact Th|exact Th];
         try closed_Qlt; assumption. }
    all: try closed_Qle. closed_Qlt. exact HH2. }
  exists w, (SFmul 53 1024 h h).
  unfold bmi_app, health_metrics, calculate_bmi.
  rewrite Hu, HU. cbn [mbind option_bind].
  cbn [f_pow2 f_div f_mul f_lit f_ltb f_sub f_of_int b64_float q_float].
  rewrite E2. cbn [mbind option_bind].
  rewrite (b64_div_pos_normal _ _ w _ Hh2). cbn [mbind option_bind].
  rewrite (q_div_nonzero W _ Hne). cbn [mbind option_bind].
  assert (Em : is_metric (exact_input u) = is_metric u) by now destruct u.
  rewrite Em.
  destruct (is_metric u).
  - eexists. exists W, (H * H). eexists. split; [reflexivity|]. split; [reflexivity|].
    split; [eapply pos_normal_weaken; [exact Hw|lia..]|].
    split; [eapply pos_normal_weaken; [exact Hh2|lia..]|].
    repeat (split; [first [assumption|reflexivity]|]). reflexivity.
  - rewrite (b64_div_pos_normal _ _ w _ Hlb),
      (b64_div_pos_normal _ _ (b64_mul (b64_lit 185 10) (SFmul 53 1024 h h)) _ Hlb),
      (b64_div_pos_normal _ _ (b64_mul (b64_of_int 25) (SFmul 53 1024 h h)) _ Hlb).
    rewrite !q_div_nonzero by discriminate. cbn [mbind option_bind].
    eexists. exists W, (H * H). eexists. split; [reflexivity|]. split; [reflexivity|].
    split; [eapply pos_normal_weaken; [exact Hw|lia..]|].
    split; [eapply pos_normal_weaken; [exact Hh2|lia..]|].
    repeat (split; [first [assumption|reflexivity]|]). reflexivity.
Qed.





Lemma Qdiv_le_mul a b c : 0 < c -> a / c <= b -> a <= b * c.
Proof.
  intros Hc H.
  setoid_replace a with (a / c * c) using relation Qeq by (field; lra).
  apply Qmult_le_compat_r; lra.
Qed.

Lemma Qdiv_ge_mul a b c : 0 < c -> b <= a / c -> b * c <= a.
Proof.
  intros Hc H.
  setoid_replace a with (a / c * c) using relation Qeq by (field; lra).
  apply Qmult_le_compat_r; lra.
Qed.

Lemma bmi_tracks w h2 W H2 :
  pos_normal (-54) (-43) w = true -> pos_normal (-58) (-46) h2 = true ->
  0 < W -> 0 < H2 ->
  within_ulps 3 W (b64_value w) -> within_ulps 8 H2 (b64_value h2) ->
  pos_normal (-61) (-36) (SFdiv 53 1024 w h2) = true /\
  within_ulps 13 (W / H2) (b64_value (SFdiv 53 1024 w h2)).
Proof.
  intros Hw Hh2 HW HH2 Tw T2.
  split; [exact (SFdiv_pos_normal _ _ _ _ _ _ Hw Hh2 ltac:(lia) ltac:(lia))|].
  pose proof (SFdiv_rounds _ _ _ _ _ _ Hw Hh2 ltac:(lia) ltac:(lia)) as Hr.
  assert (HE : 0 < W / H2) by (apply Qlt_shift_div_l; lra).
  eapply (within_ulps_round 13); [| | | | |exact Hr].
  5: { apply within_factor_div; [| | | |exact Tw|exact T2];
       try closed_Qlt; assumption. }
  all: try closed_Qle. closed_Qlt. exact HE.
Qed.

Lemma threshold_agrees t ct et E b :
  pos_normal et et ct = true -> b64_value ct == t -> 0 < t ->
  pos_normal (-61) (-36) b = true ->
  0 < E -> within_ulps 13 E (b64_value b) -> outside_band t E ->
  SFltb b ct = q_ltb E t /\ SFleb ct b = Qle_bool t E.
Proof.
  intros Hct Et Ht Hb HE [T1 T3] Hout.
  unfold ulp_ratio in T1, T3. change (inject_Z 13) with 13 in *.
  unfold q_ltb.
  destruct Hout as [Hlow|Hhigh]; unfold rounding_band in *.
  - assert (Hlt : b64_value b < b64_value ct) by (rewrite Et; lra).
    assert (E1 : SFltb b ct = true) by (apply (SFltb_value _ _ _ _ _ _ Hb Hct); exact Hlt).
    assert (E2 : SFleb ct b = false).
    { apply not_true_iff_false. rewrite (SFleb_value _ _ _ _ _ _ Hct Hb). lra. }
    assert (E3 : Qle_bool t E = false).
    { apply not_true_iff_false. rewrite Qle_bool_iff. lra. }
    now rewrite E1, E2, E3.
  - assert (Hge : b64_value ct <= b64_value b) by (rewrite Et; lra).
    assert (E1 : SFltb b ct = false).
    { apply not_true_iff_false. rewrite (SFltb_value _ _ _ _ _ _ Hb Hct). lra. }
    assert (E2 : SFleb ct b = true) by (apply (SFleb_value _ _ _ _ _ _ Hct Hb); exact Hge).
    assert (E3 : Qle_bool t E = true) by (apply Qle_bool_iff; lra).
    now rewrite E1, E2, E3.
Qed.

(** Unless the exact BMI of the widget values lies within the rounding band
    (relative width 2^-48) of 18.5, 25 or 30, the binary64 run shows the
    category, emoji and colour that exact arithmetic gives. *)
Theorem binary64_category_agrees u :
  binary64_values u = true -> widget_bounds u = true ->
  exists p q,
    bmi_app u = Some p /\ bmi_app (exact_input u) = Some q /\
    (outside_band (185 # 10) (bmi q) -> outside_band 25 (bmi q) ->
     outside_band 30 (bmi q) ->
     category p = category q).
Proof.
  intros Hv Hb.
  destruct (bmi_app_tracks u Hv Hb)
    as (w & h2 & p & W & H2 & q & Hp & Hq & Hw & Hh2 & HW & HH2 & Tw & T2
        & _ & _ & Ep & Eq & Cp & Cq & _).
  destruct (bmi_tracks w h2 W H2 Hw Hh2 HW HH2 Tw T2) as [Hbn Tb].
  exists p, q. split; [exact Hp|]. split; [exact Hq|].
  intros O1 O2 O3. rewrite Cp, Cq, Ep, Eq. rewrite Eq in O1, O2, O3.
  assert (HE : 0 < W / H2) by (apply Qlt_shift_div_l; lra).
  assert (H185 : pos_normal (-48) (-48) (b64_lit 185 10) = true) by by_computation.
  assert (H25 : pos_normal (-48) (-48) (b64_of_int 25) = true) by by_computation.
  assert (H30 : pos_normal (-48) (-48) (b64_of_int 30) = true) by by_computation.
  destruct (threshold_agrees (185 # 10) _ _ _ _ H185 ltac:(vm_compute; reflexivity)
              ltac:(reflexivity) Hbn HE Tb O1) as [A1 B1].
  destruct (threshold_agrees 25 _ _ _ _ H25 ltac:(vm_compute; reflexivity)
              ltac:(reflexivity) Hbn HE Tb O2) as [A2 B2].
  destruct (threshold_agrees 30 _ _ _ _ H30 ltac:(vm_compute; reflexivity)
              ltac:(reflexivity) Hbn HE Tb O3) as [A3 B3].
  unfold get_bmi_category. cbn [f_ltb f_leb f_lit f_of_int b64_float q_float].
  unfold b64_ltb, b64_leb. rewrite A1, A2, A3, B1, B2.
  reflexivity.
Qed.

Lemma binary64_category_agrees_witness :
  binary64_values metric_sample = true /\ widget_bounds metric_sample = true /\
  exists p q,
    bmi_app metric_sample = Some p /\
    bmi_app (exact_input metric_sample) = Some q /\
    outside_band (185 # 10) (bmi q) /\ outside_band 25 (bmi q) /\
    outside_band 30 (bmi q) /\
    category p = category q.
Proof.
  assert (Hv : binary64_values metric_sample = true) by (vm_compute; reflexivity).
  assert (Hb : widget_bounds metric_sample = true) by (vm_compute; reflexivity).
  split; [exact Hv|]. split; [exact Hb|].
  destruct (binary64_category_agrees metric_sample Hv Hb) as (p & q & Hp & Hq & Hcat).
  exists p, q. split; [exact Hp|]. split; [exact Hq|].
  cut (outside_band (185 # 10) (bmi q) /\ outside_band 25 (bmi q) /\
       outside_band 30 (bmi q)).
  { intros (O1 & O2 & O3). repeat (split; [assumption|]). exact (Hcat O1 O2 O3). }
  vm_compute in Hq. injection Hq as <-.
  split; [right; closed_Qle|]. split; left; closed_Qle.
Defined.



Lemma ideal_weight_tracks t c h2 H2 :
  pos_normal (-48) (-48) c = true -> b64_value c == t -> 0 < t ->
  pos_normal (-58) (-46) h2 = true -> 0 < H2 ->
  within_ulps 8 H2 (b64_value h2) ->
  pos_normal (-54) (-40) (SFmul 53 1024 c h2) = true /\
  within_ulps 10 (t * H2) (b64_value (SFmul 53 1024 c h2)).
Proof.
  intros Hc Ec Ht Hh2 HH2 T2.
  split; [exact (SFmul_pos_normal _ _ _ _ _ _ Hc Hh2 ltac:(lia) ltac:(lia))|].
  pose proof (SFmul_rounds _ _ _ _ _ _ Hc Hh2 ltac:(lia) ltac:(lia)) as Hr.
  assert (HtH : 0 < t * H2) by now apply Qmult_lt_0_compat.
  eapply (within_ulps_round 10); [| | | | |exact Hr].
  5: { apply within_factor_mul; [| | | | |exact T2].
       5: { eapply within_factor_eq; [reflexivity|symmetry; exact Ec|].
            apply within_factor_exact. }
       all: try closed_Qlt; assumption. }
  all: try closed_Qle. closed_Qlt. exact HtH.
Qed.

(** For every admitted input the binary64 run shows an ideal weight range
    whose lower end is strictly below its upper end, in kilograms and in the
    unit of the display. *)
Theorem ideal_weight_range_not_empty u :
  binary64_values u = true -> widget_bounds u = true ->
  exists p,
    bmi_app u = Some p /\
    (ideal_weight_min (panel p) ≺ ideal_weight_max (panel p))%py = true /\
    (ideal_low (metrics (panel p)) ≺ ideal_high (metrics (panel p)))%py = true.
Proof.
  intros Hv Hb.
  destruct (bmi_app_tracks u Hv Hb)
    as (w & h2 & p & W & H2 & q & Hp & _ & Hw & Hh2 & HW & HH2 & Tw & T2
        & _ & _ & _ & _ & _ & _ & Emin & _ & Emax & _ & Emet & _).
  assert (H185 : pos_normal (-48) (-48) (b64_lit 185 10) = true) by by_computation.
  assert (H25 : pos_normal (-48) (-48) (b64_of_int 25) = true) by by_computation.
  destruct (ideal_weight_tracks (185 # 10) _ h2 H2 H185 ltac:(vm_compute; reflexivity)
              ltac:(reflexivity) Hh2 HH2 T2) as [Nmin [A1 A2]].
  destruct (ideal_weight_tracks 25 _ h2 H2 H25 ltac:(vm_compute; reflexivity)
              ltac:(reflexivity) Hh2 HH2 T2) as [Nmax [B1 B2]].
  rewrite <- Emin in Nmin, A1, A2. rewrite <- Emax in Nmax, B1, B2.
  unfold ulp_ratio in A1, A2, B1, B2. change (inject_Z 10) with 10 in *.
  assert (Hgap : b64_value (ideal_weight_min (panel p)) * (13 # 10)
                 <= b64_value (ideal_weight_max (panel p))) by lra.
  destruct (pos_normal_value _ _ _ Nmin) as (_ & _ & _ & _ & _ & _ & Pmin).
  assert (Hkg : SFltb (ideal_weight_min (panel p)) (ideal_weight_max (panel p)) = true).
  { apply (SFltb_value _ _ _ _ _ _ Nmin Nmax). lra. }
  exists p. split; [exact Hp|]. split; [exact Hkg|].
  rewrite Emet. destruct (is_metric u); cbn [ideal_low ideal_high]; [exact Hkg|].
  assert (Hlb : pos_normal (-54) (-54) (b64_lit 453592 1000000) = true) by by_computation.
  pose proof (SFdiv_pos_normal _ _ _ _ _ _ Nmin Hlb ltac:(lia) ltac:(lia)) as Dmin.
  pose proof (SFdiv_pos_normal _ _ _ _ _ _ Nmax Hlb ltac:(lia) ltac:(lia)) as Dmax.
  pose proof (SFdiv_rounds _ _ _ _ _ _ Nmin Hlb ltac:(lia) ltac:(lia)) as [R1 _].
  pose proof (SFdiv_rounds _ _ _ _ _ _ Nmax Hlb ltac:(lia) ltac:(lia)) as [_ R2].
  destruct (pos_normal_value _ _ _ Hlb) as (_ & _ & _ & _ & _ & _ & Pc).
  apply (SFltb_value _ _ _ _ _ _ Dmin Dmax).
  set (c := b64_value (b64_lit 453592 1000000)) in *.
  assert (Hq : b64_value (ideal_weight_min (panel p)) / c * (13 # 10)
               <= b64_value (ideal_weight_max (panel p)) / c).
  { apply Qle_shift_div_l; [exact Pc|].
    setoid_replace (b64_value (ideal_weight_min (panel p)) / c * (13 # 10) * c)
      with (b64_value (ideal_weight_min (panel p)) * (13 # 10))
      using relation Qeq by (field; lra).
    exact Hgap. }
  assert (Hpos : 0 < b64_value (ideal_weight_min (panel p)) / c)
    by (apply Qlt_shift_div_l; lra).
  unfold ulp_ratio in R1, R2. lra.
Qed.

Lemma ideal_weight_range_not_empty_witness :
  binary64_values imperial_sample = true /\ widget_bounds imperial_sample = true /\
  exists p,
    bmi_app imperial_sample = Some p /\
    (ideal_weight_min (panel p) ≺ ideal_weight_max (panel p))%py = true /\
    (ideal_low (metrics (panel p)) ≺ ideal_high (metrics (panel p)))%py = true.
Proof.
  assert (Hv : binary64_values imperial_sample = true) by (vm_compute; reflexivity).
  assert (Hb : widget_bounds imperial_sample = true) by (vm_compute; reflexivity).
  split; [exact Hv|]. split; [exact Hb|].
  exact (ideal_weight_range_not_empty imperial_sample Hv Hb).
Defined.


(** Unless the exact BMI lies within the rounding band of 18.5 or 25, the
    binary64 run decides the message below the ideal range as the exact BMI
    does: a weight to gain below 18.5, the healthy-range message between
    18.5 and 25, a weight to lose above 25. *)
Theorem binary64_advice_by_exact_bmi u :
  binary64_values u = true -> widget_bounds u = true ->
  exists p q,
    bmi_app u = Some p /\ bmi_app (exact_input u) = Some q /\
    (bmi q <= (185 # 10) * (1 - rounding_band) ->
       exists d, advice (panel p) = ToGain d) /\
    ((185 # 10) * (1 + rounding_band) <= bmi q <= 25 * (1 - rounding_band) ->
       advice (panel p) = HealthyRange) /\
    (25 * (1 + rounding_band) <= bmi q ->
       exists d, advice (panel p) = ToLose d).
Proof.
  intros Hv Hb.
  destruct (bmi_app_tracks u Hv Hb)
    as (w & h2 & p & W & H2 & q & Hp & Hq & Hw & Hh2 & HW & HH2 & [Tw1 Tw2] & T2
        & _ & _ & _ & Eq & _ & _ & Emin & _ & Emax & _ & _ & Eadv & _).
  assert (H185 : pos_normal (-48) (-48) (b64_lit 185 10) = true) by by_computation.
  assert (H25 : pos_normal (-48) (-48) (b64_of_int 25) = true) by by_computation.
  destruct (ideal_weight_tracks (185 # 10) _ h2 H2 H185 ltac:(vm_compute; reflexivity)
              ltac:(reflexivity) Hh2 HH2 T2) as [Nmin [A1 A2]].
  destruct (ideal_weight_tracks 25 _ h2 H2 H25 ltac:(vm_compute; reflexivity)
              ltac:(reflexivity) Hh2 HH2 T2) as [Nmax [B1 B2]].
  rewrite <- Emin in Nmin, A1, A2. rewrite <- Emax in Nmax, B1, B2.
  unfold ulp_ratio in *. change (inject_Z 10) with 10 in *.
  change (inject_Z 3) with 3 in *.
  exists p, q. split; [exact Hp|]. split; [exact Hq|].
  rewrite Eq, Eadv. unfold rounding_band.
  split; [|split].
  - intros HE. apply Qdiv_le_mul in HE; [|exact HH2].
    assert (E1 : SFltb w (ideal_weight_min (panel p)) = true).
    { apply (SFltb_value _ _ _ _ _ _ Hw Nmin). lra. }
    rewrite E1. eauto.
  - intros [HE1 HE2].
    apply Qdiv_ge_mul in HE1; [|exact HH2]. apply Qdiv_le_mul in HE2; [|exact HH2].
    assert (E1 : SFltb w (ideal_weight_min (panel p)) = false).
    { apply not_true_iff_false. rewrite (SFltb_value _ _ _ _ _ _ Hw Nmin). lra. }
    assert (E2 : SFltb (ideal_weight_max (panel p)) w = false).
    { apply not_true_iff_false. rewrite (SFltb_value _ _ _ _ _ _ Nmax Hw). lra. }
    now rewrite E1, E2.
  - intros HE. apply Qdiv_ge_mul in HE; [|exact HH2].
    assert (E1 : SFltb w (ideal_weight_min (panel p)) = false).
    { apply not_true_iff_false. rewrite (SFltb_value _ _ _ _ _ _ Hw Nmin). lra. }
    assert (E2 : SFltb (ideal_weight_max (panel p)) w = true).
    { apply (SFltb_value _ _ _ _ _ _ Nmax Hw). lra. }
    rewrite E1, E2. eauto.
Qed.

Lemma binary64_advice_by_exact_bmi_witness :
  binary64_values metric_sample = true /\ widget_bounds metric_sample = true /\
  exists p q,
    bmi_app metric_sample = Some p /\
    bmi_app (exact_input metric_sample) = Some q /\
    (185 # 10) * (1 + rounding_band) <= bmi q <= 25 * (1 - rounding_band) /\
    advice (panel p) = HealthyRange.
Proof.
  assert (Hv : binary64_values metric_sample = true) by (vm_compute; reflexivity).
  assert (Hb : widget_bounds metric_sample = true) by (vm_compute; reflexivity).
  split; [exact Hv|]. split; [exact Hb|].
  destruct (binary64_advice_by_exact_bmi metric_sample Hv Hb)
    as (p & q & Hp & Hq & _ & Hhealthy & _).
  exists p, q. split; [exact Hp|]. split; [exact Hq|].
  cut ((185 # 10) * (1 + rounding_band) <= bmi q <= 25 * (1 - rounding_band)).
  { intros Hin. split; [exact Hin|exact (Hhealthy Hin)]. }
  vm_compute in Hq. injection Hq as <-.
  split; closed_Qle.
Defined.



Lemma within_ulps_relative k exact v :
  (0 <= k <= 16)%Z -> 0 < exact -> within_ulps k exact v ->
  relative_error_within rounding_band exact v.
Proof.
  intros Hk Hx [H1 H2]. unfold relative_error_within.
  apply Qabs.Qabs_Qle_condition.
  assert (Hk' : 0 <= inject_Z k <= 16).
  { change 0 with (inject_Z 0). change 16 with (inject_Z 16).
    rewrite <- !Zle_Qle. exact Hk. }
  assert (Hu : inject_Z k * ulp_ratio * exact <= rounding_band * exact).
  { apply Qmult_le_compat_r; [|lra]. unfold ulp_ratio, rounding_band.
    apply Qle_trans with (16 * (1 # 4503599627370496)); [|closed_Qle].
    apply Qmult_le_compat_r; [lra|discriminate]. }
  split; lra.
Qed.

(** For every admitted input, each number the binary64 run computes for the
    page (weight in kilograms, BMI, both ends of the ideal weight range) is
    the number exact arithmetic gives for the same widget values, up to a
    relative error of 2^-48. *)
Theorem binary64_page_accuracy u :
  binary64_values u = true -> widget_bounds u = true ->
  exists p q,
    bmi_app u = Some p /\ bmi_app (exact_input u) = Some q /\
    relative_error_within rounding_band (weight_kg q) (b64_value (weight_kg p)) /\
    relative_error_within rounding_band (bmi q) (b64_value (bmi p)) /\
    relative_error_within rounding_band (ideal_weight_min (panel q))
      (b64_value (ideal_weight_min (panel p))) /\
    relative_error_within rounding_band (ideal_weight_max (panel q))
      (b64_value (ideal_weight_max (panel p))).
Proof.
  intros Hv Hb.
  destruct (bmi_app_tracks u Hv Hb)
    as (w & h2 & p & W & H2 & q & Hp & Hq & Hw & Hh2 & HW & HH2 & Tw & T2
        & Ewp & Ewq & Ep & Eq & _ & _ & Emin & Eminq & Emax & Emaxq & _).
  destruct (bmi_tracks w h2 W H2 Hw Hh2 HW HH2 Tw T2) as [_ Tb].
  assert (H185 : pos_normal (-48) (-48) (b64_lit 185 10) = true) by by_computation.
  assert (H25 : pos_normal (-48) (-48) (b64_of_int 25) = true) by by_computation.
  destruct (ideal_weight_tracks (inject_Z 185 / inject_Z 10) _ h2 H2 H185
              ltac:(vm_compute; reflexivity) ltac:(reflexivity) Hh2 HH2 T2)
    as [_ Tmin].
  destruct (ideal_weight_tracks (inject_Z 25) _ h2 H2 H25
              ltac:(vm_compute; reflexivity) ltac:(reflexivity) Hh2 HH2 T2)
    as [_ Tmax].
  assert (HE : 0 < W / H2) by (apply Qlt_shift_div_l; lra).
  exists p, q. split; [exact Hp|]. split; [exact Hq|].
  rewrite Ewp, Ewq, Ep, Eq, Emin, Eminq, Emax, Emaxq.
  split; [|split; [|split]].
  - apply (within_ulps_relative 3); [lia|exact HW|exact Tw].
  - apply (within_ulps_relative 13); [lia|exact HE|exact Tb].
  - apply (within_ulps_relative 10); [lia| |exact Tmin].
    apply Qmult_lt_0_compat; [reflexivity|exact HH2].
  - apply (within_ulps_relative 10); [lia| |exact Tmax].
    apply Qmult_lt_0_compat; [reflexivity|exact HH2].
Qed.

Lemma binary64_page_accuracy_witness :
  binary64_values imperial_sample = true /\ widget_bounds imperial_sample = true /\
  exists p q,
    bmi_app imperial_sample = Some p /\
    bmi_app (exact_input imperial_sample) = Some q /\
    relative_error_within rounding_band (bmi q) (b64_value (bmi p)).
Proof.
  assert (Hv : binary64_values imperial_sample = true) by (vm_compute; reflexivity).
  assert (Hb : widget_bounds imperial_sample = true) by (vm_compute; reflexivity).
  split; [exact Hv|]. split; [exact Hb|].
  destruct (binary64_page_accuracy imperial_sample Hv Hb)
    as (p & q & Hp & Hq & _ & Hbmi & _).
  exists p, q. split; [exact Hp|]. split; [exact Hq|exact Hbmi].
Defined.


Lemma bmi_app_weight_kg {F : Type} `{PyFloat F} (u : unit_system F) (p : page F) :
  bmi_app u = Some p ->
  exists h, standard_units u = Some (weight_kg p, h).
Proof.
  unfold bmi_app. intros Hp.
  destruct (standard_units u) as [[w h]|]; [|discriminate].
  cbn [mbind option_bind] in Hp.
  destruct (calculate_bmi w h) as [b|]; [|discriminate].
  cbn [mbind option_bind] in Hp.
  destruct (health_metrics u w h) as [hp|]; [|discriminate].
  cbn [mbind option_bind] in Hp. injection Hp as <-.
  exists h. reflexivity.
Qed.

(** In binary64 the displayed current weight, (weight_lbs * 0.453592) /
    0.453592, is the weight entered up to a relative error of 2^-50. *)
Theorem imperial_round_trip_binary64 weight_lbs feet inches :
  binary64_values (Imperial weight_lbs feet inches) = true ->
  widget_bounds (Imperial weight_lbs feet inches) = true ->
  exists p,
    bmi_app (Imperial weight_lbs feet inches) = Some p /\
    relative_error_within (4 * ulp_ratio) (b64_value weight_lbs)
      (b64_value (current_weight (metrics (panel p)))).
Proof.
  intros Hv Hb.
  destruct (bmi_app_tracks _ Hv Hb)
    as (w & h2 & p & W & H2 & q & Hp & _ & _ & _ & _ & _ & _ & _
        & Ewp & _ & _ & _ & _ & _ & _ & _ & _ & _ & Emet & _).
  exists p. split; [exact Hp|].
  destruct (bmi_app_weight_kg _ p Hp) as (h & Hu).
  cbn [standard_units] in Hu. injection Hu as Hw' _.
  rewrite Emet. cbn [is_metric current_weight]. rewrite <- Ewp, <- Hw'.
  cbn [f_mul f_lit b64_float]. unfold b64_mul.
  revert Hv Hb. cbn [binary64_values widget_bounds].
  rewrite !andb_true_iff. intros Hv [[[[Hwl _] _] _] _].
  eapply (within_pos_normal _ _ _ _ (-52) _ (-43)) in Hwl;
    [|by_computation|by_computation|lia|assumption].
  assert (Hlb : pos_normal (-54) (-54) (b64_lit 453592 1000000) = true) by by_computation.
  pose proof (SFmul_pos_normal _ _ _ _ _ _ Hwl Hlb ltac:(lia) ltac:(lia)) as Hk.
  pose proof (SFmul_rounds _ _ _ _ _ _ Hwl Hlb ltac:(lia) ltac:(lia)) as [R1 R2].
  pose proof (SFdiv_rounds _ _ _ _ _ _ Hk Hlb ltac:(lia) ltac:(lia)) as [R3 R4].
  destruct (pos_normal_value _ _ _ Hwl) as (_ & _ & _ & _ & _ & _ & Pw).
  destruct (pos_normal_value _ _ _ Hlb) as (_ & _ & _ & _ & _ & _ & Pc).
  set (c := b64_value (b64_lit 453592 1000000)) in *.
  set (k := b64_value (SFmul 53 1024 weight_lbs (b64_lit 453592 1000000))) in *.
  set (r := b64_value (SFdiv 53 1024 _ _)) in *.
  set (x := b64_value weight_lbs) in *.
  apply Qdiv_ge_mul in R3; [|exact Pc]. 
  assert (R4' : k <= r * (1 + ulp_ratio) * c).
  { apply Qdiv_le_mul; assumption. }
  unfold relative_error_within. apply Qabs.Qabs_Qle_condition.
  unfold ulp_ratio in *.
  assert (A : r * ((1 - (1 # 4503599627370496)) * (1 - (1 # 4503599627370496))) * c
              <= x * c).
  { apply Qle_trans with (k * (1 - (1 # 4503599627370496))); [|lra].
    setoid_replace (r * ((1 - (1 # 4503599627370496)) * (1 - (1 # 4503599627370496))) * c)
      with (r * (1 - (1 # 4503599627370496)) * c * (1 - (1 # 4503599627370496)))
      using relation Qeq by ring.
    apply Qmult_le_compat_r; [exact R3|discriminate]. }
  assert (B : x * c
              <= r * ((1 + (1 # 4503599627370496)) * (1 + (1 # 4503599627370496))) * c).
  { apply Qle_trans with (k * (1 + (1 # 4503599627370496))); [lra|].
    setoid_replace (r * ((1 + (1 # 4503599627370496)) * (1 + (1 # 4503599627370496))) * c)
      with (r * (1 + (1 # 4503599627370496)) * c * (1 + (1 # 4503599627370496)))
      using relation Qeq by ring.
    apply Qmult_le_compat_r; [exact R4'|discriminate]. }
  apply Qmult_le_r in A; [|exact Pc]. apply Qmult_le_r in B; [|exact Pc].
  split; lra.
Qed.

Lemma imperial_round_trip_binary64_witness :
  binary64_values imperial_sample = true /\ widget_bounds imperial_sample = true /\
  exists p,
    bmi_app imperial_sample = Some p /\
    relative_error_within (4 * ulp_ratio) (b64_value (b64_lit 1540 10))
      (b64_value (current_weight (metrics (panel p)))).
Proof.
  assert (Hv : binary64_values imperial_sample = true) by (vm_compute; reflexivity).
  assert (Hb : widget_bounds imperial_sample = true) by (vm_compute; reflexivity).
  split; [exact Hv|]. split; [exact Hb|].
  exact (imperial_round_trip_binary64 (b64_lit 1540 10) 5 7 Hv Hb).
Defined.


Local Close Scope Q_scope.

(** ** Sums that round to themselves *)

Lemma pow2_split K n : 0 <= n <= K -> 2 ^ K = 2 ^ (K - n) * 2 ^ n.
Proof. intros H. rewrite <- Z.pow_add_r by lia. f_equal. lia. Qed.

Lemma shr_1_exact r c K :
  shr_r r = false -> shr_s r = false ->
  0 <= c -> 1 <= K -> shr_m r = c * 2 ^ K ->
  shr_r (shr_1 r) = false /\ shr_s (shr_1 r) = false /\
  shr_m (shr_1 r) = c * 2 ^ (K - 1).
Proof.
  destruct r as [m b s]. cbn [shr_r shr_s shr_m]. intros -> -> Hc HK Hm.
  rewrite (pow2_split K 1) in Hm by lia. change (2 ^ 1) with 2 in Hm.
  assert (Hp : 0 <= 2 ^ (K - 1)) by (apply Z.pow_nonneg; lia).
  destruct m as [|[p|p|]|p]; cbn [shr_1 shr_r shr_s shr_m orb];
    repeat split; lia.
Qed.

Lemma iter_pos_shr_exact n : forall r c K,
  shr_r r = false -> shr_s r = false ->
  0 <= c -> Z.pos n <= K -> shr_m r = c * 2 ^ K ->
  shr_r (SpecFloat.iter_pos shr_1 n r) = false /\
  shr_s (SpecFloat.iter_pos shr_1 n r) = false /\
  shr_m (SpecFloat.iter_pos shr_1 n r) = c * 2 ^ (K - Z.pos n).
Proof.
  induction n as [n IH|n IH|]; intros r c K Hr Hs Hc HK Hm; cbn [SpecFloat.iter_pos].
  - destruct (shr_1_exact r c K Hr Hs Hc ltac:(lia) Hm) as (Hr1 & Hs1 & Hm1).
    destruct (IH _ c (K - 1) Hr1 Hs1 Hc ltac:(lia) Hm1) as (Hr2 & Hs2 & Hm2).
    destruct (IH _ c (K - 1 - Z.pos n) Hr2 Hs2 Hc ltac:(lia) Hm2) as (Hr3 & Hs3 & Hm3).
    repeat split; try assumption. rewrite Hm3. do 2 f_equal. lia.
  - destruct (IH _ c K Hr Hs Hc ltac:(lia) Hm) as (Hr2 & Hs2 & Hm2).
    destruct (IH _ c (K - Z.pos n) Hr2 Hs2 Hc ltac:(lia) Hm2) as (Hr3 & Hs3 & Hm3).
    repeat split; try assumption. rewrite Hm3. do 2 f_equal. lia.
  - exact (shr_1_exact r c K Hr Hs Hc HK Hm).
Qed.

Lemma loc_of_exact_record r :
  shr_r r = false -> shr_s r = false -> loc_of_shr_record r = loc_Exact.
Proof. destruct r as [m [] []]; cbn; congruence. Qed.

(** A positive integer [c * 2^K] with [c] below 2^53 and at least 53 bits
    rounds to itself. *)
Lemma binary_round_aux_exact c K ex :
  0 < c < 2 ^ 53 -> 0 <= K -> 53 <= Zdigits2 (c * 2 ^ K) ->
  -1074 <= ex + Zdigits2 (c * 2 ^ K) - 53 ->
  ex + Zdigits2 (c * 2 ^ K) - 53 <= 971 ->
  exists m,
    binary_round_aux 53 1024 false (c * 2 ^ K) ex loc_Exact
      = S754_finite false m (ex + Zdigits2 (c * 2 ^ K) - 53) /\
    digits2_pos m = 53%positive /\
    Zdigits2 (c * 2 ^ K) - 53 <= K /\
    Z.pos m = c * 2 ^ (K - (Zdigits2 (c * 2 ^ K) - 53)).
Proof.
  intros Hc HK Hd Hlo Hhi.
  set (mx := c * 2 ^ K) in *.
  assert (HpK : 0 < 2 ^ K) by (apply Z.pow_pos_nonneg; lia).
  assert (Hmx : 0 < mx) by (unfold mx; nia).
  pose proof (Zdigits2_bounds mx Hmx) as [Hb1 Hb2].
  set (d := Zdigits2 mx) in *.
  assert (Hk : d - 53 <= K).
  { destruct (Z.le_gt_cases (d - 53) K) as [|Hgt]; [assumption|exfalso].
    assert (2 ^ (53 + K) <= 2 ^ (d - 1)) by (apply Z.pow_le_mono_r; lia).
    rewrite Z.pow_add_r in * by lia. unfold mx in Hb1. nia. }
  unfold binary_round_aux, shr_fexp, fexp, emin.
  fold d. rewrite Z.max_l by lia.
  replace (d + ex - 53 - ex) with (d - 53) by lia.
  assert (Hshift : exists r1,
            shr (shr_record_of_loc mx loc_Exact) ex (d - 53) = (r1, ex + d - 53) /\
            shr_r r1 = false /\ shr_s r1 = false /\
            shr_m r1 = c * 2 ^ (K - (d - 53))).
  { unfold shr. destruct (d - 53) as [|p|p] eqn:E; try lia.
    - eexists. split; [f_equal; lia|]. cbn [shr_record_of_loc shr_r shr_s shr_m].
      repeat split. unfold mx. f_equal. f_equal. lia.
    - eexists. split; [f_equal; lia|].
      apply iter_pos_shr_exact; try reflexivity; try lia. }
  destruct Hshift as (r1 & -> & Hr1 & Hs1 & Hm1).
  rewrite (loc_of_exact_record r1 Hr1 Hs1). cbn [round_nearest_even].
  assert (Hm1b : 2 ^ 52 <= shr_m r1 < 2 ^ 53).
  { rewrite Hm1.
    assert (Hp : 0 < 2 ^ (d - 53)) by (apply Z.pow_pos_nonneg; lia).
    assert (E0 : mx = c * 2 ^ (K - (d - 53)) * 2 ^ (d - 53)).
    { unfold mx. rewrite <- Z.mul_assoc, <- Z.pow_add_r by lia. do 2 f_equal. lia. }
    assert (E1 : 2 ^ (d - 1) = 2 ^ 52 * 2 ^ (d - 53)).
    { rewrite <- Z.pow_add_r by lia. f_equal. lia. }
    assert (E2 : 2 ^ d = 2 ^ 53 * 2 ^ (d - 53)).
    { rewrite <- Z.pow_add_r by lia. f_equal. lia. }
    nia. }
  assert (Hd1 : Zdigits2 (shr_m r1) = 53) by (apply Zdigits2_unique; lia).
  rewrite Hd1. replace (53 + (ex + d - 53) - 53 - (ex + d - 53)) with 0 by lia.
  rewrite Z.max_l by lia.
  replace (53 + (ex + d - 53) - 53 - (ex + d - 53)) with 0 by lia.
  cbn [shr shr_record_of_loc shr_m].
  destruct (shr_m r1) as [|m|m] eqn:Em; try lia.
  replace (ex + d - 53 <=? 1024 - 53) with true by (symmetry; apply Z.leb_le; lia).
  exists m. split; [reflexivity|]. split; [cbn [Zdigits2] in Hd1; congruence|].
  split; [exact Hk|exact Hm1].
Qed.


Lemma Pos_iter_xO m n : Z.pos (Pos.iter xO m n) = Z.pos m * 2 ^ Z.pos n.
Proof.
  induction n as [|n IH] using Pos.peano_ind.
  - cbn [Pos.iter]. change (2 ^ 1) with 2. lia.
  - rewrite Pos.iter_succ, Pos2Z.inj_xO, IH, Pos2Z.inj_succ, Z.pow_succ_r by lia. lia.
Qed.

Lemma shl_align_value m e e' :
  e' <= e ->
  Z.pos (shl_align m e e').1 = Z.pos m * 2 ^ (e - e') /\ (shl_align m e e').2 = e'.
Proof.
  intros He. unfold shl_align.
  destruct (e' - e) as [|p|p] eqn:E; cbn [fst snd]; try lia.
  - replace (e - e') with 0 by lia. split; lia.
  - rewrite Pos_iter_xO. split; [|reflexivity]. do 2 f_equal. lia.
Qed.

Lemma Zdigits2_shift c K :
  0 < c -> 0 <= K -> Zdigits2 (c * 2 ^ K) = Zdigits2 c + K.
Proof.
  intros Hc HK. pose proof (Zdigits2_bounds c Hc) as [H1 H2].
  assert (0 < Zdigits2 c) by (destruct c; cbn; lia).
  assert (Hp : 0 < 2 ^ K) by (apply Z.pow_pos_nonneg; lia).
  apply Zdigits2_unique; [nia|].
  replace (Zdigits2 c + K - 1) with (Zdigits2 c - 1 + K) by lia.
  rewrite !Z.pow_add_r by lia. nia.
Qed.

(** [binary_normalize] on the integer [c * 2^K], [c] below 2^53. *)
Lemma binary_normalize_exact c K ez :
  0 < c < 2 ^ 53 -> 0 <= K ->
  -1074 <= ez + Zdigits2 (c * 2 ^ K) - 53 ->
  ez + Zdigits2 (c * 2 ^ K) - 53 <= 971 ->
  exists m,
    binary_normalize 53 1024 (c * 2 ^ K) ez false
      = S754_finite false m (ez + Zdigits2 (c * 2 ^ K) - 53) /\
    digits2_pos m = 53%positive /\
    Zdigits2 (c * 2 ^ K) - 53 <= K /\
    Z.pos m = c * 2 ^ (K - (Zdigits2 (c * 2 ^ K) - 53)).
Proof.
  intros Hc HK Hlo Hhi.
  assert (Hp : 0 < 2 ^ K) by (apply Z.pow_pos_nonneg; lia).
  assert (Hd : Zdigits2 (c * 2 ^ K) = Zdigits2 c + K) by (apply Zdigits2_shift; lia).
  assert (Hdc : 0 < Zdigits2 c <= 53).
  { pose proof (Zdigits2_bounds c ltac:(lia)) as [H1 H2].
    split; [destruct c; cbn; lia|].
    destruct (Z.le_gt_cases (Zdigits2 c) 53) as [|Hgt]; [assumption|exfalso].
    assert (2 ^ 53 <= 2 ^ (Zdigits2 c - 1)) by (apply Z.pow_le_mono_r; lia). lia. }
  destruct (c * 2 ^ K) as [|M|M] eqn:EM; try nia.
  cbn [binary_normalize]. unfold binary_round, fexp, emin.
  change (Z.pos (digits2_pos M)) with (Zdigits2 (Z.pos M)).
  set (d := Zdigits2 (Z.pos M)) in *.
  rewrite Z.max_l by lia.
  destruct (Z.le_gt_cases 53 d) as [Hge|Hlt].
  - assert (Es : shl_align M ez (d + ez - 53) = (M, ez)).
    { unfold shl_align. destruct (d + ez - 53 - ez) eqn:E; try lia; reflexivity. }
    rewrite Es.
    destruct (binary_round_aux_exact c K ez) as (m & Hr & Hm & Hk & Hv);
      rewrite ?EM; fold d; try lia.
    rewrite EM in Hr. fold d in Hr, Hk, Hv. rewrite EM in Hk, Hv. fold d in Hk, Hv.
    exists m. repeat split; assumption.
  - destruct (shl_align_value M ez (d + ez - 53) ltac:(lia)) as [Hv He].
    destruct (shl_align M ez (d + ez - 53)) as [mz e_z]. cbn [fst snd] in Hv, He.
    subst e_z.
    replace (ez - (d + ez - 53)) with (53 - d) in Hv by lia.
    assert (Emz : Z.pos mz = c * 2 ^ (K + (53 - d))).
    { rewrite Hv, <- EM, <- Z.mul_assoc, <- Z.pow_add_r by lia. reflexivity. }
    assert (Hdz : Zdigits2 (c * 2 ^ (K + (53 - d))) = 53).
    { rewrite Zdigits2_shift by lia. lia. }
    destruct (binary_round_aux_exact c (K + (53 - d)) (d + ez - 53))
      as (m & Hr & Hm & Hk & Hval); rewrite ?Hdz; try lia.
    rewrite Hdz in Hr, Hval. rewrite <- Emz in Hr.
    exists m. split; [rewrite Hr; f_equal; lia|].
    split; [exact Hm|]. split; [lia|].
    rewrite Hval. do 2 f_equal. lia.
Qed.

Lemma is_quarters_inv n x :
  is_quarters n x = true ->
  exists m e, x = S754_finite false m e /\ digits2_pos m = 53%positive /\
    -54 <= e <= -2 /\ Z.pos m = n * 2 ^ (-2 - e) /\ 0 < n < 2 ^ 53.
Proof.
  destruct x as [| | |[] m e]; try discriminate. cbn [is_quarters].
  rewrite !andb_true_iff, Pos.eqb_eq, Z.leb_le, Z.eqb_eq. intros [[Hd He] Hm].
  pose proof (digits2_pos_bounds m) as Hb. rewrite Hd in Hb.
  assert (Hp : 0 < 2 ^ (-2 - e)) by (apply Z.pow_pos_nonneg; lia).
  assert (Hn : 0 < n) by nia.
  assert (Hn2 : n < 2 ^ 53) by nia.
  exists m, e. repeat split; try assumption; try lia.
  destruct (Z.le_gt_cases (-54) e) as [|Hlt]; [assumption|exfalso].
  assert (2 ^ 53 <= 2 ^ (-2 - e)) by (apply Z.pow_le_mono_r; lia). nia.
Qed.

Lemma is_quarters_add n1 n2 x y :
  is_quarters n1 x = true -> is_quarters n2 y = true -> n1 + n2 < 2 ^ 53 ->
  is_quarters (n1 + n2) (SFadd 53 1024 x y) = true.
Proof.
  intros Hx Hy Hsum.
  apply is_quarters_inv in Hx as (m1 & e1 & -> & Hd1 & He1 & Hm1 & Hn1).
  apply is_quarters_inv in Hy as (m2 & e2 & -> & Hd2 & He2 & Hm2 & Hn2).
  cbn [SFadd cond_Zopp].
  set (ez := Z.min e1 e2).
  destruct (shl_align_value m1 e1 ez ltac:(lia)) as [Hv1 _].
  destruct (shl_align_value m2 e2 ez ltac:(lia)) as [Hv2 _].
  assert (Esum : Z.pos (shl_align m1 e1 ez).1 + Z.pos (shl_align m2 e2 ez).1
                 = (n1 + n2) * 2 ^ (-2 - ez)).
  { rewrite Hv1, Hv2, Hm1, Hm2, <- !Z.mul_assoc, <- !Z.pow_add_r by lia.
    replace (-2 - e1 + (e1 - ez)) with (-2 - ez) by lia.
    replace (-2 - e2 + (e2 - ez)) with (-2 - ez) by lia. lia. }
  rewrite Esum.
  assert (Hdn : 0 < Zdigits2 (n1 + n2) <= 53).
  { pose proof (Zdigits2_bounds (n1 + n2) ltac:(lia)) as [H1 H2].
    split; [destruct (n1 + n2); cbn; lia|].
    destruct (Z.le_gt_cases (Zdigits2 (n1 + n2)) 53) as [|Hgt]; [assumption|exfalso].
    assert (2 ^ 53 <= 2 ^ (Zdigits2 (n1 + n2) - 1)) by (apply Z.pow_le_mono_r; lia).
    lia. }
  assert (Hd : Zdigits2 ((n1 + n2) * 2 ^ (-2 - ez)) = Zdigits2 (n1 + n2) + (-2 - ez))
    by (apply Zdigits2_shift; lia).
  destruct (binary_normalize_exact (n1 + n2) (-2 - ez) ez) as (m & -> & Hm & Hk & Hv);
    rewrite ?Hd; try lia.
  rewrite Hd in Hk, Hv.
  cbn [is_quarters]. rewrite !andb_true_iff, Pos.eqb_eq, Z.leb_le, Z.eqb_eq.
  repeat split; [exact Hm|lia|].
  rewrite Hv. do 2 f_equal. lia.
Qed.

(** ** Differences *)



Local Open Scope Q_scope.



Local Close Scope Q_scope.

(** * The session-state tab: proofs *)

(** ** Running the script on a typed store *)

Lemma bind_run {A B} (m : script A) (f : A -> script B) s :
  (m ≫= f) s =
  match m s with
  | (Done a, s') => f a s'
  | (Raised, s') => (Raised, s')
  | (RerunRequested, s') => (RerunRequested, s')
  end.
Proof. reflexivity. Qed.

Lemma for_each_done {A} (body : A -> script unit) xs s :
  Forall (fun x => body x s = (Done tt, s)) xs ->
  for_each body xs s = (Done tt, s).
Proof.
  induction 1 as [|x xs Hx _ IH]; [done|].
  cbn [for_each]. rewrite bind_run, Hx. exact IH.
Qed.

Lemma render_history_done s h :
  s !! "history" = Some (PList h) -> Forall is_history_entry h ->
  render_history s = (Done tt, s).
Proof.
  intros Hh Hall. unfold render_history.
  rewrite bind_run. unfold getattr. rewrite Hh.
  destruct (truthy (PList h)); [|done].
  cbn [when last_ten]. rewrite bind_run. cbn [mret script_ret].
  rewrite bind_run. cbn [py_iter mret script_ret].
  apply for_each_done.
  apply Forall_drop. eapply Forall_impl; [exact Hall|].
  intros v (a & t & ->). reflexivity.
Qed.

Lemma contains_some key v s :
  s !! key = Some v -> contains key s = (Done true, s).
Proof. intros E. unfold contains. rewrite E. reflexivity. Qed.

Lemma getattr_some key v s :
  s !! key = Some v -> getattr key s = (Done v, s).
Proof. intros E. unfold getattr. now rewrite E. Qed.

Lemma append_to_list key x items s :
  s !! key = Some (PList items) ->
  append_to key x s = (Done tt, <[key := PList (items ++ [x])]> s).
Proof. intros E. unfold append_to. rewrite bind_run, (getattr_some _ _ _ E). reflexivity. Qed.

Lemma py_float_quantity qty s :
  1 <= qty <= 10 -> exists x, py_float (PInt qty) s = (Done x, s).
Proof.
  intros Hq.
  assert (Hall : forallb (fun n => match b64_of_int n with
                                   | S754_infinity _ => false
                                   | _ => true
                                   end) (seqZ 1 10) = true)
    by (vm_compute; reflexivity).
  rewrite forallb_forall in Hall.
  assert (Hin : In qty (seqZ 1 10)) by (apply list_elem_of_In, elem_of_seqZ; lia).
  specialize (Hall qty Hin). unfold py_float.
  destruct (b64_of_int qty); try discriminate; eexists; reflexivity.
Qed.

Lemma cart_record_quantity product qty price s :
  py_getitem (cart_record product qty price) "quantity" s = (Done (PInt qty), s).
Proof. reflexivity. Qed.

Lemma cart_record_price product qty price s :
  py_getitem (cart_record product qty price) "price" s = (Done (PFloat price), s).
Proof. reflexivity. Qed.

Lemma cart_record_product product qty price s :
  py_getitem (cart_record product qty price) "product" s = (Done (PStr product), s).
Proof. reflexivity. Qed.

(** The running total of the loop: the int 0 it starts from, or a float. *)
Lemma render_cart_items_done items : forall total s,
  Forall is_cart_item items ->
  total = PInt 0 \/ (exists x, total = PFloat x) ->
  exists total',
    render_cart_items total items s = (Done total', s) /\
    (total' = PInt 0 \/ exists x, total' = PFloat x).
Proof.
  induction items as [|item rest IH]; intros total s Hall Htotal.
  - exists total. split; [reflexivity|assumption].
  - apply Forall_cons in Hall as [(product & qty & price & -> & _ & Hq) Hrest].
    destruct (py_float_quantity qty s Hq) as [x Hx].
    assert (Hsub : py_mul (PInt qty) (PFloat price) s
                   = (Done (PFloat (SFmul 53 1024 x price)), s)).
    { unfold py_mul. rewrite bind_run, Hx. reflexivity. }
    assert (Hadd : exists t, py_add total (PFloat (SFmul 53 1024 x price)) s
                             = (Done (PFloat t), s)).
    { destruct Htotal as [->|[t ->]]; eexists; reflexivity. }
    destruct Hadd as [t Hadd].
    destruct (IH (PFloat t) s Hrest) as (total' & Hrun & Htotal'); [eauto|].
    exists total'. split; [|assumption].
    cbn [render_cart_items].
    repeat (rewrite bind_run;
            rewrite ?cart_record_quantity, ?cart_record_price,
                    ?cart_record_product, ?Hsub, ?Hadd;
            cbn [py_format_2f py_float mret script_ret];
            cbv beta iota).
    exact Hrun.
Qed.

Lemma render_cart_done items s :
  Forall is_cart_item items ->
  render_cart (PList items) s = (Done tt, s).
Proof.
  intros Hall. unfold render_cart. rewrite bind_run. cbn [py_iter mret script_ret].
  destruct (render_cart_items_done items (PInt 0) s Hall) as (total & Hrun & Htotal);
    [now left|].
  rewrite bind_run, Hrun.
  destruct Htotal as [->|[x ->]]; reflexivity.
Qed.

Lemma admitted_product i :
  admitted_input i -> exists price, products !! selected_product i = Some price.
Proof.
  intros [Hin _]. revert Hin. generalize (selected_product i). intros p Hin.
  cbn in Hin. rewrite !elem_of_cons in Hin. rewrite elem_of_nil in Hin.
  destruct Hin as [->|[->|[->|[->|[->|[]]]]]]; eexists; reflexivity.
Qed.


Lemma products_getitem_some name price s :
  products !! name = Some price -> products_getitem name s = (Done price, s).
Proof. intros E. unfold products_getitem. now rewrite E. Qed.

Ltac decide_buttons :=
  repeat match goal with
  | |- context [bool_decide (@eq (option button) ?a ?b)] =>
      let v := eval vm_compute in (bool_decide (a = b)) in
      change (bool_decide (a = b)) with v
  end.


Lemma new_history_entry action t : is_history_entry (history_entry action t).
Proof. now exists action, t. Qed.

Lemma new_cart_record i price :
  admitted_input i -> products !! selected_product i = Some price ->
  is_cart_item (cart_record (selected_product i) (quantity i) price).
Proof. intros [_ Hq] Hp. now exists (selected_product i), (quantity i), price. Qed.

Ltac typed_entries :=
  repeat first
    [ assumption | apply Forall_nil_2
    | apply Forall_app_2 | apply Forall_cons_2
    | apply new_history_entry | apply new_cart_record ].

Ltac known_call :=
  match goal with
  | |- context [contains ?k ?s] =>
      erewrite (contains_some k _ s) by (simplify_map_eq; reflexivity)
  | |- context [getattr ?k ?s] =>
      erewrite (getattr_some k _ s) by (simplify_map_eq; reflexivity)
  | |- context [append_to ?k ?x ?s] =>
      erewrite (append_to_list k x _ s) by (simplify_map_eq; reflexivity)
  | |- context [render_history ?s] =>
      erewrite (render_history_done s _);
        [ | simplify_map_eq; reflexivity | typed_entries ]
  | |- context [products_getitem ?k ?s] =>
      erewrite (products_getitem_some k _ s) by eassumption
  | |- context [render_cart (PList ?c) ?s] =>
      rewrite (render_cart_done c s) by typed_entries
  | |- context [when (truthy ?v)] => destruct (truthy v) eqn:?
  end.

Ltac run_step :=
  first [ rewrite bind_run | known_call
        | progress cbn [when negb mret script_ret setattr py_add_int py_sub_int
                        py_iter rerun]
        | progress cbv beta iota ].

Ltac run_script := repeat run_step.

Ltac finish_run :=
  do 2 eexists; split; [reflexivity|];
  repeat split; intros; simplify_map_eq; auto.

Lemma session_tab_typed i s n h c :
  s !! "counter" = Some (PInt n) ->
  s !! "history" = Some (PList h) -> Forall is_history_entry h ->
  s !! "cart" = Some (PList c) -> Forall is_cart_item c ->
  admitted_input i ->
  exists o s',
    session_tab i s = (o, s') /\
    (o = Done tt \/ o = RerunRequested /\ pressed i = Some ClearCart) /\
    s' !! "counter" = Some (PInt (next_counter i n)) /\
    s' !! "history" = Some (PList (next_history i h)) /\
    s' !! "cart" = Some (PList (next_cart i c)) /\
    (forall k, k ≠ "counter" -> k ≠ "history" -> k ≠ "cart" -> s' !! k = s !! k).
Proof.
  intros Hn Hh Hhall Hc Hcall Hadm.
  destruct (admitted_product i Hadm) as [price Hprice].
  unfold session_tab, is_pressed, next_counter, next_history, next_cart.
  rewrite Hprice.
  destruct (pressed i) as [[]|] eqn:Hp; decide_buttons.
  - run_script; finish_run.
  - run_script; finish_run.
  - run_script; finish_run.
  - run_script; finish_run.
  - run_script.
    + do 2 eexists; split; [reflexivity|].
      repeat split; intros; simplify_map_eq; auto.
    + assert (c = []) as ->.
      { match goal with E : truthy _ = false |- _ => cbn in E end.
        case_bool_decide; [assumption|discriminate]. }
      finish_run.
  - run_script; finish_run.
Qed.

Lemma interact_typed i s n h c :
  s !! "counter" = Some (PInt n) ->
  s !! "history" = Some (PList h) -> Forall is_history_entry h ->
  s !! "cart" = Some (PList c) -> Forall is_cart_item c ->
  admitted_input i ->
  exists s',
    interact i s = (Done tt, s') /\
    s' !! "counter" = Some (PInt (next_counter i n)) /\
    s' !! "history" = Some (PList (next_history i h)) /\
    s' !! "cart" = Some (PList (next_cart i c)) /\
    (forall k, k ≠ "counter" -> k ≠ "history" -> k ≠ "cart" -> s' !! k = s !! k).
Proof.
  intros Hn Hh Hhall Hc Hcall Hadm.
  destruct (session_tab_typed i s n h c) as (o & s1 & Hrun & Ho & Hn1 & Hh1 & Hc1 & Hk1);
    try assumption.
  unfold interact. rewrite Hrun.
  destruct Ho as [->|[-> Hp]].
  - exists s1. auto.
  - set (i' := {| pressed := None; now := now i;
                  selected_product := selected_product i;
                  quantity := quantity i |}).
    assert (Hcall1 : Forall is_cart_item (next_cart i c)).
    { unfold next_cart. rewrite Hp. constructor. }
    assert (Hhall1 : Forall is_history_entry (next_history i h)).
    { unfold next_history. now rewrite Hp. }
    destruct (session_tab_typed i' s1 _ _ _ Hn1 Hh1 Hhall1 Hc1 Hcall1)
      as (o & s2 & Hrun2 & Ho2 & Hn2 & Hh2 & Hc2 & Hk2).
    { exact Hadm. }
    rewrite Hrun2.
    destruct Ho2 as [->|[_ Hp2]]; [|discriminate Hp2].
    exists s2. split; [reflexivity|].
    repeat split; try assumption.
    intros k ? ? ?. rewrite Hk2 by assumption. now apply Hk1.
Qed.

Lemma grows_bind {A B} (m : script A) (f : A -> script B) :
  grows m -> (forall a, grows (f a)) -> grows (m ≫= f).
Proof.
  intros Hm Hf s. rewrite bind_run. specialize (Hm s).
  destruct (m s) as [[a| |] s1]; cbn [snd] in *; [|assumption..].
  etrans; [exact Hm|apply Hf].
Qed.

Lemma grows_pure {A} (m : script A) : (forall s, (m s).2 = s) -> grows m.
Proof. intros E s. now rewrite E. Qed.

Lemma grows_when b (body : script unit) : grows body -> grows (when b body).
Proof. destruct b; [auto|]. intros _. now apply grows_pure. Qed.

Lemma grows_for_each {A} (body : A -> script unit) xs :
  (forall x, grows (body x)) -> grows (for_each body xs).
Proof.
  intros Hb. induction xs as [|x xs IH]; cbn [for_each].
  - now apply grows_pure.
  - apply grows_bind; auto.
Qed.

Lemma grows_init {A} key v (rest : script A) :
  grows rest ->
  grows (has ← contains key; when (negb has) (setattr key v);; rest).
Proof.
  intros Hrest s. rewrite bind_run. unfold contains.
  destruct (s !! key) as [w|] eqn:E.
  - rewrite bool_decide_eq_true_2 by eauto. apply Hrest.
  - rewrite bool_decide_eq_false_2 by (intros [? ?]; discriminate).
    cbn [negb when]. rewrite bind_run. cbn [setattr].
    etrans; [|apply Hrest]. now apply insert_subseteq.
Qed.

Lemma grows_getattr key : grows (getattr key).
Proof. apply grows_pure. intros s. unfold getattr. now destruct (s !! key). Qed.

Lemma grows_raise {A} : grows (@raise A).
Proof. now apply grows_pure. Qed.

Lemma grows_mret {A} (a : A) : grows (mret a).
Proof. now apply grows_pure. Qed.

Lemma grows_py_iter v : grows (py_iter v).
Proof. destruct v; now apply grows_pure. Qed.

Lemma grows_last_ten v : grows (last_ten v).
Proof. destruct v; now apply grows_pure. Qed.

Lemma grows_py_getitem v k : grows (py_getitem v k).
Proof.
  destruct v; try now apply grows_pure.
  cbn. destruct (_ !! _); now apply grows_pure.
Qed.

Lemma grows_render_history : grows render_history.
Proof.
  unfold render_history.
  apply grows_bind; [apply grows_getattr|intros h].
  apply grows_when, grows_bind; [apply grows_last_ten|intros r].
  apply grows_bind; [apply grows_py_iter|intros es].
  apply grows_for_each. intros e.
  apply grows_bind; [apply grows_py_iter|intros p].
  destruct p as [|a [|[] [|]]]; first [apply grows_mret | apply grows_raise].
Qed.

Lemma grows_py_float v : grows (py_float v).
Proof.
  destruct v; try now apply grows_pure.
  cbn. destruct (b64_of_int n); now apply grows_pure.
Qed.

Lemma grows_py_mul a b : grows (py_mul a b).
Proof.
  unfold py_mul.
  destruct a, b;
    repeat first [ apply grows_mret | apply grows_py_float
                 | apply grows_bind; [|intros ?] ].
Qed.

Lemma grows_py_add a b : grows (py_add a b).
Proof.
  unfold py_add.
  destruct a, b;
    repeat first [ apply grows_mret | apply grows_py_float
                 | apply grows_bind; [|intros ?] ].
Qed.

Lemma grows_py_format_2f v : grows (py_format_2f v).
Proof. apply grows_bind; [apply grows_py_float|intros ?; apply grows_mret]. Qed.

Lemma grows_render_cart_items items : forall total,
  grows (render_cart_items total items).
Proof.
  induction items as [|item rest IH]; intros total; cbn [render_cart_items].
  - apply grows_mret.
  - repeat first
      [ apply IH | apply grows_py_getitem | apply grows_py_mul
      | apply grows_py_add | apply grows_py_format_2f
      | apply grows_bind; [|intros ?] ].
Qed.

Lemma grows_render_cart v : grows (render_cart v).
Proof.
  unfold render_cart.
  apply grows_bind; [apply grows_py_iter|intros items].
  apply grows_bind; [apply grows_render_cart_items|intros total].
  apply grows_py_format_2f.
Qed.

Lemma session_tab_no_press_grows i :
  pressed i = None -> grows (session_tab i).
Proof.
  intros Hp. unfold session_tab, is_pressed. rewrite Hp. decide_buttons.
  repeat first
    [ apply grows_init | apply grows_getattr | apply grows_render_history
    | apply grows_mret | apply grows_render_cart
    | apply grows_when
    | apply grows_bind; [|intros ?] ].
Qed.


Lemma first_load i :
  pressed i = None -> interact i ∅ = (Done tt, fresh_store).
Proof.
  destruct i as [b t p q]. cbn [pressed]. intros ->.
  vm_compute. reflexivity.
Qed.

Lemma fresh_store_typed : well_typed fresh_store.
Proof.
  split.
  - exists 0. reflexivity.
  - exists []. split; [reflexivity|constructor].
  - exists []. split; [reflexivity|constructor].
Qed.

Lemma interact_no_press_keeps i s k v :
  pressed i = None -> s !! k = Some v -> (interact i s).2 !! k = Some v.
Proof.
  intros Hp Hk. unfold interact.
  pose proof (session_tab_no_press_grows i Hp s) as H1.
  destruct (session_tab i s) as [[[]| |] s1] eqn:E; cbn [snd] in *;
    try (eapply lookup_weaken; eassumption).
  eapply lookup_weaken; [|apply session_tab_no_press_grows; reflexivity].
  eapply lookup_weaken; eassumption.
Qed.

Lemma interact_well_typed i s :
  well_typed s -> admitted_input i ->
  exists s', interact i s = (Done tt, s') /\ well_typed s'.
Proof.
  intros [[n Hn] [h [Hh Hhall]] [c [Hc Hcall]]] Hadm.
  destruct (interact_typed i s n h c) as (s' & Hrun & Hn' & Hh' & Hc' & _);
    try assumption.
  exists s'. split; [assumption|]. split.
  - eauto.
  - eexists; split; [eassumption|].
    unfold next_history. destruct (pressed i) as [[]|]; typed_entries.
  - eexists; split; [eassumption|].
    unfold next_cart. destruct (pressed i) as [[]|]; typed_entries.
    destruct (products !! selected_product i) eqn:E; typed_entries.
Qed.

Lemma reachable_well_typed s : reachable s -> well_typed s.
Proof.
  induction 1 as [i Hp Hadm|i s Hs IH Hadm].
  - rewrite first_load by assumption. apply fresh_store_typed.
  - destruct (interact_well_typed i s IH Hadm) as (s' & -> & Hs'). exact Hs'.
Qed.

Lemma count_action_snoc action a t h :
  count_action action (h ++ [history_entry a t]) =
  count_action action h + (if decide (a = action) then 1 else 0).
Proof.
  unfold count_action. rewrite filter_app, length_app, Nat2Z.inj_add.
  f_equal. cbn [history_entry entry_action].
  rewrite filter_cons, filter_nil. cbn [entry_action].
  destruct (decide (a = action)) as [->|Hne].
  - rewrite decide_True by reflexivity. reflexivity.
  - rewrite decide_False by (intros [= ?]; contradiction). reflexivity.
Qed.

Lemma sample_store_typed : well_typed sample_store.
Proof.
  split.
  - exists 2. reflexivity.
  - eexists. split; [reflexivity|]. typed_entries.
  - eexists. split; [reflexivity|].
    repeat constructor. exists "Milk", 3, (b64_lit 350 100).
    split; [reflexivity|]. split; [reflexivity|lia].
Qed.

Lemma click_admitted b : admitted_input (click b).
Proof. split; [apply list_elem_of_here|cbn; lia]. Qed.

(** ** The claims about the session variables *)

(** C4. Lifecycle of [counter], [history] and [cart]: the first load creates
    them with the values 0, [[]] and [[]]; on a run with no button pressed a
    variable that exists keeps its value, whatever that value is; a run
    caused by Reset leaves [counter = 0] and [history = []]; a run caused by
    Clear Cart leaves [cart = []]. *)
Theorem session_variable_lifecycle :
  (forall i, pressed i = None ->
     exists s0, interact i ∅ = (Done tt, s0) /\
       s0 !! "counter" = Some (PInt 0) /\
       s0 !! "history" = Some (PList []) /\
       s0 !! "cart" = Some (PList [])) /\
  (forall i s k v, pressed i = None -> s !! k = Some v ->
     (interact i s).2 !! k = Some v) /\
  (forall i s, well_typed s -> admitted_input i -> pressed i = Some Reset ->
     (interact i s).2 !! "counter" = Some (PInt 0) /\
     (interact i s).2 !! "history" = Some (PList [])) /\
  (forall i s, well_typed s -> admitted_input i -> pressed i = Some ClearCart ->
     (interact i s).2 !! "cart" = Some (PList [])).
Proof.
  split; [|split; [|split]].
  - intros i Hp. exists fresh_store. rewrite first_load by assumption.
    now repeat split.
  - intros i s k v Hp Hk. now apply interact_no_press_keeps.
  - intros i s [[n Hn] [h [Hh Hhall]] [c [Hc Hcall]]] Hadm Hp.
    destruct (interact_typed i s n h c) as (s' & -> & Hn' & Hh' & _);
      try assumption.
    revert Hn' Hh'. unfold next_counter, next_history. rewrite Hp. now split.
  - intros i s [[n Hn] [h [Hh Hhall]] [c [Hc Hcall]]] Hadm Hp.
    destruct (interact_typed i s n h c) as (s' & -> & _ & _ & Hc' & _);
      try assumption.
    revert Hc'. unfold next_cart. now rewrite Hp.
Qed.

Lemma session_variable_lifecycle_witness :
  pressed (click None) = None /\
  well_typed sample_store /\ admitted_input (click (Some Reset)) /\
  sample_store !! "cart" = Some (PList [cart_record "Milk" 3 (b64_lit 350 100)]) /\
  (exists s0, interact (click None) ∅ = (Done tt, s0) /\
     s0 !! "counter" = Some (PInt 0) /\
     s0 !! "history" = Some (PList []) /\
     s0 !! "cart" = Some (PList [])) /\
  (interact (click None) sample_store).2 !! "cart"
    = Some (PList [cart_record "Milk" 3 (b64_lit 350 100)]) /\
  (interact (click (Some Reset)) sample_store).2 !! "counter" = Some (PInt 0) /\
  (interact (click (Some Reset)) sample_store).2 !! "history" = Some (PList []) /\
  (interact (click (Some ClearCart)) sample_store).2 !! "cart" = Some (PList []).
Proof.
  destruct session_variable_lifecycle as (Hload & Hkeep & Hreset & Hclear).
  split; [reflexivity|]. split; [exact sample_store_typed|].
  split; [exact (click_admitted _)|]. split; [reflexivity|].
  split; [exact (Hload (click None) eq_refl)|].
  split; [exact (Hkeep (click None) sample_store "cart" _ eq_refl eq_refl)|].
  split; [exact (proj1 (Hreset (click (Some Reset)) sample_store
                   sample_store_typed (click_admitted _) eq_refl))|].
  split; [exact (proj2 (Hreset (click (Some Reset)) sample_store
                   sample_store_typed (click_admitted _) eq_refl))|].
  exact (Hclear (click (Some ClearCart)) sample_store
           sample_store_typed (click_admitted _) eq_refl).
Defined.

(** C5. In every store reachable from the first load by any sequence of
    clicks (the cart buttons included), [counter] is the number of
    ['increment'] entries of [history] minus the number of ['decrement']
    entries. *)
Theorem counter_is_increments_minus_decrements s :
  reachable s -> counter_matches_history s.
Proof.
  induction 1 as [i Hp Hadm|i s Hs IH Hadm].
  - rewrite first_load by assumption. exists 0, []. now repeat split.
  - destruct IH as (n & h & Hn & Hh & Heq).
    destruct (reachable_well_typed s Hs) as [_ [h' [Hh' Hhall]] [c [Hc Hcall]]].
    assert (h' = h) as -> by congruence.
    destruct (interact_typed i s n h c) as (s' & -> & Hn' & Hh'' & _);
      try assumption.
    exists (next_counter i n), (next_history i h).
    split; [assumption|]. split; [assumption|].
    unfold next_counter, next_history.
    destruct (pressed i) as [[]|]; rewrite ?count_action_snoc;
      repeat case_decide; try discriminate; try contradiction;
      rewrite ?Heq; try reflexivity; lia.
Qed.

Lemma counter_is_increments_minus_decrements_witness :
  reachable (interact (click (Some Increment)) (interact (click None) ∅).2).2 /\
  counter_matches_history
    (interact (click (Some Increment)) (interact (click None) ∅).2).2.
Proof.
  assert (Hr : reachable
            (interact (click (Some Increment)) (interact (click None) ∅).2).2).
  { apply reach_click; [apply reach_load; [reflexivity|]|]; apply click_admitted. }
  split; [exact Hr|].
  exact (counter_is_increments_minus_decrements _ Hr).
Defined.

(** C6. On a typed store, the run caused by Reset changes no session
    variable other than [counter] and [history] (so [cart] is as before), and
    the run caused by Clear Cart changes none other than [cart]. *)
Theorem reset_and_clear_cart_frame i s :
  well_typed s -> admitted_input i ->
  (pressed i = Some Reset ->
     forall k, k ≠ "counter" -> k ≠ "history" ->
       (interact i s).2 !! k = s !! k) /\
  (pressed i = Some ClearCart ->
     forall k, k ≠ "cart" -> (interact i s).2 !! k = s !! k).
Proof.
  intros [[n Hn] [h [Hh Hhall]] [c [Hc Hcall]]] Hadm.
  destruct (interact_typed i s n h c) as (s' & -> & Hn' & Hh' & Hc' & Hk);
    try assumption.
  cbn [snd]. split; intros Hp k.
  - intros Hk1 Hk2. destruct (decide (k = "cart")) as [->|Hk3].
    + rewrite Hc', Hc. unfold next_cart. now rewrite Hp.
    + now apply Hk.
  - intros Hk3.
    destruct (decide (k = "counter")) as [->|Hk1].
    { rewrite Hn', Hn. unfold next_counter. now rewrite Hp. }
    destruct (decide (k = "history")) as [->|Hk2].
    { rewrite Hh', Hh. unfold next_history. now rewrite Hp. }
    now apply Hk.
Qed.

Lemma reset_and_clear_cart_frame_witness :
  well_typed sample_store /\ admitted_input (click (Some Reset)) /\
  (interact (click (Some Reset)) sample_store).2 !! "cart"
    = sample_store !! "cart" /\
  (interact (click (Some ClearCart)) sample_store).2 !! "counter"
    = sample_store !! "counter" /\
  (interact (click (Some ClearCart)) sample_store).2 !! "history"
    = sample_store !! "history".
Proof.
  split; [exact sample_store_typed|]. split; [exact (click_admitted _)|].
  pose proof (reset_and_clear_cart_frame (click (Some Reset)) sample_store
                sample_store_typed (click_admitted _)) as [Hreset _].
  pose proof (reset_and_clear_cart_frame (click (Some ClearCart)) sample_store
                sample_store_typed (click_admitted _)) as [_ Hclear].
  split; [|split].
  - apply (Hreset eq_refl); discriminate.
  - apply (Hclear eq_refl); discriminate.
  - apply (Hclear eq_refl); discriminate.
Defined.

(** C8. Every run of the script on a typed store with admitted widget
    values, whichever of the five buttons caused it, ends without an
    exception in a typed store: [counter] is an int, [history] a list of
    [(action, timestamp)] pairs, [cart] a list of dicts with exactly the keys
    [product], [quantity], [price], the product a key of [products], the
    quantity an int between 1 and 10 and the price the table's entry for
    the product.  The first load produces such a store. *)
Theorem buttons_preserve_types i s :
  well_typed s -> admitted_input i ->
  well_typed fresh_store /\
  exists s', interact i s = (Done tt, s') /\ well_typed s'.
Proof.
  intros Hs Hadm. split; [apply fresh_store_typed|].
  now apply interact_well_typed.
Qed.

Lemma buttons_preserve_types_witness :
  well_typed sample_store /\ admitted_input (click (Some AddToCart)) /\
  well_typed fresh_store /\
  exists s', interact (click (Some AddToCart)) sample_store = (Done tt, s') /\
             well_typed s'.
Proof.
  split; [exact sample_store_typed|]. split; [exact (click_admitted _)|].
  exact (buttons_preserve_types (click (Some AddToCart)) sample_store
           sample_store_typed (click_admitted _)).
Defined.

(** * Further properties of the session tab *)

(** ** Reruns *)


Lemma no_rerun_bind {A B} (m : script A) (f : A -> script B) :
  no_rerun m -> (forall a, no_rerun (f a)) -> no_rerun (m ≫= f).
Proof.
  intros Hm Hf s. rewrite bind_run. specialize (Hm s).
  destruct (m s) as [[a| |] s1]; cbn [fst] in *;
    [apply Hf|discriminate|contradiction].
Qed.

Lemma no_rerun_total {A} (m : script A) :
  (forall s, (m s).1 = Raised \/ exists a, (m s).1 = Done a) -> no_rerun m.
Proof. intros Hm s. destruct (Hm s) as [->|[a ->]]; discriminate. Qed.

Lemma no_rerun_mret {A} (a : A) : no_rerun (mret a).
Proof. intros s. discriminate. Qed.

Lemma no_rerun_raise {A} : no_rerun (@raise A).
Proof. intros s. discriminate. Qed.

Lemma no_rerun_contains key : no_rerun (contains key).
Proof. intros s. discriminate. Qed.

Lemma no_rerun_getattr key : no_rerun (getattr key).
Proof. intros s. unfold getattr. destruct (s !! key); discriminate. Qed.

Lemma no_rerun_setattr key v : no_rerun (setattr key v).
Proof. intros s. discriminate. Qed.

Lemma no_rerun_when b (body : script unit) :
  (b = true -> no_rerun body) -> no_rerun (when b body).
Proof. destruct b; [auto|]. intros _. apply no_rerun_mret. Qed.

Lemma no_rerun_for_each {A} (body : A -> script unit) xs :
  (forall x, no_rerun (body x)) -> no_rerun (for_each body xs).
Proof.
  intros Hb. induction xs as [|x xs IH]; cbn [for_each].
  - apply no_rerun_mret.
  - apply no_rerun_bind; auto.
Qed.

Lemma no_rerun_py_iter v : no_rerun (py_iter v).
Proof. destruct v; intros st; discriminate. Qed.

Lemma no_rerun_last_ten v : no_rerun (last_ten v).
Proof. destruct v; intros st; discriminate. Qed.

Lemma no_rerun_py_getitem v k : no_rerun (py_getitem v k).
Proof.
  destruct v; try (intros st; discriminate).
  cbn. destruct (_ !! _); intros st; discriminate.
Qed.

Lemma no_rerun_py_float v : no_rerun (py_float v).
Proof.
  destruct v; try (intros st; discriminate).
  cbn. destruct (b64_of_int n); intros st; discriminate.
Qed.

Ltac no_rerun_steps :=
  repeat first
    [ apply no_rerun_mret | apply no_rerun_raise | apply no_rerun_contains
    | apply no_rerun_getattr | apply no_rerun_setattr | apply no_rerun_py_iter
    | apply no_rerun_last_ten | apply no_rerun_py_getitem
    | apply no_rerun_py_float
    | apply no_rerun_bind; [|intros ?] ].

Lemma no_rerun_py_mul a b : no_rerun (py_mul a b).
Proof. unfold py_mul. destruct a, b; no_rerun_steps. Qed.

Lemma no_rerun_py_add a b : no_rerun (py_add a b).
Proof. unfold py_add. destruct a, b; no_rerun_steps. Qed.

Lemma no_rerun_py_format_2f v : no_rerun (py_format_2f v).
Proof. unfold py_format_2f. no_rerun_steps. Qed.

Lemma no_rerun_py_add_int v n : no_rerun (py_add_int v n).
Proof. destruct v; intros st; discriminate. Qed.

Lemma no_rerun_py_sub_int v n : no_rerun (py_sub_int v n).
Proof. destruct v; intros st; discriminate. Qed.

Lemma no_rerun_append_to key x : no_rerun (append_to key x).
Proof.
  unfold append_to. apply no_rerun_bind; [apply no_rerun_getattr|intros v].
  destruct v; first [apply no_rerun_raise | apply no_rerun_setattr].
Qed.

Lemma no_rerun_products_getitem name : no_rerun (products_getitem name).
Proof.
  unfold products_getitem. destruct (products !! name); intros s; discriminate.
Qed.

Lemma no_rerun_render_history : no_rerun render_history.
Proof.
  unfold render_history.
  apply no_rerun_bind; [apply no_rerun_getattr|intros h].
  apply no_rerun_when. intros _.
  apply no_rerun_bind; [apply no_rerun_last_ten|intros r].
  apply no_rerun_bind; [apply no_rerun_py_iter|intros es].
  apply no_rerun_for_each. intros e.
  apply no_rerun_bind; [apply no_rerun_py_iter|intros p].
  destruct p as [|a [|[] [|]]]; first [apply no_rerun_mret | apply no_rerun_raise].
Qed.

Lemma no_rerun_render_cart_items items : forall total,
  no_rerun (render_cart_items total items).
Proof.
  induction items as [|item rest IH]; intros total; cbn [render_cart_items].
  - apply no_rerun_mret.
  - repeat first
      [ apply IH | apply no_rerun_py_getitem | apply no_rerun_py_mul
      | apply no_rerun_py_add | apply no_rerun_py_format_2f
      | apply no_rerun_bind; [|intros ?] ].
Qed.

Lemma no_rerun_render_cart v : no_rerun (render_cart v).
Proof.
  unfold render_cart.
  apply no_rerun_bind; [apply no_rerun_py_iter|intros items].
  apply no_rerun_bind; [apply no_rerun_render_cart_items|intros total].
  apply no_rerun_py_format_2f.
Qed.

Lemma session_tab_no_rerun i :
  pressed i <> Some ClearCart -> no_rerun (session_tab i).
Proof.
  intros Hp. unfold session_tab.
  assert (is_pressed i ClearCart = false) as ->.
  { unfold is_pressed. now apply bool_decide_eq_false_2. }
  repeat first
    [ apply no_rerun_mret | apply no_rerun_contains | apply no_rerun_getattr
    | apply no_rerun_setattr | apply no_rerun_render_history
    | apply no_rerun_render_cart | apply no_rerun_py_add_int
    | apply no_rerun_py_sub_int | apply no_rerun_append_to
    | apply no_rerun_products_getitem
    | apply no_rerun_when; intros _
    | apply no_rerun_bind; [|intros ?] ].
Qed.

(** [st.rerun()] is requested only by a Clear Cart click, and the run it
    starts never requests another one: whatever the store holds, an
    interaction is over after at most two runs of the script. *)
Theorem rerun_only_after_clear_cart_and_only_once i s :
  ((session_tab i s).1 = RerunRequested -> pressed i = Some ClearCart) /\
  (interact i s).1 <> RerunRequested.
Proof.
  split.
  - intros Hr. destruct (decide (pressed i = Some ClearCart)) as [|Hne]; [assumption|].
    now destruct (session_tab_no_rerun i Hne s).
  - unfold interact.
    destruct (session_tab i s) as [[[]| |] s1] eqn:E; cbn [fst]; try discriminate.
    apply session_tab_no_rerun. discriminate.
Qed.

Lemma rerun_only_after_clear_cart_and_only_once_witness :
  (session_tab (click (Some ClearCart)) sample_store).1 = RerunRequested /\
  pressed (click (Some ClearCart)) = Some ClearCart /\
  (interact (click (Some ClearCart)) sample_store).1 <> RerunRequested.
Proof.
  pose proof (rerun_only_after_clear_cart_and_only_once
                (click (Some ClearCart)) sample_store) as [Hpress Honce].
  assert (Hrerun : (session_tab (click (Some ClearCart)) sample_store).1
                   = RerunRequested) by (vm_compute; reflexivity).
  split; [exact Hrerun|]. split; [exact (Hpress Hrerun)|exact Honce].
Defined.

(** ** What each button does to the store *)

(** Add to Cart appends one record, built from the widget values and the
    price table, to the end of the cart and touches nothing else; the same
    product added twice gives two records. *)
Theorem add_to_cart_appends i s c :
  well_typed s -> admitted_input i -> pressed i = Some AddToCart ->
  s !! "cart" = Some (PList c) ->
  exists s' price,
    interact i s = (Done tt, s') /\
    products !! selected_product i = Some price /\
    s' !! "cart" =
      Some (PList (c ++ [cart_record (selected_product i) (quantity i) price])) /\
    forall k, k ≠ "cart" -> s' !! k = s !! k.
Proof.
  intros [[n Hn] [h [Hh Hhall]] [c' [Hc Hcall]]] Hadm Hp Hcart.
  assert (c' = c) as -> by congruence.
  destruct (admitted_product i Hadm) as [price Hprice].
  destruct (interact_typed i s n h c) as (s' & Hrun & Hn' & Hh' & Hc' & Hk);
    try assumption.
  exists s', price. split; [exact Hrun|]. split; [exact Hprice|].
  unfold next_counter, next_history, next_cart in *. rewrite Hp in *.
  rewrite Hprice in Hc'. split; [exact Hc'|].
  intros k Hk3.
  destruct (decide (k = "counter")) as [->|Hk1]; [congruence|].
  destruct (decide (k = "history")) as [->|Hk2]; [congruence|].
  now apply Hk.
Qed.

Lemma add_to_cart_appends_witness :
  well_typed sample_store /\ admitted_input (click (Some AddToCart)) /\
  exists s' price,
    interact (click (Some AddToCart)) sample_store = (Done tt, s') /\
    products !! "Apple" = Some price /\
    s' !! "cart" =
      Some (PList [cart_record "Milk" 3 (b64_lit 350 100);
                   cart_record "Apple" 1 price]) /\
    forall k, k ≠ "cart" -> s' !! k = sample_store !! k.
Proof.
  split; [exact sample_store_typed|]. split; [exact (click_admitted _)|].
  exact (add_to_cart_appends (click (Some AddToCart)) sample_store
           [cart_record "Milk" 3 (b64_lit 350 100)]
           sample_store_typed (click_admitted _) eq_refl eq_refl).
Defined.

(** Increment and Decrement move the counter by one, log the action with the
    current time at the end of the history, and touch nothing else. *)
Theorem increment_decrement_step i s n h :
  well_typed s -> admitted_input i ->
  s !! "counter" = Some (PInt n) -> s !! "history" = Some (PList h) ->
  (pressed i = Some Increment ->
     exists s', interact i s = (Done tt, s') /\
       s' !! "counter" = Some (PInt (n + 1)) /\
       s' !! "history" = Some (PList (h ++ [history_entry "increment" (now i)])) /\
       forall k, k ≠ "counter" -> k ≠ "history" -> s' !! k = s !! k) /\
  (pressed i = Some Decrement ->
     exists s', interact i s = (Done tt, s') /\
       s' !! "counter" = Some (PInt (n - 1)) /\
       s' !! "history" = Some (PList (h ++ [history_entry "decrement" (now i)])) /\
       forall k, k ≠ "counter" -> k ≠ "history" -> s' !! k = s !! k).
Proof.
  intros [[n' Hn] [h' [Hh Hhall]] [c [Hc Hcall]]] Hadm Hn0 Hh0.
  assert (n' = n) as -> by congruence.
  assert (h' = h) as -> by congruence.
  destruct (interact_typed i s n h c) as (s' & Hrun & Hn' & Hh' & Hc' & Hk);
    try assumption.
  unfold next_counter, next_history, next_cart in *.
  split; intros Hp; rewrite Hp in *; exists s';
    (split; [exact Hrun|]); (split; [exact Hn'|]); (split; [exact Hh'|]);
    intros k Hk1 Hk2;
    (destruct (decide (k = "cart")) as [->|Hk3]; [congruence|now apply Hk]).
Qed.

Lemma increment_decrement_step_witness :
  well_typed sample_store /\ admitted_input (click (Some Increment)) /\
  (exists s', interact (click (Some Increment)) sample_store = (Done tt, s') /\
     s' !! "counter" = Some (PInt 3)) /\
  (exists s', interact (click (Some Decrement)) sample_store = (Done tt, s') /\
     s' !! "counter" = Some (PInt 1)).
Proof.
  split; [exact sample_store_typed|]. split; [exact (click_admitted _)|].
  pose proof (increment_decrement_step (click (Some Increment)) sample_store 2
                [history_entry "increment" 10; history_entry "increment" 20]
                sample_store_typed (click_admitted _) eq_refl eq_refl)
    as [Hinc _].
  pose proof (increment_decrement_step (click (Some Decrement)) sample_store 2
                [history_entry "increment" 10; history_entry "increment" 20]
                sample_store_typed (click_admitted _) eq_refl eq_refl)
    as [_ Hdec].
  split.
  - destruct (Hinc eq_refl) as (s' & Hrun & Hn & _). exists s'. now split.
  - destruct (Hdec eq_refl) as (s' & Hrun & Hn & _). exists s'. now split.
Defined.



(** A product that is not in the price table makes [products[...]] raise
    before anything is appended: the run stops and the store is as it was. *)
Theorem add_unknown_product_changes_nothing i s :
  well_typed s -> pressed i = Some AddToCart ->
  products !! selected_product i = None ->
  interact i s = (Raised, s).
Proof.
  intros [[n Hn] [h [Hh Hhall]] [c [Hc Hcall]]] Hp Hnone.
  unfold interact, session_tab, is_pressed. rewrite Hp. decide_buttons.
  run_script.
  unfold products_getitem. rewrite Hnone. reflexivity.
Qed.

Lemma add_unknown_product_changes_nothing_witness :
  well_typed sample_store /\
  products !! selected_product click_unknown_product = None /\
  interact click_unknown_product sample_store = (Raised, sample_store).
Proof.
  split; [exact sample_store_typed|]. split; [reflexivity|].
  exact (add_unknown_product_changes_nothing click_unknown_product sample_store
           sample_store_typed eq_refl eq_refl).
Defined.


(** ** The total of the cart *)


Local Open Scope Q_scope.

Lemma is_quarters_value n x :
  is_quarters n x = true -> b64_value x == inject_Z n * (1 # 4).
Proof.
  intros Hx. apply is_quarters_inv in Hx as (m & e & -> & _ & He & Hm & _).
  cbn [b64_value]. rewrite Hm, inject_Z_mult, <- pow2_Q_of_Z by lia.
  rewrite <- Qmult_assoc, <- pow2_Q_add.
  replace (-2 - e + e)%Z with (-2)%Z by lia. reflexivity.
Qed.

(** Every price of the table is a whole number of quarters, and so is every
    subtotal the quantity widget allows. *)
Lemma subtotal_quarters product price qty :
  products !! product = Some price -> (1 <= qty <= 10)%Z ->
  (forall s, py_float (PInt qty) s = (Done (b64_of_int qty), s)) /\
  (0 < quarters_of price)%Z /\
  is_quarters (quarters_of price) price = true /\
  is_quarters (qty * quarters_of price)
    (SFmul 53 1024 (b64_of_int qty) price) = true.
Proof.
  intros Hprice Hq.
  assert (Hall : forallb (fun qp : Z * (string * float64) =>
            match b64_of_int qp.1 with S754_infinity _ => false | _ => true end
            && (0 <? quarters_of qp.2.2)%Z
            && is_quarters (quarters_of qp.2.2) qp.2.2
            && is_quarters (qp.1 * quarters_of qp.2.2)
                 (SFmul 53 1024 (b64_of_int qp.1) qp.2.2))
            (list_prod (seqZ 1 10) products_items) = true)
    by (vm_compute; reflexivity).
  rewrite forallb_forall in Hall.
  assert (Hin : In (qty, (product, price)) (list_prod (seqZ 1 10) products_items)).
  { apply in_prod.
    - apply list_elem_of_In, elem_of_seqZ. lia.
    - apply list_elem_of_In. now apply elem_of_list_to_map_2. }
  specialize (Hall _ Hin). cbn [fst snd] in Hall.
  rewrite !andb_true_iff, Z.ltb_lt in Hall. destruct Hall as [[[H1 H2] H3] H4].
  split; [|auto].
  intros s. unfold py_float. destruct (b64_of_int qty); try discriminate; reflexivity.
Qed.

Lemma exact_subtotal_record product qty price :
  exact_subtotal (cart_record product qty price) = inject_Z qty * b64_value price.
Proof. reflexivity. Qed.

Lemma exact_subtotal_pos item :
  is_cart_item item -> 0 < exact_subtotal item.
Proof.
  intros (product & qty & price & -> & Hprice & Hq).
  destruct (subtotal_quarters product price qty Hprice Hq) as (_ & Hpos & Hpq & _).
  rewrite exact_subtotal_record, (is_quarters_value _ _ Hpq).
  assert (0 < inject_Z qty) by (change 0 with (inject_Z 0); rewrite <- Zlt_Qlt; lia).
  assert (0 < inject_Z (quarters_of price))
    by (change 0 with (inject_Z 0); rewrite <- Zlt_Qlt; lia).
  apply Qmult_lt_0_compat; [assumption|]. apply Qmult_lt_0_compat; [assumption|reflexivity].
Qed.

Lemma exact_total_nonneg items :
  Forall is_cart_item items -> 0 <= exact_total items.
Proof.
  induction 1 as [|item rest Hitem _ IH]; cbn [exact_total foldr]; [discriminate|].
  fold (exact_total rest). pose proof (exact_subtotal_pos item Hitem). lra.
Qed.

Lemma render_cart_items_exact items : forall total acc s,
  Forall is_cart_item items ->
  running_total acc total ->
  acc + exact_total items < inject_Z (2 ^ 51) ->
  exists total',
    render_cart_items total items s = (Done total', s) /\
    running_total (acc + exact_total items) total'.
Proof.
  induction items as [|item rest IH]; intros total acc s Hall Htotal Hbound.
  - exists total. split; [reflexivity|].
    cbn [exact_total foldr].
    destruct Htotal as [[-> Hacc]|(t & n & -> & Hn & Hv)].
    + left. split; [reflexivity|]. rewrite Hacc. reflexivity.
    + right. exists t, n. repeat split; [assumption|]. rewrite Hv. ring.
  - apply Forall_cons in Hall as [Hitem Hrest].
    pose proof (exact_subtotal_pos item Hitem) as Hsubpos.
    pose proof (exact_total_nonneg rest Hrest) as Hrestpos.
    destruct Hitem as (product & qty & price & -> & Hprice & Hq).
    destruct (subtotal_quarters product price qty Hprice Hq) as (Hx & Hpos & Hpq & Hsq).
    cbn [exact_total foldr] in Hbound |- *. fold (exact_total rest) in Hbound |- *.
    rewrite exact_subtotal_record in *.
    set (sub := SFmul 53 1024 (b64_of_int qty) price) in *.
    assert (Hsubv : b64_value sub == inject_Z qty * b64_value price).
    { rewrite (is_quarters_value _ _ Hsq), (is_quarters_value _ _ Hpq), inject_Z_mult.
      ring. }
    assert (Hmul : py_mul (PInt qty) (PFloat price) s = (Done (PFloat sub), s)).
    { unfold py_mul. rewrite bind_run, Hx. reflexivity. }
    assert (Hadd : exists t n,
              py_add total (PFloat sub) s = (Done (PFloat t), s) /\
              is_quarters n t = true /\
              b64_value t == acc + inject_Z qty * b64_value price).
    { destruct Htotal as [[-> Hacc]|(t & n & -> & Hn & Hv)].
      - exists sub, (qty * quarters_of price)%Z. split; [|split].
        + destruct (is_quarters_inv _ _ Hsq) as (m & e & Es & _).
          rewrite Es. reflexivity.
        + exact Hsq.
        + rewrite Hsubv, Hacc. ring.
      - assert (Hlt : (n + qty * quarters_of price < 2 ^ 53)%Z).
        { rewrite (is_quarters_value _ _ Hn) in Hv.
          rewrite (is_quarters_value _ _ Hsq) in Hsubv.
          assert (Hq4 : inject_Z (n + qty * quarters_of price) * (1 # 4)
                        < inject_Z (2 ^ 51)).
          { rewrite inject_Z_plus. lra. }
          assert (Hq5 : inject_Z (n + qty * quarters_of price) < inject_Z (2 ^ 53)).
          { change (inject_Z (2 ^ 53)) with (4 * inject_Z (2 ^ 51)). lra. }
          now rewrite <- Zlt_Qlt in Hq5. }
        exists (SFadd 53 1024 t sub), (n + qty * quarters_of price)%Z.
        split; [reflexivity|]. split; [exact (is_quarters_add _ _ _ _ Hn Hsq Hlt)|].
        rewrite (is_quarters_value _ _ (is_quarters_add _ _ _ _ Hn Hsq Hlt)).
        rewrite inject_Z_plus, <- Hv, <- Hsubv.
        rewrite (is_quarters_value _ _ Hn), (is_quarters_value _ _ Hsq). ring. }
    destruct Hadd as (t & n & Hadd & Hn & Hv).
    destruct (IH (PFloat t) (acc + inject_Z qty * b64_value price) s Hrest)
      as (total' & Hrun & Htotal').
    { right. exists t, n. repeat split; assumption. }
    { lra. }
    exists total'. split.
    + cbn [render_cart_items].
      repeat (rewrite bind_run;
              rewrite ?cart_record_quantity, ?cart_record_price,
                      ?cart_record_product, ?Hmul, ?Hadd;
              cbn [py_format_2f py_float mret script_ret];
              cbv beta iota).
      exact Hrun.
    + destruct Htotal' as [[-> Hzero]|(t' & n' & -> & Hn' & Hv')].
      * left. split; [reflexivity|]. rewrite <- Hzero. ring.
      * right. exists t', n'. repeat split; [assumption|]. rewrite Hv'. ring.
Qed.

(** The total of a typed cart is computed without any rounding error: the
    prices are whole numbers of quarters, so every subtotal and every
    partial sum is a double, as long as the total stays below 2^51. *)
Theorem cart_total_is_exact cart s :
  Forall is_cart_item cart -> cart <> [] ->
  exact_total cart < inject_Z (2 ^ 51) ->
  exists t,
    render_cart_items (PInt 0) cart s = (Done (PFloat t), s) /\
    b64_value t == exact_total cart.
Proof.
  intros Hall Hne Hbound.
  destruct (render_cart_items_exact cart (PInt 0) 0 s Hall) as (total & Hrun & Htotal).
  { left. split; reflexivity. }
  { lra. }
  destruct Htotal as [[-> Hzero]|(t & n & -> & _ & Hv)].
  - exfalso. destruct cart as [|item rest]; [contradiction|].
    apply Forall_cons in Hall as [Hitem Hrest].
    pose proof (exact_subtotal_pos item Hitem).
    pose proof (exact_total_nonneg rest Hrest).
    cbn [exact_total foldr] in Hzero. fold (exact_total rest) in Hzero. lra.
  - exists t. split; [exact Hrun|]. rewrite Hv. ring.
Qed.

Lemma cart_total_is_exact_witness :
  Forall is_cart_item sample_cart /\ sample_cart <> [] /\
  exact_total sample_cart < inject_Z (2 ^ 51) /\
  exists t,
    render_cart_items (PInt 0) sample_cart ∅ = (Done (PFloat t), ∅) /\
    b64_value t == 12.
Proof.
  assert (Hall : Forall is_cart_item sample_cart).
  { repeat constructor.
    - exists "Milk", 3%Z, (b64_lit 350 100). split; [reflexivity|]. split; [reflexivity|lia].
    - exists "Apple", 1%Z, (b64_lit 150 100). split; [reflexivity|]. split; [reflexivity|lia]. }
  assert (Hne : sample_cart <> []) by discriminate.
  assert (Hlt : exact_total sample_cart < inject_Z (2 ^ 51)) by (vm_compute; reflexivity).
  split; [exact Hall|]. split; [exact Hne|]. split; [exact Hlt|].
  destruct (cart_total_is_exact sample_cart ∅ Hall Hne Hlt) as (t & Hrun & Hval).
  exists t. split; [exact Hrun|]. rewrite Hval. vm_compute. reflexivity.
Defined.

Local Close Scope Q_scope.

(** * The chart selector *)


(** Every option of the select box shows something: "All Charts" shows the
    seven sections in order, every other option exactly one section, no two
    options the same one, and the position of the option in the list is the
    number of its section. *)
Theorem chart_selector_partitions_page :
  sections "All Charts" =
    [ "1. Line Chart"; "2. Bar Chart"; "3. Area Chart"; "4. Scatter Plot";
      "5. Histogram"; "6. Heatmap"; "7. 3D Surface Plot" ] /\
  (forall (k : nat) (chart_type : string),
     chart_types !! k = Some chart_type -> chart_type <> "All Charts" ->
     exists header,
       sections chart_type = [header] /\
       sections "All Charts" !! k = Some header) /\
  (forall chart_type, chart_type ∉ chart_types -> sections chart_type = []).
Proof.
  split; [reflexivity|]. split.
  - intros k chart_type Hk Hne.
    do 8 (destruct k as [|k]; [injection Hk as <-; first [contradiction|eexists; split; reflexivity]|]).
    discriminate.
  - intros chart_type Hnot. unfold chart_types in Hnot.
    rewrite !not_elem_of_cons in Hnot.
    destruct Hnot as (H1 & H2 & H3 & H4 & H5 & H6 & H7 & H8 & _).
    unfold sections, section_if, py_in.
    rewrite !bool_decide_eq_false_2; [reflexivity|..];
      rewrite !elem_of_cons, elem_of_nil; tauto.
Qed.

Lemma chart_selector_partitions_page_witness :
  chart_types !! 4%nat = Some "Histogram" /\ "Histogram" <> "All Charts" /\
  sections "Histogram" = ["5. Histogram"].
Proof.
  split; [reflexivity|]. split; [discriminate|].
  destruct chart_selector_partitions_page as (_ & Hone & _).
  destruct (Hone 4%nat "Histogram" eq_refl) as (h & Hs & Hk); [discriminate|].
  vm_compute in Hk. injection Hk as <-. exact Hs.
Defined.
